(** * ha-jq300: the JQ-300 cloud account controller

    A shallow embedding of [custom_components/jq300/__init__.py]
    (class [JqAccount]) and the properties of its session handling,
    device cache, sensor ingest and time-weighted averaging.

    Modelling conventions.
    - Python [int] is [Z].  Python [float] is an exact rational [Q]:
      binary rounding, infinities and NaN are not modelled.  The two are
      kept apart by the constructors of [num], because the code looks at
      the dynamic type ([isinstance (_, int)]) and Python's mixed
      arithmetic decides the type of every intermediate result.
    - A [dict] whose iteration order is observable (the per-device sample
      history) is an association list in insertion order; the other
      dictionaries are [gmap]s.
    - The cloud is an oracle [cloud : nat -> Reply] giving the reply to the
      n-th request; [requests] records what was sent.  The wall clock is a
      field of the world.  An exception is an [Outcome] that keeps the
      state as it was when the exception was raised.
    - A JSON body is the record of the keys the controller reads; a body
      that [_query] returns is never an empty dict (it has its result
      code), so [if not ret] is the test for [None].
    - [const.py] is not part of the sources at hand: its tables and
      constants are the fields of the parameter record [Const].
    - A request is logged with the session it carried and the caller's
      extra parameters; [params_sent] gives the parameter dictionary that
      [_query] builds from them, and [jsonp_payload] the text it parses.
    - Left out: the Home Assistant glue ([async_setup], the two
      [async_..._or_timeout] wrappers, [dispatcher_send]), the URL and
      User-Agent helpers, and the fields [hass], [_session], [_available]
      and [_sensors_last_update], which none of the methods below reads. *)

From Stdlib Require Import QArith Qround Lqa.
From stdpp Require Import gmap strings list fin_maps sorting.

Local Open Scope Z_scope.

(** ** Numbers *)

Inductive num : Type :=
| PInt (z : Z)
| PFloat (q : Q).

Module Num.

Definition to_Q (x : num) : Q :=
  match x with PInt z => inject_Z z | PFloat q => q end.

Definition is_int (x : num) : bool :=
  match x with PInt _ => true | PFloat _ => false end.

Definition add (a b : num) : num :=
  match a, b with
  | PInt x, PInt y => PInt (x + y)
  | _, _ => PFloat (Qred (to_Q a + to_Q b))
  end.

Definition sub (a b : num) : num :=
  match a, b with
  | PInt x, PInt y => PInt (x - y)
  | _, _ => PFloat (Qred (to_Q a - to_Q b))
  end.

Definition mul (a b : num) : num :=
  match a, b with
  | PInt x, PInt y => PInt (x * y)
  | _, _ => PFloat (Qred (to_Q a * to_Q b))
  end.

(** [a / b]: true division, always a float; [None] is ZeroDivisionError. *)
Definition truediv (a b : num) : option num :=
  if Qeq_bool (to_Q b) 0 then None
  else Some (PFloat (Qred (to_Q a / to_Q b))).

Definition leb (a b : num) : bool :=
  match a, b with
  | PInt x, PInt y => x <=? y
  | _, _ => Qle_bool (to_Q a) (to_Q b)
  end.

Definition ltb (a b : num) : bool := negb (leb b a).

(** [max(a, b)]: the first argument wins a tie. *)
Definition max2 (a b : num) : num := if ltb a b then b else a.

(** [int(x)] of a float: truncation toward zero. *)
Definition trunc (q : Q) : Z := Z.quot (Qnum q) (Z.pos (Qden q)).

Definition int (x : num) : num :=
  match x with PInt z => PInt z | PFloat q => PInt (trunc q) end.

(** Nearest integer, ties to the even one. *)
Definition round_half_even (q : Q) : Z :=
  let f := Qfloor q in
  let r := (q - inject_Z f)%Q in
  if Qle_bool r (1 # 2)
  then (if Qeq_bool r (1 # 2) then (if Z.even f then f else f + 1) else f)
  else f + 1.

(** [round(x, ndigits)] of a float. *)
Definition round (q : Q) (ndigits : Z) : num :=
  let s := inject_Z (10 ^ ndigits) in
  PFloat (Qred (inject_Z (round_half_even (q * s)) / s)).

End Num.

(** ** Units of measure (homeassistant.const) *)

Definition CONCENTRATION_PARTS_PER_BILLION : string := "ppb".
Definition CONCENTRATION_PARTS_PER_MILLION : string := "ppm".
Definition CONCENTRATION_MILLIGRAMS_PER_CUBIC_METER : string := "mg/m³".

(** ** The constants of const.py

    [SENSORS] and [BINARY_SENSORS] map a sensor id to [data[1]] of its
    table row (the unit, resp. the device class); the two time deltas are
    given by their [total_seconds()]. *)

Record Const : Type := {
  SENSORS : gmap Z string;
  BINARY_SENSORS : gmap Z string;
  MWEIGTH_TVOC : num;
  MWEIGTH_HCHO : num;
  SENSORS_FILTER_FRAME : Q;
  UPDATE_MIN_INTERVAL : Q
}.

(** ** Exceptions and outcomes *)

Inductive Subject : Type :=
| in_response | in_devices | in_sensors | in_sensors_raw | in_units | in_res.

Inductive PyExn : Type :=
| KeyError (where_ : Subject)
| ValueError
| ZeroDivisionError
| JSONDecodeError.

Inductive Outcome (A : Type) : Type :=
| Returned (a : A)
| Raised (e : PyExn).
Arguments Returned {A} a.
Arguments Raised {A} e.

Definition obind {A B} (o : Outcome A) (k : A -> Outcome B) : Outcome B :=
  match o with Returned a => k a | Raised e => Raised e end.

Definition lookup_or {A} (e : PyExn) (o : option A) : Outcome A :=
  match o with Some a => Returned a | None => Raised e end.

Notation "'try' x <- m ; k" := (obind m (fun x => k))
  (at level 10, x name, m at level 100, k at level 200,
   format "'[v' 'try'  x  <-  m ; '/' k ']'").

(** ** The cloud *)

Inductive QueryType : Type := QUERY_TYPE_API | QUERY_TYPE_DEVICE.

Record Device : Type := {
  deviceid : string;
  deviceToken : string;
  pt_name : string;
  stamp : option Z          (* the entry under key "" *)
}.

Inductive Content : Type :=
| Null
| Number (q : Q)
| Garbage.                  (* float() raises ValueError *)

Record SensorVo : Type := { seq : Z; content : Content }.

(** A parsed JSON body: the keys the controller reads, each possibly
    missing. *)
Record Body : Type := {
  j_code : option Z;
  j_returnCode : option Z;
  j_uid : option Z;
  j_safeToken : option string;
  j_deviceInfoBodyList : option (list Device);
  j_deviceValueVos : option (list SensorVo)
}.

Inductive Reply : Type :=
| ConnectionError                             (* session.get raised *)
| Http (status_code : Z) (json : option Body) (* None: json.loads raises *).

Inductive Extra : Type :=
| LoginByEmail (email password : string)
| DeviceManager
| SensorList (device_token : string) (timestamp : Z).

Record Request : Type := {
  query_type : QueryType;
  function : string;
  sent_uid : Z;
  sent_token : string;
  extra_params : Extra
}.

(** ** The controller's state *)

Abbreviation SampleSet := (gmap Z num).
Abbreviation History := (list (Z * gmap Z num)).

Record JqAccount : Type := {
  uid : Z;                                   (* params["uid"] *)
  safeToken : string;                        (* params["safeToken"] *)
  username : string;
  password : string;
  receive_tvoc_in_ppb : bool;
  receive_hcho_in_ppb : bool;
  active_devices : list string;
  devices : gmap string Device;
  sensors : gmap string History;
  sensors_raw : gmap string SampleSet;
  units : gmap Z string
}.

Record World : Type := {
  self : JqAccount;
  cloud : nat -> Reply;
  requests : list Request;
  wall_clock : Q;                            (* dt_util.now().timestamp() *)
  ingests : list (string * Z * SampleSet)    (* ghost: stored sample sets, latest first *)
}.

Definition set_uid (v : Z) (a : JqAccount) : JqAccount :=
  {| uid := v; safeToken := safeToken a; username := username a;
     password := password a; receive_tvoc_in_ppb := receive_tvoc_in_ppb a;
     receive_hcho_in_ppb := receive_hcho_in_ppb a;
     active_devices := active_devices a; devices := devices a;
     sensors := sensors a; sensors_raw := sensors_raw a; units := units a |}.

Definition set_safeToken (v : string) (a : JqAccount) : JqAccount :=
  {| uid := uid a; safeToken := v; username := username a;
     password := password a; receive_tvoc_in_ppb := receive_tvoc_in_ppb a;
     receive_hcho_in_ppb := receive_hcho_in_ppb a;
     active_devices := active_devices a; devices := devices a;
     sensors := sensors a; sensors_raw := sensors_raw a; units := units a |}.

Definition set_active_devices (v : list string) (a : JqAccount) : JqAccount :=
  {| uid := uid a; safeToken := safeToken a; username := username a;
     password := password a; receive_tvoc_in_ppb := receive_tvoc_in_ppb a;
     receive_hcho_in_ppb := receive_hcho_in_ppb a;
     active_devices := v; devices := devices a;
     sensors := sensors a; sensors_raw := sensors_raw a; units := units a |}.

Definition set_devices (v : gmap string Device) (a : JqAccount) : JqAccount :=
  {| uid := uid a; safeToken := safeToken a; username := username a;
     password := password a; receive_tvoc_in_ppb := receive_tvoc_in_ppb a;
     receive_hcho_in_ppb := receive_hcho_in_ppb a;
     active_devices := active_devices a; devices := v;
     sensors := sensors a; sensors_raw := sensors_raw a; units := units a |}.

Definition set_sensors (v : gmap string History) (a : JqAccount) : JqAccount :=
  {| uid := uid a; safeToken := safeToken a; username := username a;
     password := password a; receive_tvoc_in_ppb := receive_tvoc_in_ppb a;
     receive_hcho_in_ppb := receive_hcho_in_ppb a;
     active_devices := active_devices a; devices := devices a;
     sensors := v; sensors_raw := sensors_raw a; units := units a |}.

Definition set_sensors_raw (v : gmap string SampleSet) (a : JqAccount) : JqAccount :=
  {| uid := uid a; safeToken := safeToken a; username := username a;
     password := password a; receive_tvoc_in_ppb := receive_tvoc_in_ppb a;
     receive_hcho_in_ppb := receive_hcho_in_ppb a;
     active_devices := active_devices a; devices := devices a;
     sensors := sensors a; sensors_raw := v; units := units a |}.

Definition with_self (f : JqAccount -> JqAccount) (w : World) : World :=
  {| self := f (self w); cloud := cloud w; requests := requests w;
     wall_clock := wall_clock w; ingests := ingests w |}.

Definition sent (r : Request) (w : World) : World :=
  {| self := self w; cloud := cloud w; requests := requests w ++ [r];
     wall_clock := wall_clock w; ingests := ingests w |}.

Definition ingested (device_id : string) (ts : Z) (res : SampleSet) (w : World) : World :=
  {| self := self w; cloud := cloud w; requests := requests w;
     wall_clock := wall_clock w; ingests := (device_id, ts, res) :: ingests w |}.

(** ** The monad of the controller's methods *)

Definition M (A : Type) : Type := World -> World * Outcome A.

Definition ret {A} (a : A) : M A := fun w => (w, Returned a).
Definition raise {A} (e : PyExn) : M A := fun w => (w, Raised e).

Definition bind {A B} (m : M A) (k : A -> M B) : M B :=
  fun w =>
    match m w with
    | (w', Returned a) => k a w'
    | (w', Raised e) => (w', Raised e)
    end.

Definition gets {A} (f : JqAccount -> A) : M A := fun w => (w, Returned (f (self w))).
Definition modify (f : JqAccount -> JqAccount) : M unit :=
  fun w => (with_self f w, Returned tt).
Definition lift {A} (o : Outcome A) : M A := fun w => (w, o).

Notation "'do' x <- m ; k" := (bind m (fun x => k))
  (at level 10, x name, m at level 100, k at level 200,
   format "'[v' 'do'  x  <-  m ; '/' k ']'").
Notation "m ;; k" := (bind m (fun _ => k))
  (at level 100, k at level 200, right associativity).

(** [for x in l: body x] *)
Fixpoint for_each {A} (l : list A) (body : A -> M unit) : M unit :=
  match l with
  | [] => ret tt
  | x :: l' => body x ;; for_each l' body
  end.

(** ** [JqAccount.__init__] *)

Definition initial_units (K : Const) (receive_tvoc_in_ppb receive_hcho_in_ppb : bool)
  : gmap Z string :=
  map_imap
    (fun sensor_id unit_ =>
       Some (if (receive_tvoc_in_ppb && (sensor_id =? 8))
                || (receive_hcho_in_ppb && (sensor_id =? 7))
             then CONCENTRATION_PARTS_PER_BILLION
             else unit_))
    (SENSORS K)
  ∪ BINARY_SENSORS K.

Definition init (K : Const) (username password : string)
    (receive_tvoc_in_ppb receive_hcho_in_ppb : bool) : JqAccount :=
  {| uid := -1000; safeToken := "anonymous";
     username := username; password := password;
     receive_tvoc_in_ppb := receive_tvoc_in_ppb;
     receive_hcho_in_ppb := receive_hcho_in_ppb;
     active_devices := []; devices := ∅; sensors := ∅; sensors_raw := ∅;
     units := initial_units K receive_tvoc_in_ppb receive_hcho_in_ppb |}.

(** ** [JqAccount._query] *)

(** The result of [_query] as a function of the reply, the session reset
    apart ([_query_eq] below): [Returned None] is "no result". *)
Definition classify (query_type : QueryType) (reply : Reply) : Outcome (option Body) :=
  match reply with
  | ConnectionError => Returned None
  | Http status_code json =>
      if (status_code =? 200) || (status_code =? 204) then
        try response <- lookup_or JSONDecodeError json;
        match query_type with
        | QUERY_TYPE_API =>
            try code <- lookup_or (KeyError in_response) (j_code response);
            if code =? 102 then Returned None
            else if code =? 9999 then Returned None
            else if negb (code =? 2000) then Returned None
            else Returned (Some response)
        | QUERY_TYPE_DEVICE =>
            try rc <- lookup_or (KeyError in_response) (j_returnCode response);
            if negb (rc =? 0) then Returned None
            else Returned (Some response)
        end
      else Returned None
  end.

(** [self._session.get(url, params=params, ...)]: the request carries the
    session parameters as they are now. *)
Definition session_get (query_type : QueryType) (function : string) (extra_params : Extra)
  : M Reply :=
  fun w =>
    let request :=
      {| query_type := query_type; function := function;
         sent_uid := uid (self w); sent_token := safeToken (self w);
         extra_params := extra_params |} in
    (sent request w, Returned (cloud w (length (requests w)))).

Definition _query (query_type : QueryType) (function : string) (extra_params : Extra)
  : M (option Body) :=
  do reply <- session_get query_type function extra_params;
  match reply with
  | ConnectionError => ret None
  | Http status_code json =>
      if negb ((status_code =? 200) || (status_code =? 204)) then ret None
      else
        do response <- lift (lookup_or JSONDecodeError json);
        match query_type with
        | QUERY_TYPE_API =>
            do code <- lift (lookup_or (KeyError in_response) (j_code response));
            if code =? 102 then ret None
            else if code =? 9999 then ret None
            else if negb (code =? 2000) then ret None
            else ret (Some response)
        | QUERY_TYPE_DEVICE =>
            do rc <- lift (lookup_or (KeyError in_response) (j_returnCode response));
            if negb (rc =? 0) then
              modify (set_uid (-1000)) ;;
              ret None
            else ret (Some response)
        end
  end.

(** ** [JqAccount.is_connected] *)

Definition is_connected (a : JqAccount) : bool := 0 <? uid a.

(** ** [JqAccount.connect]

    The method calls itself once, with [force = True], and that inner call
    cannot call itself again: [retry] stands for the inner call. *)

Definition connect_body (retry : M bool) (force : bool) : M bool :=
  do u <- gets uid;
  if negb force && (0 <? u) then ret true
  else
    modify (set_uid (-1000)) ;;
    modify (set_safeToken "anonymous") ;;
    do email <- gets username;
    do pass <- gets password;
    do r <- _query QUERY_TYPE_API "loginByEmail" (LoginByEmail email pass);
    match r with
    | None => if negb force then retry else ret false
    | Some r =>
        do u <- lift (lookup_or (KeyError in_response) (j_uid r));
        modify (set_uid u) ;;
        do t <- lift (lookup_or (KeyError in_response) (j_safeToken r));
        modify (set_safeToken t) ;;
        modify (set_devices ∅) ;;
        ret true
    end.

Definition connect (force : bool) : M bool :=
  connect_body (connect_body (ret false) true) force.

(** ** [JqAccount.update_devices] *)

Definition now : M Q := fun w => (w, Returned (wall_clock w)).

Definition stamped (tstamp : Z) (dev : Device) : Device :=
  {| deviceid := deviceid dev; deviceToken := deviceToken dev;
     pt_name := pt_name dev; stamp := Some tstamp |}.

(** [for dev in l: dev[""] = tstamp; self._devices[dev["deviceid"]] = dev] *)
Definition store_devices (tstamp : Z) (l : list Device) (devs : gmap string Device)
  : gmap string Device :=
  foldl (fun m dev => <[deviceid dev := stamped tstamp dev]> m) devs l.

(** [for device_id in self._devices: self._sensors.setdefault(device_id, {})] *)
Definition setdefault_histories (devs : gmap string Device) (s : gmap string History)
  : gmap string History :=
  s ∪ ((fun _ => []) <$> devs).

Definition update_devices_body (retry : M (option (gmap string Device))) (force : bool)
  : M (option (gmap string Device)) :=
  do ok <- connect false;
  if negb ok then ret None
  else
    do devs <- gets devices;
    if negb force && negb (bool_decide (devs = ∅)) then ret (Some devs)
    else
      do r <- _query QUERY_TYPE_API "deviceManager" DeviceManager;
      match r with
      | None => if negb force then retry else ret None
      | Some r =>
          do t <- now;
          let tstamp := Num.trunc (t * 1000) in
          do l <- lift (lookup_or (KeyError in_response) (j_deviceInfoBodyList r));
          modify (fun a => set_devices (store_devices tstamp l (devices a)) a) ;;
          modify (fun a => set_sensors (setdefault_histories (devices a) (sensors a)) a) ;;
          do devs <- gets devices;
          ret (Some devs)
      end.

Definition update_devices (force : bool) : M (option (gmap string Device)) :=
  update_devices_body (update_devices_body (ret None) true) force.

(** ** [JqAccount._fetch_sensors] *)

(** [float(sensor["content"])] *)
Definition float_of_content (c : Content) : Outcome num :=
  match c with
  | Number q => Returned (PFloat (Qred q))
  | Null | Garbage => Raised ValueError
  end.

Definition is_null (c : Content) : bool :=
  match c with Null => true | _ => false end.

(** [x *= 1000 * 24.45 / weight] *)
Definition to_parts (x weight : num) : Outcome num :=
  try factor <- lookup_or ZeroDivisionError
                  (Num.truediv (Num.mul (PInt 1000) (PFloat (2445 # 100))) weight);
  Returned (Num.mul x factor).

(** One turn of the loop over [ret["deviceValueVos"]]. *)
Definition read_value (K : Const) (a : JqAccount) (res : SampleSet) (sensor : SensorVo)
  : Outcome SampleSet :=
  let sensor_id := seq sensor in
  if is_null (content sensor)
     || (negb (bool_decide (sensor_id ∈ dom (SENSORS K)))
         && negb (bool_decide (sensor_id ∈ dom (BINARY_SENSORS K))))
  then Returned res
  else
    try x <- float_of_content (content sensor);
    try x <- (if (sensor_id =? 8) && receive_tvoc_in_ppb a
              then to_parts x (MWEIGTH_TVOC K)
              else if (sensor_id =? 7) && receive_hcho_in_ppb a
              then to_parts x (MWEIGTH_HCHO K)
              else Returned x);
    try u <- lookup_or (KeyError in_units) (units a !! sensor_id);
    Returned (<[sensor_id :=
                 if negb (String.eqb u CONCENTRATION_MILLIGRAMS_PER_CUBIC_METER)
                 then Num.int x else x]> res).

Fixpoint read_values (K : Const) (a : JqAccount) (res : SampleSet) (l : list SensorVo)
  : Outcome SampleSet :=
  match l with
  | [] => Returned res
  | sensor :: l' =>
      try res <- read_value K a res sensor;
      read_values K a res l'
  end.

(** [d[k] = v] on a dictionary kept in insertion order. *)
Fixpoint dict_set {V} (k : Z) (v : V) (d : list (Z * V)) : list (Z * V) :=
  match d with
  | [] => [(k, v)]
  | (k', v') :: d' => if k' =? k then (k, v) :: d' else (k', v') :: dict_set k v d'
  end.

(** [self._sensors[device_id][ts_now] = res; self._sensors_raw[device_id] = res] *)
Definition store_samples (device_id : string) (ts_now : Z) (res : SampleSet) : M unit :=
  do s <- gets sensors;
  do h <- lift (lookup_or (KeyError in_sensors) (s !! device_id));
  modify (fun a => set_sensors (<[device_id := dict_set ts_now res h]> (sensors a)) a) ;;
  modify (fun a => set_sensors_raw (<[device_id := res]> (sensors_raw a)) a) ;;
  fun w => (ingested device_id ts_now res w, Returned tt).

Definition _fetch_sensors_body (K : Const) (retry : M bool)
    (device_id : string) (ts_now : Z) (force : bool) : M bool :=
  do devs <- update_devices false;
  match devs with
  | None => ret false
  | Some devs =>
      if bool_decide (devs = ∅) then ret false
      else
        (* [not devices[device_id]]: a stamped entry is never an empty dict *)
        do dev <- lift (lookup_or (KeyError in_devices) (devs !! device_id));
        do r <- _query QUERY_TYPE_DEVICE "list" (SensorList (deviceToken dev) ts_now);
        match r with
        | None => if negb force then retry else ret false
        | Some r =>
            do vos <- lift (lookup_or (KeyError in_response) (j_deviceValueVos r));
            do a <- gets id;
            do res <- lift (read_values K a ∅ vos);
            store_samples device_id ts_now res ;;
            ret true
        end
  end.

Definition _fetch_sensors (K : Const) (device_id : string) (ts_now : Z) (force : bool)
  : M bool :=
  _fetch_sensors_body K (_fetch_sensors_body K (ret false) device_id ts_now true)
    device_id ts_now force.

(** ** [JqAccount.update_sensors] *)

Definition keys {V} (d : list (Z * V)) : list Z := d.*1.

(** [max(l)] and [min(l)] of a list of integers; [None] is ValueError. *)
Definition max_list (l : list Z) : option Z :=
  match l with [] => None | x :: l' => Some (foldl Z.max x l') end.

Definition min_list (l : list Z) : option Z :=
  match l with [] => None | x :: l' => Some (foldl Z.min x l') end.

Definition ts_of (t : Q) : Z := Num.trunc t.

Definition needs_fetch (K : Const) (ts_now : Z) (h : History) : bool :=
  match max_list (keys h) with
  | None => true
  | Some newest =>
      Num.ltb (PInt newest)
        (Num.sub (PInt ts_now) (PFloat (UPDATE_MIN_INTERVAL K)))
  end.

Definition update_sensors (K : Const) : M unit :=
  do t <- now;
  let ts_now := ts_of t in
  do active <- gets active_devices;
  for_each active (fun device_id =>
    do s <- gets sensors;
    do h <- lift (lookup_or (KeyError in_sensors) (s !! device_id));
    if needs_fetch K ts_now h
    then (do _r <- _fetch_sensors K device_id ts_now false; ret tt)
    else ret tt).

(** ** [JqAccount.active_devices] (setter) *)

Definition set_active (devs : list string) : M unit :=
  modify (set_active_devices devs) ;;
  for_each devs (fun device_id =>
    modify (fun a =>
      set_sensors (match sensors a !! device_id with
                   | Some _ => sensors a
                   | None => <[device_id := []]> (sensors a)
                   end) a)).

(** ** [JqAccount.get_sensors_raw] *)

Definition get_sensors_raw (device_id : string) : M (option SampleSet) :=
  do raw <- gets sensors_raw;
  ret (raw !! device_id).

(** ** [JqAccount.get_sensors] *)

(** [ts_overdue = ts_now - SENSORS_FILTER_FRAME.total_seconds()] *)
Definition ts_overdue_at (frame : Q) (ts_now : Z) : num :=
  Num.sub (PInt ts_now) (PFloat frame).

(** [max(list(filter(lambda x: x <= ts_overdue, keys)) or {ts_overdue})] *)
Definition ts_min_of (ts_overdue : num) (h : History) : num :=
  match max_list (List.filter (fun x => Num.leb (PInt x) ts_overdue) (keys h)) with
  | Some newest_overdue => PInt newest_overdue
  | None => ts_overdue
  end.

(** The loop "Filter historic states" copies, in order, the items whose
    timestamp passes the test; the keys of the source dictionary are
    distinct, so every [res[m_ts] = val] appends. *)
Definition prune (ts_min : num) (h : History) : History :=
  List.filter (fun item => Num.leb ts_min (PInt item.1)) h.

(** [for sensor_id, val in last_data.items(): res[sensor_id] += val * val_t] *)
Definition add_weighted (res last_data : SampleSet) (val_t : num) : Outcome SampleSet :=
  map_fold
    (fun sensor_id val acc =>
       try res <- acc;
       try cur <- lookup_or (KeyError in_res) (res !! sensor_id);
       Returned (<[sensor_id := Num.add cur (Num.mul val val_t)]> res))
    (Returned res) last_data.

Record Walk : Type := {
  acc_res : SampleSet;
  last_ts : num;
  last_data : SampleSet
}.

(** One turn of the loop "Sum values". *)
Definition sum_step (ts_overdue : num) (st : Walk) (item : Z * SampleSet) : Outcome Walk :=
  let m_ts := item.1 in
  let data := item.2 in
  let val_t := Num.sub (PInt m_ts) (last_ts st) in
  try res <- (if Num.ltb (PInt 0) val_t
              then add_weighted (acc_res st) (last_data st) val_t
              else Returned (acc_res st));
  Returned {| acc_res := res;
              last_ts := Num.max2 (PInt m_ts) ts_overdue;
              last_data := data |}.

Fixpoint sum_values (ts_overdue : num) (st : Walk) (h : History) : Outcome Walk :=
  match h with
  | [] => Returned st
  | item :: h' =>
      try st <- sum_step ts_overdue st item;
      sum_values ts_overdue st h'
  end.

(** [res] as it stands before "Average and round". *)
Definition weighted_sums (ts_now : Z) (ts_overdue : num) (raw : SampleSet) (h : History)
  : Outcome SampleSet :=
  let zero : SampleSet := (fun _ => PInt 0) <$> raw in
  try st <- sum_values ts_overdue
              {| acc_res := zero; last_ts := ts_overdue; last_data := zero |} h;
  let val_t := Num.add (Num.sub (PInt ts_now) (last_ts st)) (PInt 1) in
  add_weighted (acc_res st) (last_data st) val_t.

(** [length = max(1, ts_now - max(min(keys), ts_overdue) + 1)] *)
Definition window_length (ts_now : Z) (ts_overdue : num) (h : History) : Outcome num :=
  try oldest <- lookup_or ValueError (min_list (keys h));
  Returned
    (Num.max2 (PInt 1)
       (Num.add (Num.sub (PInt ts_now) (Num.max2 (PInt oldest) ts_overdue)) (PInt 1))).

Definition is_parts_unit (u : string) : bool :=
  String.eqb u CONCENTRATION_PARTS_PER_MILLION
  || String.eqb u CONCENTRATION_PARTS_PER_BILLION.

(** The precision rule applied to [average = total / length]. *)
Definition rounded (u : string) (total average : num) : num :=
  if is_parts_unit u then Num.int average
  else Num.round (Num.to_Q average) (if Num.is_int total then 1 else 3).

(** The value that replaces [res[sensor_id]] in "Average and round". *)
Definition finish (units_ : gmap Z string) (raw : SampleSet) (length : num)
    (sensor_id : Z) (total : num) : Outcome num :=
  if sensor_id =? 1 then lookup_or (KeyError in_sensors_raw) (raw !! 1)
  else
    try u <- lookup_or (KeyError in_units) (units_ !! sensor_id);
    try average <- lookup_or ZeroDivisionError (Num.truediv total length);
    Returned (rounded u total average).

Definition average_and_round (units_ : gmap Z string) (raw : SampleSet) (length : num)
    (res : SampleSet) : Outcome SampleSet :=
  map_fold
    (fun sensor_id total acc =>
       try out <- acc;
       try v <- finish units_ raw length sensor_id total;
       Returned (<[sensor_id := v]> out))
    (Returned res) res.

Definition get_sensors (K : Const) (device_id : string) : M (option SampleSet) :=
  do t <- now;
  let ts_now := ts_of t in
  let ts_overdue := ts_overdue_at (SENSORS_FILTER_FRAME K) ts_now in
  modify (fun a =>
    set_sensors (match sensors a !! device_id with
                 | Some _ => sensors a
                 | None => <[device_id := []]> (sensors a)
                 end) a) ;;
  do s <- gets sensors;
  do h <- lift (lookup_or (KeyError in_sensors) (s !! device_id));
  let kept := prune (ts_min_of ts_overdue h) h in
  modify (fun a => set_sensors (<[device_id := kept]> (sensors a)) a) ;;
  match kept with
  | [] => ret None
  | _ :: _ =>
      do raws <- gets sensors_raw;
      do raw <- lift (lookup_or (KeyError in_sensors_raw) (raws !! device_id));
      do units_ <- gets units;
      do res <- lift (weighted_sums ts_now ts_overdue raw kept);
      do length <- lift (window_length ts_now ts_overdue kept);
      do res <- lift (average_and_round units_ raw length res);
      ret (Some res)
  end.

(** ** Reachable states *)

Inductive Op : Type :=
| Connect (force : bool)
| UpdateDevices (force : bool)
| FetchSensors (device_id : string) (ts_now : Z) (force : bool)
| UpdateSensors
| GetSensors (device_id : string)
| GetSensorsRaw (device_id : string)
| SetActiveDevices (devs : list string)
| AppendActiveDevice (device_id : string).

Definition call (K : Const) (op : Op) (w : World) : World :=
  match op with
  | Connect force => (connect force w).1
  | UpdateDevices force => (update_devices force w).1
  | FetchSensors device_id ts_now force => (_fetch_sensors K device_id ts_now force w).1
  | UpdateSensors => (update_sensors K w).1
  | GetSensors device_id => (get_sensors K device_id w).1
  | GetSensorsRaw device_id => (get_sensors_raw device_id w).1
  | SetActiveDevices devs => (set_active devs w).1
  | AppendActiveDevice device_id =>
      with_self (fun a => set_active_devices (active_devices a ++ [device_id]) a) w
  end.

(** The cloud answers as it likes and time passes. *)
Definition elapse (cloud' : nat -> Reply) (t : Q) (w : World) : World :=
  {| self := self w; cloud := cloud'; requests := requests w;
     wall_clock := t; ingests := ingests w |}.

Definition start (K : Const) (username password : string)
    (receive_tvoc_in_ppb receive_hcho_in_ppb : bool)
    (cloud0 : nat -> Reply) (t0 : Q) : World :=
  {| self := init K username password receive_tvoc_in_ppb receive_hcho_in_ppb;
     cloud := cloud0; requests := []; wall_clock := t0; ingests := [] |}.

(** [_fetch_sensors] is private; [update_sensors] is its only caller. *)
Definition public (op : Op) : Prop :=
  match op with
  | FetchSensors _ _ _ => False
  | _ => True
  end.

Inductive reachable_by (K : Const) (allowed : Op -> Prop) : World -> Prop :=
| reachable_start username password tvoc hcho cloud0 t0 :
    reachable_by K allowed (start K username password tvoc hcho cloud0 t0)
| reachable_call op w :
    allowed op -> reachable_by K allowed w -> reachable_by K allowed (call K op w)
| reachable_elapse cloud' t w :
    reachable_by K allowed w -> reachable_by K allowed (elapse cloud' t w).

(** Reachable through any of the operations, the private one included. *)
Definition reachable (K : Const) : World -> Prop := reachable_by K (fun _ => True).

(** The sample set stored by the most recent ingest for a device. *)
Fixpoint last_ingest (device_id : string) (log : list (string * Z * SampleSet))
  : option SampleSet :=
  match log with
  | [] => None
  | (d, _, res) :: log' =>
      if String.eqb d device_id then Some res else last_ingest device_id log'
  end.

(** ** Observations used in the statements *)

Definition history_of (device_id : string) (w : World) : History :=
  default [] (sensors (self w) !! device_id).

(** [cutoff = now - retention window], as a rational. *)
Definition cutoff (K : Const) (w : World) : Q :=
  (inject_Z (ts_of (wall_clock w)) - SENSORS_FILTER_FRAME K)%Q.

(** The state [get_sensors] leaves behind, and what it answers. *)
Definition pruned (K : Const) (device_id : string) (w : World) : World :=
  let ts_overdue := ts_overdue_at (SENSORS_FILTER_FRAME K) (ts_of (wall_clock w)) in
  let h := history_of device_id w in
  with_self
    (fun a => set_sensors (<[device_id := prune (ts_min_of ts_overdue h) h]> (sensors a)) a)
    w.

Definition averaged (ts_now : Z) (ts_overdue : num) (units_ : gmap Z string)
    (raw : option SampleSet) (kept : History) : Outcome (option SampleSet) :=
  match kept with
  | [] => Returned None
  | _ :: _ =>
      try raw <- lookup_or (KeyError in_sensors_raw) raw;
      try res <- weighted_sums ts_now ts_overdue raw kept;
      try length <- window_length ts_now ts_overdue kept;
      try res <- average_and_round units_ raw length res;
      Returned (Some res)
  end.

Definition returned {A} (o : Outcome A) : option A :=
  match o with Returned a => Some a | Raised _ => None end.

(** ** What a request leaves behind *)

Definition request_of (query_type : QueryType) (function : string)
    (extra_params : Extra) (w : World) : Request :=
  {| query_type := query_type; function := function;
     sent_uid := uid (self w); sent_token := safeToken (self w);
     extra_params := extra_params |}.

Definition next_reply (w : World) : Reply := cloud w (length (requests w)).

(** The device surface answered with a non-zero [returnCode]. *)
Definition device_rejects (reply : Reply) : bool :=
  match reply with
  | Http status_code (Some response) =>
      ((status_code =? 200) || (status_code =? 204))
      && match j_returnCode response with
         | Some rc => negb (rc =? 0)
         | None => false
         end
  | _ => false
  end.

Definition after_query (query_type : QueryType) (function : string)
    (extra_params : Extra) (w : World) : World :=
  let w' := sent (request_of query_type function extra_params w) w in
  match query_type with
  | QUERY_TYPE_DEVICE =>
      if device_rejects (next_reply w) then with_self (set_uid (-1000)) w' else w'
  | QUERY_TYPE_API => w'
  end.

(** The requests issued between two states. *)
Definition issued (w w' : World) : list Request :=
  drop (length (requests w)) (requests w').

Definition is_login (r : Request) : bool := String.eqb (function r) "loginByEmail".

(** The session as [connect] resets it, and the state once the login
    request is out. *)
Definition logged_out (a : JqAccount) : JqAccount :=
  set_safeToken "anonymous" (set_uid (-1000) a).

Definition login_sent (w : World) : World :=
  after_query QUERY_TYPE_API "loginByEmail"
    (LoginByEmail (username (self w)) (password (self w)))
    (with_self logged_out w).

Definition logged_in (u : Z) (t : string) (a : JqAccount) : JqAccount :=
  set_devices ∅ (set_safeToken t (set_uid u a)).

(** The cache and the histories after a device list [l] came in. *)
Definition refreshed (tstamp : Z) (l : list Device) (a : JqAccount) : JqAccount :=
  let devs := store_devices tstamp l (devices a) in
  set_sensors (setdefault_histories devs (sensors a)) (set_devices devs a).

Definition devices_asked (w : World) : World :=
  after_query QUERY_TYPE_API "deviceManager" DeviceManager w.

(** ** The invariant that ties the raw snapshot to the history

    The raw snapshot of every device is the sample set of its latest
    ingest, and a device with a history that is not empty has a raw
    snapshot. *)
Definition raw_backs_history (w : World) : Prop :=
  (forall device_id,
     sensors_raw (self w) !! device_id = last_ingest device_id (ingests w))
  /\ (forall device_id h,
        sensors (self w) !! device_id = Some h -> h <> [] ->
        is_Some (sensors_raw (self w) !! device_id)).

Definition preserves {A} (m : M A) : Prop :=
  forall w, raw_backs_history w -> raw_backs_history (m w).1.

(** A change of the account that leaves histories and raw snapshots alone. *)
Definition keeps_samples (f : JqAccount -> JqAccount) : Prop :=
  forall a, sensors (f a) = sensors a /\ sensors_raw (f a) = sensors_raw a.

(** ** The averaging rule in the words of the specification

    Section 4.4, steps 4 to 6, for one sensor id [s]: a zero-order-hold
    integral over the kept entries in ascending timestamp order.  These
    definitions follow the specification, not the code; the theorems
    below compare them with [weighted_sums] and [window_length]. *)

Fixpoint insert_by_ts (item : Z * SampleSet) (l : History) : History :=
  match l with
  | [] => [item]
  | x :: l' => if item.1 <=? x.1 then item :: l else x :: insert_by_ts item l'
  end.

Definition ascending (entries : History) : History :=
  foldr insert_by_ts [] entries.

(** [acc + lastData[s] * dt] *)
Definition held_value (s : Z) (lastData : SampleSet) (dt acc : num) : num :=
  match lastData !! s with
  | Some value => Num.add acc (Num.mul value dt)
  | None => acc
  end.

Fixpoint zoh_walk (s : Z) (cutoff lastTs : num) (lastData : SampleSet) (acc : num)
    (entries : History) : num * num * SampleSet :=
  match entries with
  | [] => (acc, lastTs, lastData)
  | (ts, sampleSet) :: rest =>
      let dt := Num.sub (PInt ts) lastTs in
      let acc := if Num.ltb (PInt 0) dt then held_value s lastData dt acc else acc in
      zoh_walk s cutoff (Num.max2 (PInt ts) cutoff) sampleSet acc rest
  end.

(** The walk over [walked], then the final contribution of the value
    held last. *)
Definition zoh_sum_over (s : Z) (now_ : Z) (cutoff : num) (raw : SampleSet)
    (walked : History) : num :=
  let '(acc, lastTs, lastData) :=
    zoh_walk s cutoff cutoff ((fun _ => PInt 0) <$> raw) (PInt 0) walked in
  held_value s lastData (Num.add (Num.sub (PInt now_) lastTs) (PInt 1)) acc.

Definition zoh_sum (s : Z) (now_ : Z) (cutoff : num) (raw : SampleSet)
    (entries : History) : num :=
  zoh_sum_over s now_ cutoff raw (ascending entries).


(** Every stored sample set of the history reports only sensor ids of the
    raw snapshot. *)
Definition ids_within (raw : SampleSet) (h : History) : Prop :=
  forall item, item ∈ h -> dom item.2 ⊆ dom raw.

Definition ascending_order (h : History) : Prop :=
  StronglySorted Z.lt (keys h).

(** A stored value is an [int] unless its unit is the mass-concentration
    unit, and then it is a [float]. *)
Definition typed_by_unit (a : JqAccount) (res : SampleSet) : Prop :=
  forall sensor_id v, res !! sensor_id = Some v ->
    exists u, units a !! sensor_id = Some u
      /\ if String.eqb u CONCENTRATION_MILLIGRAMS_PER_CUBIC_METER
         then exists q, v = PFloat q
         else exists z, v = PInt z.

(** ** Invariants of the reachable states

    [typed_store K]: the units are those built by [__init__], and every
    stored sample set, raw snapshot or history entry, holds an [int]
    unless the unit is the mass-concentration unit and a [float] then.
    [orderly]: every raw snapshot reports sensor ids that have a unit, and
    every history is in ascending timestamp order.  [newer d ts]: the
    history of [d] holds only timestamps before [ts].  [quiet w w']: from
    [w] to [w'] the units, the unit preferences and the raw snapshots are
    unchanged and histories are unchanged or new and empty. *)
Definition typed_store (K : Const) (w : World) : Prop :=
  units (self w)
  = initial_units K (receive_tvoc_in_ppb (self w)) (receive_hcho_in_ppb (self w))
  /\ (forall device_id raw,
        sensors_raw (self w) !! device_id = Some raw ->
        typed_by_unit (self w) raw)
  /\ (forall device_id h item,
        sensors (self w) !! device_id = Some h -> item ∈ h ->
        typed_by_unit (self w) item.2).



Definition same_config (w w' : World) : Prop :=
  units (self w') = units (self w)
  /\ receive_tvoc_in_ppb (self w') = receive_tvoc_in_ppb (self w)
  /\ receive_hcho_in_ppb (self w') = receive_hcho_in_ppb (self w).

Definition quiet (w w' : World) : Prop :=
  same_config w w'
  /\ sensors_raw (self w') = sensors_raw (self w)
  /\ forall device_id h,
       sensors (self w') !! device_id = Some h ->
       sensors (self w) !! device_id = Some h \/ h = [].

Definition keeps_quiet {A} (m : M A) : Prop := forall w, quiet w (m w).1.

(** ** Boolean versions of the side conditions, to run on a concrete state *)

Definition ids_withinb (raw : SampleSet) (h : History) : bool :=
  forallb (fun item : Z * SampleSet => bool_decide (dom item.2 ⊆ dom raw)) h.


(** ** A sample configuration and sample states

    The tables of [const.py] are not at hand; this configuration gives the
    sensor ids the controller singles out (1, 7, 8) plausible rows. *)

Module Example.

Definition K (frame : Q) : Const :=
  {| SENSORS :=
       {[ 4 := "C"; 5 := "%"; 6 := "ug/m3";
          7 := CONCENTRATION_MILLIGRAMS_PER_CUBIC_METER;
          8 := CONCENTRATION_MILLIGRAMS_PER_CUBIC_METER;
          9 := CONCENTRATION_PARTS_PER_MILLION ]};
     BINARY_SENSORS := {[ 1 := "safety" ]};
     MWEIGTH_TVOC := PFloat (561060 # 10000);
     MWEIGTH_HCHO := PFloat (300260 # 10000);
     SENSORS_FILTER_FRAME := frame;
     UPDATE_MIN_INTERVAL := 10 |}.

Definition offline : nat -> Reply := fun _ => ConnectionError.

(** An account holding history [h] and raw snapshot [raw] for the device
    "dev", at wall-clock time [t], with session uid [u]. *)
Definition world (frame : Q) (u : Z) (h : History) (raw : SampleSet) (t : Q)
    (cloud_ : nat -> Reply) : World :=
  {| self :=
       set_uid u
         (set_sensors_raw {[ "dev" := raw ]}
            (set_sensors {[ "dev" := h ]}
               (init (K frame) "user@example.org" "secret" false false)));
     cloud := cloud_; requests := []; wall_clock := t; ingests := [] |}.


(** The pruning example: now = 40, retention window 25, cutoff 15. *)
Definition A : SampleSet := {[ 4 := PInt 20 ]}.
Definition B : SampleSet := {[ 4 := PInt 21 ]}.
Definition C : SampleSet := {[ 4 := PInt 22 ]}.
Definition h_prune : History := [(10, A); (20, B); (30, C)].
Definition w_prune : World := world 25 7 h_prune C 40 offline.

(** Sensor id 1 next to an averaged sensor. *)
Definition h_alert : History :=
  [(10, {[ 1 := PInt 0; 4 := PInt 20 ]}); (20, {[ 1 := PInt 1; 4 := PInt 23 ]})].
Definition raw_alert : SampleSet := {[ 1 := PInt 1; 4 := PInt 23 ]}.
Definition w_alert : World := world 25 7 h_alert raw_alert 40 offline.

(** An older sample set reports a sensor id that the latest one lacks. *)
Definition h_lost : History :=
  [(10, {[ 1 := PInt 0; 8 := PFloat (1 # 2) ]}); (20, {[ 1 := PInt 0 ]})].
Definition w_lost : World := world 25 7 h_lost {[ 1 := PInt 0 ]} 40 offline.

(** A connected account that has device "A" cached, and a cloud whose
    device list names device "B" only. *)
Definition dev_a : Device :=
  {| deviceid := "A"; deviceToken := "token-a"; pt_name := "Hall";
     stamp := Some 1000 |}.
Definition dev_b : Device :=
  {| deviceid := "B"; deviceToken := "token-b"; pt_name := "Kitchen";
     stamp := None |}.

Definition api_body (l : list Device) : Body :=
  {| j_code := Some 2000; j_returnCode := None; j_uid := Some 7;
     j_safeToken := Some "s3ss10n"; j_deviceInfoBodyList := Some l;
     j_deviceValueVos := None |}.

Definition lists_b : nat -> Reply := fun _ => Http 200 (Some (api_body [dev_b])).

Definition w_cached : World :=
  with_self (set_devices {[ "A" := dev_a ]}) (world 25 7 [] ∅ 40 lists_b).

(** A cloud whose device surface rejects every request. *)
Definition device_body (rc : Z) (vos : list SensorVo) : Body :=
  {| j_code := None; j_returnCode := Some rc; j_uid := None;
     j_safeToken := None; j_deviceInfoBodyList := None;
     j_deviceValueVos := Some vos |}.

Definition rejecting : nat -> Reply := fun _ => Http 200 (Some (device_body 5 [])).
Definition w_rejected : World := world 25 7 [] ∅ 40 rejecting.

(** A disconnected account facing a cloud that is down. *)
Definition w_down : World := world 25 (-1000) [] ∅ 40 offline.

(** An account that asked for TVOC and HCHO in ppb. *)
Definition ppb_account : JqAccount :=
  init (K 300) "user@example.org" "secret" true true.

(** A cloud that lets the account in, lists device "A" and answers the
    sensor query with three readings. *)
Definition readings : list SensorVo :=
  [ {| seq := 1; content := Number 0 |};
    {| seq := 4; content := Number (217 # 10) |};
    {| seq := 8; content := Number (123 # 1000) |} ].

Definition serving : nat -> Reply :=
  fun n =>
    match n with
    | O | S O => Http 200 (Some (api_body [dev_a]))
    | _ => Http 200 (Some (device_body 0 readings))
    end.

Definition w_fetched : World :=
  call (K 300) (FetchSensors "A" 40 false)
    (start (K 300) "user@example.org" "secret" false false serving 40).

(** The same account polled through the public operations. *)
Definition w_polled : World :=
  call (K 300) UpdateSensors
    (call (K 300) (SetActiveDevices ["A"])
       (start (K 300) "user@example.org" "secret" false false serving 40)).

(** A cloud whose second answer to the sensor query lacks sensor id 8,
    polled at 10 and again at 30. *)
Definition fading : nat -> Reply :=
  fun n =>
    match n with
    | O | S O => Http 200 (Some (api_body [dev_a]))
    | S (S O) =>
        Http 200 (Some (device_body 0
          [ {| seq := 1; content := Number 0 |};
            {| seq := 8; content := Number (1 # 2) |} ]))
    | _ => Http 200 (Some (device_body 0 [ {| seq := 1; content := Number 0 |} ]))
    end.

Definition w_faded : World :=
  call (K 300) UpdateSensors
    (elapse fading 30
       (call (K 300) UpdateSensors
          (call (K 300) (SetActiveDevices ["A"])
             (start (K 300) "user@example.org" "secret" false false fading 10)))).

End Example.

(** ** What [_query] hands to [session.get] and to [json.loads]

    The parameter dictionary of a request, with its values as Python has
    them ([int] or [str]), and the text that is parsed as JSON. *)

Inductive PVal : Type := VInt (z : Z) | VStr (s : string).

(** [self.params] *)
Definition session_params (uid_ : Z) (token : string) : gmap string PVal :=
  {[ "uid" := VInt uid_; "safeToken" := VStr token ]}.

(** The [extra_params] dictionaries of the three call sites
    ([connect], [update_devices], [_fetch_sensors]). *)
Definition extra_dict (e : Extra) : gmap string PVal :=
  match e with
  | LoginByEmail email pass =>
      {[ "chr" := VStr "clt"; "email" := VStr email; "password" := VStr pass;
         "os" := VInt 2 ]}
  | DeviceManager =>
      {[ "platform" := VStr "android"; "clientType" := VInt 2;
         "action" := VStr "deviceManager" ]}
  | SensorList device_token timestamp =>
      {[ "deviceToken" := VStr device_token; "timestamp" := VInt timestamp;
         "callback" := VStr "jsoncallback"; "_" := VInt timestamp ]}
  end.

(** [params = self.params.copy()], the token renamed on the device
    surface, then [params.update(extra_params)] when there are any. *)
Definition query_params (query_type : QueryType) (uid_ : Z) (token : string)
    (extra : gmap string PVal) : gmap string PVal :=
  let params := session_params uid_ token in
  let params :=
    match query_type with
    | QUERY_TYPE_DEVICE => delete "safeToken" (<["saveToken" := VStr token]> params)
    | QUERY_TYPE_API => params
    end in
  if bool_decide (extra = ∅) then params else extra ∪ params.

(** The parameters that a logged request carried. *)
Definition params_sent (r : Request) : gmap string PVal :=
  query_params (query_type r) (sent_uid r) (sent_token r) (extra_dict (extra_params r)).

(** [response.content[13:-1]] when the body starts with [jsoncallback(],
    the body itself otherwise: the text handed to [json.loads]. *)
Definition jsonp_payload (content : string) : string :=
  if String.prefix "jsoncallback(" content
  then String.substring 13 (String.length content - 13 - 1)%nat content
  else content.

(** ** The requests of the three callers *)

Definition login_request (a : JqAccount) : Request :=
  {| query_type := QUERY_TYPE_API; function := "loginByEmail";
     sent_uid := -1000; sent_token := "anonymous";
     extra_params := LoginByEmail (username a) (password a) |}.

Definition devices_request (a : JqAccount) : Request :=
  {| query_type := QUERY_TYPE_API; function := "deviceManager";
     sent_uid := uid a; sent_token := safeToken a;
     extra_params := DeviceManager |}.

Definition sensors_request (a : JqAccount) (dev : Device) (ts_now : Z) : Request :=
  {| query_type := QUERY_TYPE_DEVICE; function := "list";
     sent_uid := uid a; sent_token := safeToken a;
     extra_params := SensorList (deviceToken dev) ts_now |}.

(** The state once the sensor query for [dev] is out, and the state once
    the sample set [res] is stored over the history [h]. *)
Definition polled (dev : Device) (ts_now : Z) (w : World) : World :=
  after_query QUERY_TYPE_DEVICE "list" (SensorList (deviceToken dev) ts_now) w.

Definition stored (device_id : string) (ts_now : Z) (res : SampleSet) (h : History)
    (w : World) : World :=
  ingested device_id ts_now res
    (with_self
       (fun a =>
          set_sensors_raw (<[device_id := res]> (sensors_raw a))
            (set_sensors (<[device_id := dict_set ts_now res h]> (sensors a)) a))
       w).

(** [d[k]] on a dictionary kept in insertion order. *)
Fixpoint dict_get {V} (k : Z) (d : list (Z * V)) : option V :=
  match d with
  | [] => None
  | (k', v) :: d' => if k' =? k then Some v else dict_get k d'
  end.

(** How many requests of a list name the API function [f]. *)
Definition count_asks (f : string) (l : list Request) : nat :=
  length (List.filter (fun r => String.eqb (function r) f) l).

(** A list of requests with at most so many login, device-list and sensor
    queries, and nothing else. *)
Definition within (logins device_lists sensor_lists : nat) (l : list Request) : Prop :=
  (length l <= logins + device_lists + sensor_lists)%nat
  /\ (count_asks "loginByEmail" l <= logins)%nat
  /\ (count_asks "deviceManager" l <= device_lists)%nat
  /\ (count_asks "list" l <= sensor_lists)%nat.

Definition sends_at_most (logins device_lists sensor_lists : nat) {A} (m : M A)
  : Prop :=
  forall w, exists l,
    requests (m w).1 = requests w ++ l /\ within logins device_lists sensor_lists l.

(** From [w] to [w'] nothing changed but the session (uid and token) and
    the log of requests. *)
Definition same_stores (w w' : World) : Prop :=
  username (self w') = username (self w)
  /\ password (self w') = password (self w)
  /\ receive_tvoc_in_ppb (self w') = receive_tvoc_in_ppb (self w)
  /\ receive_hcho_in_ppb (self w') = receive_hcho_in_ppb (self w)
  /\ active_devices (self w') = active_devices (self w)
  /\ devices (self w') = devices (self w)
  /\ sensors (self w') = sensors (self w)
  /\ sensors_raw (self w') = sensors_raw (self w)
  /\ units (self w') = units (self w)
  /\ cloud w' = cloud w
  /\ wall_clock w' = wall_clock w
  /\ ingests w' = ingests w.

(** The device cache is keyed by each entry's own id, every entry is
    stamped, and every cached id has a history. *)
Definition cache_consistent (w : World) : Prop :=
  forall device_id dev, devices (self w) !! device_id = Some dev ->
    deviceid dev = device_id
    /\ is_Some (stamp dev)
    /\ is_Some (sensors (self w) !! device_id).

(** Every active device has a history. *)
Definition active_have_histories (w : World) : Prop :=
  forall device_id, device_id ∈ active_devices (self w) ->
    is_Some (sensors (self w) !! device_id).

(** The operations of a client that gives the list of active devices by
    assignment, and never appends to it. *)
Definition by_assignment (op : Op) : Prop :=
  match op with
  | AppendActiveDevice _ => False
  | _ => True
  end.



(** A [KeyError] of a lookup in one of the controller's own tables:
    [_sensors], [_sensors_raw], [_units], or the sums of [get_sensors]. *)
Definition own_table_error (e : PyExn) : bool :=
  match e with
  | KeyError in_sensors | KeyError in_sensors_raw | KeyError in_units
  | KeyError in_res => true
  | _ => false
  end.

(** From [w] to [w'] no stored sample changed: the units, the
    preferences, the list of active devices, the raw snapshots and the
    log of ingests are the same, and every history is the same or is new
    and empty. *)
Definition samples_untouched (w w' : World) : Prop :=
  units (self w') = units (self w)
  /\ receive_tvoc_in_ppb (self w') = receive_tvoc_in_ppb (self w)
  /\ receive_hcho_in_ppb (self w') = receive_hcho_in_ppb (self w)
  /\ active_devices (self w') = active_devices (self w)
  /\ sensors_raw (self w') = sensors_raw (self w)
  /\ ingests w' = ingests w
  /\ cloud w' = cloud w
  /\ wall_clock w' = wall_clock w
  /\ forall device_id,
       sensors (self w') !! device_id = sensors (self w) !! device_id
       \/ (sensors (self w) !! device_id = None
           /\ sensors (self w') !! device_id = Some []).

(** What a call of [_fetch_sensors] that started in [w] ends with: on
    True, the sample set read from the answer was stored in a state [w2]
    that differs from [w] by no stored sample; otherwise no stored sample
    changed. *)
Definition fetched (K : Const) (device_id : string) (ts_now : Z) (w : World)
    (res : World * Outcome bool) : Prop :=
  match res.2 with
  | Returned true =>
      exists w2 vos r h,
        samples_untouched w w2
        /\ read_values K (self w2) ∅ vos = Returned r
        /\ sensors (self w2) !! device_id = Some h
        /\ res.1 = stored device_id ts_now r h w2
  | _ => samples_untouched w res.1
  end.

(** The readings that the ingest loop does not skip. *)
Definition accepted (K : Const) (sensor : SensorVo) : bool :=
  negb (is_null (content sensor))
  && (bool_decide (seq sensor ∈ dom (SENSORS K))
      || bool_decide (seq sensor ∈ dom (BINARY_SENSORS K))).

(** ** More sample states *)

Module Cases.

(** A live session with device "A" cached, facing a cloud whose device
    surface rejects every request. *)
Definition w_stale : World :=
  with_self (set_devices {[ "A" := Example.dev_a ]})
    (Example.world 25 7 [] ∅ 40 Example.rejecting).


End Cases.

(** * Properties *)

(** ** Numbers *)

Lemma leb_Qle a b : Num.leb a b = true <-> (Num.to_Q a <= Num.to_Q b)%Q.
Proof.
  destruct a as [x|p], b as [y|q]; simpl;
    rewrite ?Qle_bool_iff; try reflexivity.
  rewrite Z.leb_le, Zle_Qle. reflexivity.
Qed.

Lemma ltb_Qlt a b : Num.ltb a b = true <-> (Num.to_Q a < Num.to_Q b)%Q.
Proof.
  unfold Num.ltb. rewrite negb_true_iff, <- not_true_iff_false, leb_Qle.
  split; [apply Qnot_le_lt | apply Qlt_not_le].
Qed.

Lemma to_Q_ts_overdue frame ts_now :
  (Num.to_Q (ts_overdue_at frame ts_now) == inject_Z ts_now - frame)%Q.
Proof. unfold ts_overdue_at. simpl. apply Qred_correct. Qed.

(** ** Lists of timestamps *)

Lemma foldl_max_ge (l : list Z) x : x ≤ foldl Z.max x l.
Proof. revert x. induction l as [|y l IH]; intros x; simpl; [lia|]. specialize (IH (Z.max x y)). lia. Qed.

Lemma foldl_max_in (l : list Z) x : foldl Z.max x l ∈ x :: l.
Proof.
  revert x. induction l as [|y l IH]; intros x; simpl; [left|].
  specialize (IH (Z.max x y)).
  apply elem_of_cons in IH as [IH|IH]; [|do 2 right; exact IH].
  rewrite IH. destruct (Z.max_spec x y) as [[_ E]|[_ E]]; rewrite E;
    [right; left | left].
Qed.

Lemma foldl_max_upper (l : list Z) x y : y ∈ x :: l -> y ≤ foldl Z.max x l.
Proof.
  revert x. induction l as [|z l IH]; intros x Hy; simpl.
  - apply list_elem_of_singleton in Hy. lia.
  - pose proof (foldl_max_ge l (Z.max x z)).
    apply elem_of_cons in Hy as [->|Hy]; [lia|].
    apply elem_of_cons in Hy as [->|Hy]; [lia|].
    apply IH. right. exact Hy.
Qed.

Lemma max_list_Some l m :
  max_list l = Some m <-> m ∈ l /\ (forall y, y ∈ l -> y ≤ m).
Proof.
  destruct l as [|x l]; simpl.
  - split; [discriminate | intros [H _]; inversion H].
  - split.
    + intros [= <-]. split; [apply foldl_max_in | apply foldl_max_upper].
    + intros [Hin Hub]. f_equal.
      pose proof (foldl_max_in l x) as H1. apply Hub in H1.
      pose proof (foldl_max_upper l x m Hin). lia.
Qed.

Lemma max_list_None l : max_list l = None <-> l = [].
Proof. destruct l; simpl; split; congruence. Qed.

Lemma foldl_min_le (l : list Z) x : foldl Z.min x l ≤ x.
Proof. revert x. induction l as [|y l IH]; intros x; simpl; [lia|]. specialize (IH (Z.min x y)). lia. Qed.


Lemma foldl_min_lower (l : list Z) x y : y ∈ x :: l -> foldl Z.min x l ≤ y.
Proof.
  revert x. induction l as [|z l IH]; intros x Hy; simpl.
  - apply list_elem_of_singleton in Hy. lia.
  - pose proof (foldl_min_le l (Z.min x z)).
    apply elem_of_cons in Hy as [->|Hy]; [lia|].
    apply elem_of_cons in Hy as [->|Hy]; [lia|].
    apply IH. right. exact Hy.
Qed.

(** ** What [get_sensors] does, in one equation *)

Ltac run_method :=
  cbn -[prune ts_min_of weighted_sums window_length average_and_round
        ts_overdue_at ts_of read_values store_devices setdefault_histories
        dict_set Z.ltb needs_fetch].

Lemma get_sensors_eq K device_id w :
  get_sensors K device_id w =
  (pruned K device_id w,
   let ts_now := ts_of (wall_clock w) in
   let ts_overdue := ts_overdue_at (SENSORS_FILTER_FRAME K) ts_now in
   let h := history_of device_id w in
   averaged ts_now ts_overdue (units (self w))
     (sensors_raw (self w) !! device_id)
     (prune (ts_min_of ts_overdue h) h)).
Proof.
  destruct w as [a cl rq t ing].
  unfold get_sensors, pruned, history_of, averaged, bind, now, modify, gets,
    lift, ret, with_self.
  run_method.
  destruct (sensors a !! device_id) as [h|] eqn:Hh; run_method.
  - rewrite Hh. run_method.
    destruct (prune _ h) as [|item kept]; [reflexivity|]. run_method.
    destruct (sensors_raw a !! device_id) as [raw|]; run_method; [|reflexivity].
    destruct (weighted_sums _ _ raw _); run_method; [|reflexivity].
    destruct (window_length _ _ _); run_method; [|reflexivity].
    destruct (average_and_round _ _ _ _); reflexivity.
  - rewrite lookup_insert_eq. cbn. rewrite insert_insert_eq. reflexivity.
Qed.

Lemma history_of_pruned K device_id w :
  sensors (self (pruned K device_id w)) !! device_id =
  Some (let ts_overdue :=
          ts_overdue_at (SENSORS_FILTER_FRAME K) (ts_of (wall_clock w)) in
        let h := history_of device_id w in
        prune (ts_min_of ts_overdue h) h).
Proof. unfold pruned. cbn. apply lookup_insert_eq. Qed.

(** ** Pruning *)

Lemma filter_all {A} (f : A -> bool) (l : list A) :
  (forall x, x ∈ l -> f x = true) -> List.filter f l = l.
Proof.
  induction l as [|a l IH]; intros H; simpl; [reflexivity|].
  rewrite (H a) by left. f_equal. apply IH. intros x Hx. apply H. right. exact Hx.
Qed.

Lemma filter_none {A} (f : A -> bool) (l : list A) :
  (forall x, x ∈ l -> f x = false) -> List.filter f l = [].
Proof.
  induction l as [|a l IH]; intros H; simpl; [reflexivity|].
  rewrite (H a) by left. apply IH. intros x Hx. apply H. right. exact Hx.
Qed.

Lemma elem_of_filter_bool {A} (f : A -> bool) (l : list A) x :
  x ∈ List.filter f l <-> x ∈ l /\ f x = true.
Proof. rewrite !list_elem_of_In. apply filter_In. Qed.

Lemma elem_of_keys {V} (d : list (Z * V)) k :
  k ∈ keys d <-> exists v, (k, v) ∈ d.
Proof.
  unfold keys. rewrite list_elem_of_fmap. split.
  - intros [[k' v] [-> H]]. exists v. exact H.
  - intros [v H]. exists (k, v). split; [reflexivity | exact H].
Qed.

(** The two cases of [ts_min]: the newest overdue timestamp, or the cutoff. *)
Lemma ts_min_of_cases ts_overdue h :
  (exists g, ts_min_of ts_overdue h = PInt g /\ g ∈ keys h
             /\ Num.leb (PInt g) ts_overdue = true
             /\ forall t, t ∈ keys h -> Num.leb (PInt t) ts_overdue = true -> t ≤ g)
  \/ (ts_min_of ts_overdue h = ts_overdue
      /\ forall t, t ∈ keys h -> Num.leb (PInt t) ts_overdue = false).
Proof.
  unfold ts_min_of.
  destruct (max_list _) as [g|] eqn:E.
  - left. exists g. apply max_list_Some in E as [Hin Hub].
    apply elem_of_filter_bool in Hin as [Hin Hle].
    repeat split; try assumption.
    intros t Ht Hlt. apply Hub. apply elem_of_filter_bool. split; assumption.
  - right. split; [reflexivity|]. apply max_list_None in E.
    intros t Ht. destruct (Num.leb (PInt t) ts_overdue) eqn:Hle; [|reflexivity].
    assert (t ∈ List.filter (fun x => Num.leb (PInt x) ts_overdue) (keys h)) as Hin
      by (apply elem_of_filter_bool; split; assumption).
    rewrite E in Hin. inversion Hin.
Qed.

Lemma ts_min_of_greatest ts_overdue h g :
  g ∈ keys h -> Num.leb (PInt g) ts_overdue = true ->
  (forall t, t ∈ keys h -> Num.leb (PInt t) ts_overdue = true -> t ≤ g) ->
  ts_min_of ts_overdue h = PInt g.
Proof.
  intros Hin Hle Hub.
  destruct (ts_min_of_cases ts_overdue h) as [(g' & -> & Hin' & Hle' & Hub')|[_ Hnone]].
  - f_equal. apply Z.le_antisymm; [apply Hub | apply Hub']; assumption.
  - rewrite (Hnone g Hin) in Hle. discriminate.
Qed.

Lemma ts_min_of_none ts_overdue h :
  (forall t, t ∈ keys h -> Num.leb (PInt t) ts_overdue = false) ->
  ts_min_of ts_overdue h = ts_overdue.
Proof.
  intros Hnone.
  destruct (ts_min_of_cases ts_overdue h) as [(g & _ & Hin & Hle & _)|[-> _]];
    [|reflexivity].
  rewrite (Hnone g Hin) in Hle. discriminate.
Qed.

Lemma leb_false_Qlt a b : Num.leb a b = false <-> (Num.to_Q b < Num.to_Q a)%Q.
Proof.
  rewrite <- not_true_iff_false, leb_Qle.
  split; [apply Qnot_le_lt | apply Qlt_not_le].
Qed.

(** Pruning what is already pruned changes nothing. *)
Lemma prune_idempotent ts_overdue h :
  let kept := prune (ts_min_of ts_overdue h) h in
  prune (ts_min_of ts_overdue kept) kept = kept.
Proof.
  intros kept. apply filter_all. intros [k v] Hk. cbn [fst].
  pose proof (proj1 (elem_of_filter_bool _ h (k, v)) Hk) as [Hkh Hge].
  cbn [fst] in Hge.
  destruct (ts_min_of_cases ts_overdue kept)
    as [(g' & -> & Hin' & Hle' & _)|[-> Hnone']].
  - apply elem_of_keys in Hin' as [v' Hin'].
    apply (proj1 (elem_of_filter_bool _ h (g', v'))) in Hin' as [Hin' _].
    destruct (ts_min_of_cases ts_overdue h)
      as [(g & Hg & _ & _ & Hub)|[_ Hnone]].
    + rewrite Hg in Hge. cbn in Hge |- *. apply Z.leb_le in Hge. apply Z.leb_le.
      assert (g' ≤ g); [|lia].
      apply Hub; [|exact Hle']. apply elem_of_keys. exists v'. exact Hin'.
    + rewrite Hnone in Hle'; [discriminate|]. apply elem_of_keys. exists v'. exact Hin'.
  - assert (Hlt : Num.leb (PInt k) ts_overdue = false)
      by (apply Hnone'; apply elem_of_keys; exists v; exact Hk).
    apply leb_false_Qlt in Hlt. apply leb_Qle. apply Qlt_le_weak. exact Hlt.
Qed.

(** C2. [get_sensors] leaves, as the device's history, exactly the entries
    whose timestamp is at least the greatest timestamp at or before the
    cutoff (that carry-in entry included); when no timestamp is at or
    before the cutoff, the cutoff is the bound and every entry is kept. *)
Theorem get_sensors_prunes_to_carry_in K device_id w :
  let h := history_of device_id w in
  let c := cutoff K w in
  let after := sensors (self (get_sensors K device_id w).1) !! device_id in
  (forall g, g ∈ keys h -> (inject_Z g <= c)%Q ->
     (forall t, t ∈ keys h -> (inject_Z t <= c)%Q -> t ≤ g) ->
     after = Some (List.filter (fun item => g <=? item.1) h))
  /\ ((forall t, t ∈ keys h -> (c < inject_Z t)%Q) -> after = Some h).
Proof.
  intros h c after. subst after. rewrite get_sensors_eq. cbn [fst].
  rewrite history_of_pruned. cbv zeta. fold h.
  set (ts_overdue := ts_overdue_at _ _).
  assert (Hc : (Num.to_Q ts_overdue == c)%Q) by apply to_Q_ts_overdue.
  split.
  - intros g Hin Hle Hub. f_equal.
    rewrite (ts_min_of_greatest ts_overdue h g); [reflexivity|exact Hin| |].
    + apply leb_Qle. rewrite Hc. exact Hle.
    + intros t Ht Hlt. apply Hub; [exact Ht|].
      apply leb_Qle in Hlt. rewrite Hc in Hlt. exact Hlt.
  - intros Hall. f_equal.
    assert (Hnone : forall t, t ∈ keys h -> Num.leb (PInt t) ts_overdue = false).
    { intros t Ht. apply leb_false_Qlt. rewrite Hc. apply Hall. exact Ht. }
    rewrite ts_min_of_none by exact Hnone.
    apply filter_all. intros [k v] Hk. cbn [fst].
    apply leb_Qle. apply Qlt_le_weak. apply leb_false_Qlt. apply Hnone.
    apply elem_of_keys. exists v. exact Hk.
Qed.

(** C9. Two calls of [get_sensors] in a row, the clock unchanged and no
    ingest in between, give the same answer; the second call also leaves
    the state as the first one left it. *)
Theorem get_sensors_twice K device_id w :
  let first := get_sensors K device_id w in
  let second := get_sensors K device_id first.1 in
  second.2 = first.2 /\ second.1 = first.1.
Proof.
  cbv zeta. rewrite !get_sensors_eq. cbn [fst snd].
  assert (Hh : history_of device_id (pruned K device_id w) =
               let ts_overdue :=
                 ts_overdue_at (SENSORS_FILTER_FRAME K) (ts_of (wall_clock w)) in
               let h := history_of device_id w in
               prune (ts_min_of ts_overdue h) h).
  { unfold history_of at 1. rewrite history_of_pruned. reflexivity. }
  cbv zeta in Hh.
  split.
  - rewrite Hh. cbn [pruned with_self wall_clock self units sensors_raw set_sensors].
    rewrite prune_idempotent. reflexivity.
  - unfold pruned at 1. rewrite Hh.
    cbn [pruned with_self wall_clock self units sensors_raw set_sensors sensors].
    rewrite prune_idempotent. unfold with_self. cbn. rewrite insert_insert_eq.
    reflexivity.
Qed.

(** ** The averaging loops *)

(** [res[sensor_id] += val * val_t] for every item of [last_data]: it goes
    through exactly when [res] has every key of [last_data]. *)
Lemma add_weighted_spec res last_data val_t :
  match add_weighted res last_data val_t with
  | Returned res' =>
      dom last_data ⊆ dom res
      /\ forall s, res' !! s = (fun acc => held_value s last_data val_t acc) <$> res !! s
  | Raised e => e = KeyError in_res /\ ~ dom last_data ⊆ dom res
  end.
Proof.
  unfold add_weighted.
  apply (map_fold_weak_ind
    (fun (r : Outcome SampleSet) (m : SampleSet) =>
       match r with
       | Returned res' =>
           dom m ⊆ dom res
           /\ forall s, res' !! s = (fun acc => held_value s m val_t acc) <$> res !! s
       | Raised e => e = KeyError in_res /\ ~ dom m ⊆ dom res
       end)).
  - split; [rewrite dom_empty; apply empty_subseteq|].
    intros s. unfold held_value. rewrite lookup_empty.
    destruct (res !! s); reflexivity.
  - intros i x m r Hi IH. destruct r as [res'|e]; cbn [obind].
    + destruct IH as [Hdom Hlook].
      assert (Hi' : res' !! i = res !! i).
      { rewrite Hlook. unfold held_value. rewrite Hi. destruct (res !! i); reflexivity. }
      rewrite Hi'. destruct (res !! i) as [cur|] eqn:Hcur; cbn [lookup_or obind].
      * split.
        { rewrite dom_insert. apply elem_of_dom_2 in Hcur.
          apply union_subseteq. split; [apply singleton_subseteq_l, Hcur|exact Hdom]. }
        intros s. unfold held_value. destruct (decide (s = i)) as [->|Hne].
        -- rewrite !lookup_insert_eq, Hcur. reflexivity.
        -- rewrite !lookup_insert_ne by congruence. rewrite Hlook. reflexivity.
      * split; [reflexivity|]. intros Hsub.
        apply not_elem_of_dom in Hcur. apply Hcur, Hsub.
        rewrite dom_insert. apply elem_of_union_l, elem_of_singleton. reflexivity.
    + destruct IH as [-> Hn]. split; [reflexivity|]. intros Hsub. apply Hn.
      intros y Hy. apply Hsub. rewrite dom_insert. apply elem_of_union_r, Hy.
Qed.

Lemma add_weighted_returns res last_data val_t :
  dom last_data ⊆ dom res ->
  exists res', add_weighted res last_data val_t = Returned res'
    /\ dom res' = dom res
    /\ forall s, res' !! s = (fun acc => held_value s last_data val_t acc) <$> res !! s.
Proof.
  intros Hsub. pose proof (add_weighted_spec res last_data val_t) as H.
  destruct (add_weighted res last_data val_t) as [res'|e].
  - destruct H as [_ H]. exists res'. repeat split; [|exact H].
    apply set_eq. intros s. rewrite !elem_of_dom, H.
    destruct (res !! s); cbn; split; intros [? ?]; eauto; discriminate.
  - destruct H as [_ H]. contradiction.
Qed.

Lemma add_weighted_dom res last_data val_t res' :
  add_weighted res last_data val_t = Returned res' -> dom res' = dom res.
Proof.
  intros E. pose proof (add_weighted_spec res last_data val_t) as H.
  rewrite E in H. destruct H as [_ H].
  apply set_eq. intros s. rewrite !elem_of_dom, H.
  destruct (res !! s); cbn; split; intros [? ?]; eauto; discriminate.
Qed.

Lemma sum_step_dom ts_overdue st item st' :
  sum_step ts_overdue st item = Returned st' ->
  dom (acc_res st') = dom (acc_res st) /\ last_data st' = item.2.
Proof.
  unfold sum_step. destruct (Num.ltb _ _).
  - destruct (add_weighted _ _ _) as [res|e] eqn:E; cbn [obind]; [|discriminate].
    intros [= <-]. cbn. split; [|reflexivity]. eapply add_weighted_dom, E.
  - cbn [obind]. intros [= <-]. cbn. split; reflexivity.
Qed.

Lemma sum_values_dom ts_overdue h st st' :
  sum_values ts_overdue st h = Returned st' ->
  dom (acc_res st') = dom (acc_res st).
Proof.
  revert st. induction h as [|item h IH]; intros st; cbn [sum_values].
  - intros [= <-]. reflexivity.
  - destruct (sum_step ts_overdue st item) as [st1|e] eqn:E; cbn [obind]; [|discriminate].
    intros H. apply IH in H. apply sum_step_dom in E as [E _]. congruence.
Qed.

Lemma weighted_sums_dom ts_now ts_overdue raw h res :
  weighted_sums ts_now ts_overdue raw h = Returned res -> dom res = dom raw.
Proof.
  unfold weighted_sums.
  destruct (sum_values _ _ _) as [st|e] eqn:E; cbn [obind]; [|discriminate].
  intros H. apply add_weighted_dom in H. apply sum_values_dom in E.
  cbn in E. rewrite H, E. apply dom_fmap_L.
Qed.

(** The loop "Sum values" goes through when the sample sets stay within
    the ids of [res], and then every sensor's accumulator has followed the
    walk of the specification. *)
Lemma sum_values_zoh ts_overdue (D : gset Z) h : forall st,
  dom (acc_res st) = D -> dom (last_data st) ⊆ D ->
  (forall item, item ∈ h -> dom item.2 ⊆ D) ->
  exists st', sum_values ts_overdue st h = Returned st'
    /\ dom (acc_res st') = D /\ dom (last_data st') ⊆ D
    /\ forall s acc, acc_res st !! s = Some acc ->
         exists acc', acc_res st' !! s = Some acc'
           /\ zoh_walk s ts_overdue (last_ts st) (last_data st) acc h
              = (acc', last_ts st', last_data st').
Proof.
  induction h as [|[m_ts data] h IH]; intros st Hres Hld Hh; cbn [sum_values zoh_walk].
  - exists st. repeat split; try assumption. intros s acc Hs. exists acc. split; [exact Hs|reflexivity].
  - unfold sum_step. cbn [fst snd].
    set (val_t := Num.sub (PInt m_ts) (last_ts st)).
    assert (Hstep : exists res1,
      (if Num.ltb (PInt 0) val_t
       then add_weighted (acc_res st) (last_data st) val_t
       else Returned (acc_res st)) = Returned res1
      /\ dom res1 = D
      /\ forall s acc, acc_res st !! s = Some acc ->
           res1 !! s = Some (if Num.ltb (PInt 0) val_t
                             then held_value s (last_data st) val_t acc else acc)).
    { destruct (Num.ltb (PInt 0) val_t).
      - destruct (add_weighted_returns (acc_res st) (last_data st) val_t)
          as (res1 & E & Hd & Hl); [rewrite Hres; exact Hld|].
        exists res1. repeat split; [exact E|congruence|].
        intros s acc Hs. rewrite Hl, Hs. reflexivity.
      - exists (acc_res st). repeat split; [exact Hres|]. intros s acc Hs. exact Hs. }
    destruct Hstep as (res1 & -> & Hd1 & Hl1). cbn [obind].
    destruct (IH {| acc_res := res1;
                    last_ts := Num.max2 (PInt m_ts) ts_overdue;
                    last_data := data |})
      as (st' & E & Hd' & Hld' & Hwalk); cbn [acc_res last_data last_ts].
    + exact Hd1.
    + apply (Hh (m_ts, data)). left.
    + intros item Hitem. apply Hh. right. exact Hitem.
    + exists st'. repeat split; try assumption.
      intros s acc Hs. apply Hl1 in Hs. apply Hwalk in Hs. exact Hs.
Qed.

Lemma insert_by_ts_head item l :
  Forall (fun x => item.1 < x.1) l -> insert_by_ts item l = item :: l.
Proof.
  destruct l as [|x l]; [reflexivity|]. intros H. cbn [insert_by_ts].
  apply Forall_cons in H as [H _]. apply Z.lt_le_incl, Z.leb_le in H. rewrite H. reflexivity.
Qed.

Lemma ascending_sorted h : ascending_order h -> ascending h = h.
Proof.
  unfold ascending_order, keys. induction h as [|item h IH]; intros Hs; [reflexivity|].
  cbn [fmap list_fmap] in Hs. apply StronglySorted_inv in Hs as [Hs Hall].
  cbn [ascending foldr]. fold (ascending h). rewrite IH by exact Hs.
  apply insert_by_ts_head. apply Forall_forall. intros x Hx.
  rewrite Forall_forall in Hall. apply Hall. apply list_elem_of_fmap. exists x. split; [reflexivity|exact Hx].
Qed.


(** [weighted_sums] goes through when the sample sets stay within the ids
    of the raw snapshot; each sum is the walk over the history as stored. *)
Lemma weighted_sums_walk ts_now ts_overdue raw h :
  ids_within raw h ->
  exists res, weighted_sums ts_now ts_overdue raw h = Returned res
    /\ dom res = dom raw
    /\ forall s, s ∈ dom raw ->
         res !! s = Some (zoh_sum_over s ts_now ts_overdue raw h).
Proof.
  intros Hids. unfold weighted_sums.
  set (zero := (fun _ => PInt 0) <$> raw).
  assert (Hz : dom zero = dom raw) by apply dom_fmap_L.
  destruct (sum_values_zoh ts_overdue (dom raw) h
              {| acc_res := zero; last_ts := ts_overdue; last_data := zero |})
    as (st & -> & Hd & Hld & Hwalk); cbn [acc_res last_data last_ts].
  - exact Hz.
  - rewrite Hz. reflexivity.
  - exact Hids.
  - cbn [obind].
    destruct (add_weighted_returns (acc_res st) (last_data st)
                (Num.add (Num.sub (PInt ts_now) (last_ts st)) (PInt 1)))
      as (res & -> & Hdr & Hl); [rewrite Hd; exact Hld|].
    exists res. repeat split; [congruence|].
    intros s Hs. rewrite Hl. unfold zoh_sum_over.
    fold zero. destruct (Hwalk s (PInt 0)) as (acc' & Hacc & Hw).
    + cbn [acc_res]. unfold zero. rewrite lookup_fmap.
      apply elem_of_dom in Hs as [v ->]. reflexivity.
    + cbn [acc_res last_data last_ts] in Hw. rewrite Hw, Hacc. reflexivity.
Qed.

(** [weighted_sums] and [window_length] against the specification. *)
Lemma weighted_sums_zoh ts_now ts_overdue raw h :
  ids_within raw h -> ascending_order h ->
  exists res, weighted_sums ts_now ts_overdue raw h = Returned res
    /\ dom res = dom raw
    /\ forall s, s ∈ dom raw -> res !! s = Some (zoh_sum s ts_now ts_overdue raw h).
Proof.
  intros Hids Hsorted. unfold zoh_sum. rewrite ascending_sorted by exact Hsorted.
  apply weighted_sums_walk, Hids.
Qed.



(** "Average and round" replaces every value of [res] by its finished
    value, and raises when some value cannot be finished. *)
Lemma average_and_round_spec units_ raw length res :
  match average_and_round units_ raw length res with
  | Returned out =>
      (forall s, out !! s =
                 res !! s ≫= fun total => returned (finish units_ raw length s total))
      /\ (forall s total, res !! s = Some total ->
            exists v, finish units_ raw length s total = Returned v)
  | Raised e =>
      exists s total, res !! s = Some total
                      /\ finish units_ raw length s total = Raised e
  end.
Proof.
  unfold average_and_round.
  assert (forall init m : SampleSet,
    match map_fold
            (fun sensor_id total acc =>
               try out <- acc;
               try v <- finish units_ raw length sensor_id total;
               Returned (<[sensor_id := v]> out))
            (Returned init) m with
    | Returned out =>
        (forall s, out !! s =
           match m !! s with
           | Some total => returned (finish units_ raw length s total)
           | None => init !! s
           end)
        /\ (forall s total, m !! s = Some total ->
              exists v, finish units_ raw length s total = Returned v)
    | Raised e =>
        exists s total, m !! s = Some total
                        /\ finish units_ raw length s total = Raised e
    end) as H.
  { intros init. apply (map_fold_weak_ind
      (fun (r : Outcome SampleSet) (m : SampleSet) =>
         match r with
         | Returned out =>
             (forall s, out !! s =
                match m !! s with
                | Some total => returned (finish units_ raw length s total)
                | None => init !! s
                end)
             /\ (forall s total, m !! s = Some total ->
                   exists v, finish units_ raw length s total = Returned v)
         | Raised e =>
             exists s total, m !! s = Some total
                             /\ finish units_ raw length s total = Raised e
         end)).
    - split; [intros s; rewrite lookup_empty; reflexivity|].
      intros s total Hs. rewrite lookup_empty in Hs. discriminate.
    - intros i x m r Hi IH. destruct r as [out|e]; cbn [obind].
      + destruct IH as [Hlook Hall].
        destruct (finish units_ raw length i x) as [v|e] eqn:Hf; cbn [obind].
        * split.
          -- intros s. destruct (decide (s = i)) as [->|Hne].
             ++ rewrite !lookup_insert_eq, Hf. reflexivity.
             ++ rewrite !lookup_insert_ne by congruence. apply Hlook.
          -- intros s total Hs. destruct (decide (s = i)) as [->|Hne].
             ++ rewrite lookup_insert_eq in Hs. injection Hs as <-. eauto.
             ++ rewrite lookup_insert_ne in Hs by congruence. eapply Hall, Hs.
        * exists i, x. split; [apply lookup_insert_eq|exact Hf].
      + destruct IH as (s & total & Hs & Hf). exists s, total. split; [|exact Hf].
        rewrite lookup_insert_ne; [exact Hs|]. intros ->. congruence. }
  specialize (H res res). destruct (map_fold _ _ res) as [out|e]; [|exact H].
  destruct H as [H Hall]. split; [|exact Hall].
  intros s. rewrite H. destruct (res !! s); reflexivity.
Qed.

Lemma window_length_positive ts_now ts_overdue h length :
  window_length ts_now ts_overdue h = Returned length ->
  (0 < Num.to_Q length)%Q.
Proof.
  unfold window_length. destruct (min_list (keys h)); cbn [lookup_or obind]; [|discriminate].
  intros [= <-]. unfold Num.max2.
  destruct (Num.ltb (PInt 1) _) eqn:E; [|reflexivity].
  apply ltb_Qlt in E. eapply Qlt_trans; [|exact E]. reflexivity.
Qed.

Lemma truediv_positive total length :
  (0 < Num.to_Q length)%Q -> exists average, Num.truediv total length = Some average.
Proof.
  intros H. unfold Num.truediv.
  destruct (Qeq_bool (Num.to_Q length) 0) eqn:E; [|eauto].
  apply Qeq_bool_eq in E. rewrite E in H. discriminate.
Qed.

Lemma window_length_returns ts_now ts_overdue h :
  h <> [] -> exists length, window_length ts_now ts_overdue h = Returned length.
Proof.
  intros Hne. unfold window_length. destruct h as [|item h]; [congruence|].
  cbn. eauto.
Qed.

(** A history that is not empty is not emptied by pruning. *)
Lemma prune_nonempty ts_overdue h :
  h <> [] -> prune (ts_min_of ts_overdue h) h <> [].
Proof.
  intros Hne Hnil.
  assert (Hnone : forall item, item ∈ h ->
            Num.leb (ts_min_of ts_overdue h) (PInt item.1) = false).
  { intros item Hin. destruct (Num.leb _ _) eqn:E; [|reflexivity].
    assert (item ∈ prune (ts_min_of ts_overdue h) h) as Hk
      by (apply elem_of_filter_bool; split; assumption).
    rewrite Hnil in Hk. inversion Hk. }
  destruct (ts_min_of_cases ts_overdue h) as [(g & Hg & Hin & _)|[Hg Hall]].
  - apply elem_of_keys in Hin as [v Hin]. apply Hnone in Hin.
    rewrite Hg in Hin. cbn in Hin. apply Z.leb_gt in Hin. lia.
  - destruct h as [|[k v] h]; [congruence|].
    specialize (Hnone (k, v) ltac:(left)). specialize (Hall k ltac:(left)).
    rewrite Hg in Hnone. cbn [fst] in Hnone.
    apply leb_false_Qlt in Hnone, Hall.
    apply (Qlt_irrefl (Num.to_Q ts_overdue)). eapply Qlt_trans; eassumption.
Qed.

Lemma finish_returns units_ raw length s total :
  s ∈ dom raw -> dom raw ⊆ dom units_ -> (0 < Num.to_Q length)%Q ->
  exists v, finish units_ raw length s total = Returned v.
Proof.
  intros Hs Hunits Hlen. unfold finish. destruct (s =? 1) eqn:E.
  - apply Z.eqb_eq in E as ->. apply elem_of_dom in Hs as [v ->]. cbn. eauto.
  - apply Hunits, elem_of_dom in Hs as [u ->]. cbn [lookup_or obind].
    destruct (truediv_positive total length Hlen) as [average ->]. cbn. eauto.
Qed.

Lemma finish_average units_ raw length s total v :
  s <> 1 -> finish units_ raw length s total = Returned v ->
  exists u average, units_ !! s = Some u
    /\ Num.truediv total length = Some average
    /\ v = rounded u total average.
Proof.
  intros Hs. unfold finish. apply Z.eqb_neq in Hs. rewrite Hs.
  destruct (units_ !! s) as [u|]; cbn [lookup_or obind]; [|discriminate].
  destruct (Num.truediv total length) as [average|]; cbn [lookup_or obind];
    [|discriminate].
  intros [= <-]. eauto.
Qed.

(** The averaging pass goes through on a history that is not empty and
    stays within the ids of the raw snapshot. *)
Lemma averaged_returns ts_now ts_overdue units_ raw kept :
  kept <> [] -> ids_within raw kept -> dom raw ⊆ dom units_ ->
  exists res length out,
    weighted_sums ts_now ts_overdue raw kept = Returned res
    /\ window_length ts_now ts_overdue kept = Returned length
    /\ averaged ts_now ts_overdue units_ (Some raw) kept = Returned (Some out)
    /\ dom res = dom raw
    /\ (forall s, s ∈ dom raw ->
          res !! s = Some (zoh_sum_over s ts_now ts_overdue raw kept))
    /\ forall s total, res !! s = Some total ->
         exists v, finish units_ raw length s total = Returned v
                   /\ out !! s = Some v.
Proof.
  intros Hne Hids Hunits.
  destruct (weighted_sums_walk ts_now ts_overdue raw kept Hids) as (res & Hres & Hd & Hsum).
  destruct (window_length_returns ts_now ts_overdue kept Hne) as [length Hlen].
  pose proof (window_length_positive _ _ _ _ Hlen) as Hpos.
  pose proof (average_and_round_spec units_ raw length res) as Hout.
  exists res, length.
  destruct (average_and_round units_ raw length res) as [out|e] eqn:E.
  - exists out. repeat split; try assumption.
    + unfold averaged. destruct kept; [congruence|]. cbn [lookup_or obind].
      rewrite Hres. cbn [obind]. rewrite Hlen. cbn [obind]. rewrite E. reflexivity.
    + intros s total Hs.
      destruct (finish_returns units_ raw length s total) as [v Hv]; try assumption.
      { rewrite <- Hd. apply elem_of_dom. eauto. }
      exists v. split; [exact Hv|]. rewrite (proj1 Hout), Hs. cbn. rewrite Hv. reflexivity.
  - destruct Hout as (s & total & Hs & Hf).
    destruct (finish_returns units_ raw length s total) as [v Hv]; try assumption.
    { rewrite <- Hd. apply elem_of_dom. eauto. }
    congruence.
Qed.

Lemma averaged_nonempty ts_now ts_overdue units_ raw kept :
  kept <> [] ->
  averaged ts_now ts_overdue units_ (Some raw) kept =
  (try res <- weighted_sums ts_now ts_overdue raw kept;
   try length <- window_length ts_now ts_overdue kept;
   try res <- average_and_round units_ raw length res;
   Returned (Some res)).
Proof. intros Hne. destruct kept; [congruence|reflexivity]. Qed.

Lemma history_of_get_sensors K device_id w :
  history_of device_id (get_sensors K device_id w).1 =
  prune (ts_min_of (ts_overdue_at (SENSORS_FILTER_FRAME K) (ts_of (wall_clock w)))
           (history_of device_id w))
        (history_of device_id w).
Proof.
  rewrite get_sensors_eq. cbn [fst]. unfold history_of at 1.
  rewrite history_of_pruned. reflexivity.
Qed.

(** C8. Where the history is not empty and the raw snapshot has sensor
    id 1, an answer of [get_sensors] gives sensor id 1 the raw snapshot's
    value, whatever the history holds; and [get_sensors] does answer when
    the kept sample sets stay within the ids of the raw snapshot. *)
Theorem get_sensors_id_1_is_raw K device_id w raw v :
  history_of device_id w <> [] ->
  sensors_raw (self w) !! device_id = Some raw ->
  raw !! 1 = Some v ->
  let answer := (get_sensors K device_id w).2 in
  let kept := history_of device_id (get_sensors K device_id w).1 in
  (forall r, answer = Returned r -> exists out, r = Some out /\ out !! 1 = Some v)
  /\ (ids_within raw kept -> dom raw ⊆ dom (units (self w)) ->
      exists out, answer = Returned (Some out) /\ out !! 1 = Some v).
Proof.
  intros Hne Hraw Hv answer kept. subst answer kept.
  rewrite history_of_get_sensors. rewrite get_sensors_eq. cbn [snd]. cbv zeta.
  set (ts_now := ts_of (wall_clock w)).
  set (ts_overdue := ts_overdue_at (SENSORS_FILTER_FRAME K) ts_now).
  pose proof (prune_nonempty ts_overdue _ Hne) as Hkept.
  set (kept := prune _ _) in *. rewrite Hraw.
  assert (H1 : forall res length out,
             weighted_sums ts_now ts_overdue raw kept = Returned res ->
             average_and_round (units (self w)) raw length res = Returned out ->
             out !! 1 = Some v).
  { intros res length out Hres Hout.
    pose proof (average_and_round_spec (units (self w)) raw length res) as Hspec.
    rewrite Hout in Hspec. rewrite (proj1 Hspec).
    apply weighted_sums_dom in Hres.
    assert (1 ∈ dom res) as [total ->]%elem_of_dom
      by (rewrite Hres; apply elem_of_dom; eauto).
    cbn. unfold finish. cbn. rewrite Hv. reflexivity. }
  split.
  - intros r. rewrite averaged_nonempty by exact Hkept.
    destruct (weighted_sums ts_now ts_overdue raw _) as [res|] eqn:Hres;
      cbn [obind]; [|discriminate].
    destruct (window_length ts_now ts_overdue _) as [length|]; cbn [obind]; [|discriminate].
    destruct (average_and_round _ raw length res) as [out|] eqn:Hout;
      cbn [obind]; [|discriminate].
    intros [= <-]. exists out. split; [reflexivity|]. eapply H1; [reflexivity|exact Hout].
  - intros Hids Hunits.
    destruct (averaged_returns ts_now ts_overdue (units (self w)) raw kept Hkept Hids Hunits)
      as (res & length & out & Hres & Hlen & Havg & Hd & _ & Hfin).
    exists out. split; [exact Havg|].
    assert (1 ∈ dom res) as [total Ht]%elem_of_dom
      by (rewrite Hd; apply elem_of_dom; eauto).
    destruct (Hfin 1 total Ht) as (v' & Hf & ->). unfold finish in Hf. cbn in Hf.
    rewrite Hv in Hf. cbn in Hf. congruence.
Qed.

(** ** Deciding the side conditions on a concrete state *)

Lemma ids_withinb_true raw h : ids_withinb raw h = true -> ids_within raw h.
Proof.
  unfold ids_withinb, ids_within. rewrite forallb_forall.
  intros H item Hin. apply list_elem_of_In, H in Hin.
  apply bool_decide_eq_true in Hin. exact Hin.
Qed.


Lemma subseteq_dom_true {A B} (m1 : gmap Z A) (m2 : gmap Z B) :
  bool_decide (dom m1 ⊆ dom m2) = true -> dom m1 ⊆ dom m2.
Proof. apply bool_decide_eq_true. Qed.

(** ** The examples *)

Lemma get_sensors_prunes_to_carry_in_witness :
  sensors (self (get_sensors (Example.K 25) "dev" Example.w_prune).1) !! "dev"
  = Some (List.filter (fun item => 10 <=? item.1) Example.h_prune).
Proof.
  apply (proj1 (get_sensors_prunes_to_carry_in (Example.K 25) "dev" Example.w_prune) 10).
  - vm_compute. left.
  - vm_compute. discriminate.
  - intros t Ht Hle. vm_compute in Ht.
    apply elem_of_cons in Ht as [->|Ht]; [lia|].
    apply elem_of_cons in Ht as [->|Ht]; [vm_compute in Hle; congruence|].
    apply list_elem_of_singleton in Ht as ->. vm_compute in Hle. congruence.
Defined.

(** C3, as the code has it.  With history [{10: A, 20: B, 30: C}],
    now = 40 and a retention window of 25 seconds (cutoff 15), pruning
    keeps all three entries: the entry at 10 is the newest one at or before
    the cutoff and stays as the carry-in. *)
Theorem pruning_example_keeps_all_three K device_id w (A B C : SampleSet) :
  SENSORS_FILTER_FRAME K = 25%Q ->
  ts_of (wall_clock w) = 40 ->
  sensors (self w) !! device_id = Some [(10, A); (20, B); (30, C)] ->
  sensors (self (get_sensors K device_id w).1) !! device_id
  = Some [(10, A); (20, B); (30, C)].
Proof.
  intros Hframe Hnow Hh. rewrite get_sensors_eq. cbn [fst].
  rewrite history_of_pruned. unfold history_of. rewrite Hh, Hframe, Hnow.
  reflexivity.
Qed.

Lemma pruning_example_keeps_all_three_witness :
  sensors (self (get_sensors (Example.K 25) "dev" Example.w_prune).1) !! "dev"
  = Some [(10, Example.A); (20, Example.B); (30, Example.C)].
Proof.
  apply (pruning_example_keeps_all_three (Example.K 25) "dev" Example.w_prune);
    reflexivity.
Defined.

(** C3 as stated fails: on that input the entry at timestamp 10 is not
    dropped. *)
Lemma pruning_example_does_not_drop_10 :
  history_of "dev" (get_sensors (Example.K 25) "dev" Example.w_prune).1
  <> [(20, Example.B); (30, Example.C)].
Proof. vm_compute. discriminate. Qed.

Lemma get_sensors_id_1_is_raw_witness :
  (forall r, (get_sensors (Example.K 25) "dev" Example.w_alert).2 = Returned r ->
     exists out, r = Some out /\ out !! 1 = Some (PInt 1))
  /\ exists out,
       (get_sensors (Example.K 25) "dev" Example.w_alert).2 = Returned (Some out)
       /\ out !! 1 = Some (PInt 1).
Proof.
  destruct (get_sensors_id_1_is_raw (Example.K 25) "dev" Example.w_alert
              Example.raw_alert (PInt 1)) as [Hpartial Htotal].
  - vm_compute. discriminate.
  - reflexivity.
  - reflexivity.
  - split; [exact Hpartial|]. apply Htotal.
    + apply ids_withinb_true. vm_compute. reflexivity.
    + apply subseteq_dom_true. vm_compute. reflexivity.
Defined.

(** The answers on the sample states: the alert flag passes through, the
    temperature is averaged; and a sample set that reports a sensor id
    missing from the raw snapshot makes the summing loop raise. *)
Example get_sensors_on_alert :
  (get_sensors (Example.K 25) "dev" Example.w_alert).2
  = Returned (Some {[ 1 := PInt 1; 4 := PFloat (22423 # 1000) ]}).
Proof. vm_compute. reflexivity. Qed.

Example get_sensors_on_lost_sensor :
  (get_sensors (Example.K 25) "dev" Example.w_lost).2 = Raised (KeyError in_res).
Proof. vm_compute. reflexivity. Qed.

(** That state is reached by polling alone: a sensor id that fades from
    the cloud's answers makes [get_sensors] raise until the older sample
    set is pruned. *)
Example get_sensors_on_faded_sensor :
  reachable_by (Example.K 300) public Example.w_faded
  /\ history_of "A" Example.w_faded
     = [(10, {[ 1 := PInt 0; 8 := PFloat (1 # 2) ]}); (30, {[ 1 := PInt 0 ]})]
  /\ (get_sensors (Example.K 300) "A" Example.w_faded).2 = Raised (KeyError in_res).
Proof.
  split; [|split; vm_compute; reflexivity].
  apply reachable_call; [exact I|]. apply reachable_elapse.
  apply reachable_call; [exact I|]. apply reachable_call; [exact I|].
  apply reachable_start.
Qed.

Example get_sensors_twice_on_prune :
  let first := get_sensors (Example.K 25) "dev" Example.w_prune in
  let second := get_sensors (Example.K 25) "dev" first.1 in
  second.2 = first.2 /\ second.1 = first.1.
Proof. apply get_sensors_twice. Qed.

(** ** Ingest: unit conversion and truncation *)



Lemma initial_units_sensor K tvoc hcho sensor_id u :
  SENSORS K !! sensor_id = Some u ->
  initial_units K tvoc hcho !! sensor_id =
  Some (if (tvoc && (sensor_id =? 8)) || (hcho && (sensor_id =? 7))
        then CONCENTRATION_PARTS_PER_BILLION else u).
Proof.
  intros H. unfold initial_units. apply lookup_union_Some_l.
  rewrite map_lookup_imap, H. reflexivity.
Qed.

Lemma initial_units_dom K tvoc hcho :
  dom (initial_units K tvoc hcho) = dom (SENSORS K) ∪ dom (BINARY_SENSORS K).
Proof.
  unfold initial_units. rewrite dom_union_L. f_equal.
  apply set_eq. intros i. rewrite !elem_of_dom, map_lookup_imap.
  destruct (SENSORS K !! i); cbn; split; intros [? ?]; eauto; discriminate.
Qed.


Lemma to_parts_float x weight y :
  to_parts (PFloat x) weight = Returned y -> exists q, y = PFloat q.
Proof.
  unfold to_parts. destruct (Num.truediv _ weight) as [f|] eqn:E;
    cbn [lookup_or obind]; [|discriminate].
  unfold Num.truediv in E. destruct (Qeq_bool _ _); [discriminate|].
  injection E as <-. intros [= <-]. cbn. eauto.
Qed.

Lemma read_value_typed K a res sensor res' :
  typed_by_unit a res -> read_value K a res sensor = Returned res' ->
  typed_by_unit a res'.
Proof.
  intros Hres. unfold read_value.
  destruct (is_null _ || _); [intros [= <-]; exact Hres|].
  destruct (content sensor) as [|m|]; cbn [float_of_content obind]; try discriminate.
  assert (Hx : forall o : Outcome num,
             (forall y, o = Returned y -> exists q, y = PFloat q) ->
             (try x <- o;
              try u <- lookup_or (KeyError in_units) (units a !! seq sensor);
              Returned (<[seq sensor :=
                          if negb (String.eqb u CONCENTRATION_MILLIGRAMS_PER_CUBIC_METER)
                          then Num.int x else x]> res)) = Returned res' ->
             typed_by_unit a res').
  { intros [y|e] Hy; cbn [obind]; [|discriminate].
    destruct (Hy y eq_refl) as [q ->].
    destruct (units a !! seq sensor) as [u|] eqn:Hu; cbn [lookup_or obind]; [|discriminate].
    intros [= <-]. intros sensor_id v. destruct (decide (sensor_id = seq sensor)) as [->|Hne].
    - rewrite lookup_insert_eq. intros [= <-]. exists u. split; [exact Hu|].
      destruct (String.eqb u _); cbn; eauto.
    - rewrite lookup_insert_ne by congruence. apply Hres. }
  destruct ((seq sensor =? 8) && _).
  - apply Hx. intros y. apply to_parts_float.
  - destruct ((seq sensor =? 7) && _).
    + apply Hx. intros y. apply to_parts_float.
    + apply Hx. intros y [= <-]. eauto.
Qed.

Lemma read_values_typed K a l : forall res res',
  typed_by_unit a res -> read_values K a res l = Returned res' ->
  typed_by_unit a res'.
Proof.
  induction l as [|sensor l IH]; intros res res' Hres; cbn [read_values].
  - intros [= <-]. exact Hres.
  - destruct (read_value K a res sensor) as [res1|] eqn:E; cbn [obind]; [|discriminate].
    apply IH. eapply read_value_typed; eassumption.
Qed.




(** ** Requests and the session *)

Lemma _query_eq query_type function extra_params w :
  _query query_type function extra_params w =
  (after_query query_type function extra_params w,
   classify query_type (next_reply w)).
Proof.
  unfold _query, after_query, classify, device_rejects, next_reply, session_get,
    request_of, bind, lift, ret, modify.
  destruct (cloud w (length (requests w))) as [|status_code json]; [destruct query_type; reflexivity|].
  destruct ((status_code =? 200) || (status_code =? 204)); cbn [negb andb];
    [|destruct query_type, json; reflexivity].
  destruct json as [response|]; cbn [lookup_or obind]; [|destruct query_type; reflexivity].
  destruct query_type.
  - destruct (j_code response) as [code|]; cbn [lookup_or obind]; [|reflexivity].
    destruct (code =? 102); [reflexivity|].
    destruct (code =? 9999); [reflexivity|].
    destruct (code =? 2000); reflexivity.
  - destruct (j_returnCode response) as [rc|]; cbn [lookup_or obind]; [|reflexivity].
    destruct (rc =? 0); reflexivity.
Qed.

(** C5. The controller is connected exactly when the session uid is
    positive; and a device-surface query answered (HTTP 200 or 204) with a
    non-zero [returnCode] gives no result and leaves the uid at -1000, the
    controller disconnected. *)
Theorem device_rejection_drops_session :
  (forall a, is_connected a = true <-> 0 < uid a)
  /\ forall w function extra_params status_code response rc,
       next_reply w = Http status_code (Some response) ->
       status_code = 200 \/ status_code = 204 ->
       j_returnCode response = Some rc ->
       rc <> 0 ->
       let after := _query QUERY_TYPE_DEVICE function extra_params w in
       after.2 = Returned None
       /\ uid (self after.1) = -1000
       /\ is_connected (self after.1) = false.
Proof.
  split.
  - intros a. unfold is_connected. apply Z.ltb_lt.
  - intros w function extra_params status_code response rc Hreply Hstatus Hrc Hne after.
    subst after. rewrite _query_eq. cbn [fst snd].
    assert (Hs : (status_code =? 200) || (status_code =? 204) = true)
      by (destruct Hstatus as [-> | ->]; reflexivity).
    apply Z.eqb_neq in Hne.
    unfold after_query, classify, device_rejects. rewrite Hreply.
    cbn beta iota. rewrite Hs. cbn [lookup_or obind andb].
    rewrite Hrc. cbn [lookup_or obind]. rewrite Hne.
    cbn. split; [reflexivity|split; reflexivity].
Qed.

Lemma connect_body_eq retry force w :
  connect_body retry force w =
  if negb force && (0 <? uid (self w)) then (w, Returned true)
  else
    match classify QUERY_TYPE_API (next_reply w) with
    | Raised e => (login_sent w, Raised e)
    | Returned None =>
        if negb force then retry (login_sent w) else (login_sent w, Returned false)
    | Returned (Some r) =>
        match j_uid r with
        | None => (login_sent w, Raised (KeyError in_response))
        | Some u =>
            match j_safeToken r with
            | None => (with_self (set_uid u) (login_sent w), Raised (KeyError in_response))
            | Some t => (with_self (logged_in u t) (login_sent w), Returned true)
            end
        end
    end.
Proof.
  unfold connect_body. unfold bind at 1. unfold gets at 1. cbn [fst snd].
  destruct (negb force && (0 <? uid (self w))); [reflexivity|].
  unfold bind, modify, gets, lift, ret. rewrite _query_eq.
  unfold login_sent.
  change (next_reply (with_self (set_safeToken "anonymous")
            (with_self (set_uid (-1000)) w))) with (next_reply w).
  destruct (classify QUERY_TYPE_API (next_reply w)) as [[r|]|e];
    [|destruct force; reflexivity|reflexivity].
  destruct (j_uid r) as [u|]; cbn [lookup_or]; [|reflexivity].
  destruct (j_safeToken r) as [t|]; reflexivity.
Qed.

(** A forced call never reaches its inner call. *)
Lemma connect_forced_no_retry retry w :
  connect_body retry true w = connect_body (ret false) true w.
Proof. rewrite !connect_body_eq. reflexivity. Qed.

Lemma requests_login_sent w :
  requests (login_sent w) =
  requests w ++ [request_of QUERY_TYPE_API "loginByEmail"
                   (LoginByEmail (username (self w)) (password (self w)))
                   (with_self logged_out w)].
Proof. reflexivity. Qed.

Lemma next_reply_login_sent w :
  next_reply (login_sent w) = cloud w (length (requests w) + 1).
Proof.
  unfold next_reply. rewrite requests_login_sent, length_app. reflexivity.
Qed.

Lemma issued_app w w' l : requests w' = requests w ++ l -> issued w w' = l.
Proof. intros H. unfold issued. rewrite H. apply drop_app_length. Qed.

(** What one run of the body of [connect] sends, its inner call apart. *)
Lemma connect_forced_requests w :
  let after := connect_body (ret false) true w in
  exists l, requests after.1 = requests w ++ l
    /\ forallb is_login l = true /\ length l = 1%nat
    /\ (classify QUERY_TYPE_API (next_reply w) = Returned None ->
        after.2 = Returned false).
Proof.
  cbv zeta. rewrite connect_body_eq. cbn [negb andb].
  exists [request_of QUERY_TYPE_API "loginByEmail"
            (LoginByEmail (username (self w)) (password (self w)))
            (with_self logged_out w)].
  split; [|split; [|split]].
  - destruct (classify _ _) as [[r|]|e];
      [destruct (j_uid r); [destruct (j_safeToken r)|]| |]; reflexivity.
  - reflexivity.
  - reflexivity.
  - intros ->. reflexivity.
Qed.

(** C4. [connect] sends login requests only, at most two.  An unforced
    call on a disconnected session whose login fails sends exactly one
    more, and answers False when that one fails too; a forced call whose
    login fails sends nothing more and answers False. *)
Theorem connect_retries_once force w :
  let after := connect force w in
  let fails (n : nat) :=
    classify QUERY_TYPE_API (cloud w (length (requests w) + n)) = Returned None in
  (exists l, requests after.1 = requests w ++ l
             /\ forallb is_login l = true /\ (length l <= 2)%nat)
  /\ (force = false -> uid (self w) <= 0 -> fails 0%nat ->
      length (issued w after.1) = 2%nat
      /\ (fails 1%nat -> after.2 = Returned false))
  /\ (force = true -> fails 0%nat ->
      length (issued w after.1) = 1%nat /\ after.2 = Returned false).
Proof.
  cbv beta zeta. rewrite Nat.add_0_r. fold (next_reply w).
  destruct (connect_forced_requests w) as (l1 & Hl1 & Hlog1 & Hlen1 & Hfalse1).
  destruct (connect_forced_requests (login_sent w)) as (l2 & Hl2 & Hlog2 & Hlen2 & Hfalse2).
  rewrite requests_login_sent in Hl2. rewrite next_reply_login_sent in Hfalse2.
  unfold connect. destruct force.
  - rewrite connect_forced_no_retry. split; [|split].
    + exists l1. split; [exact Hl1|]. split; [exact Hlog1|]. lia.
    + discriminate.
    + intros _ Hfail. rewrite (issued_app _ _ _ Hl1). split; [exact Hlen1|].
      apply Hfalse1, Hfail.
  - rewrite connect_body_eq. cbn [negb andb].
    destruct (0 <? uid (self w)) eqn:Hu.
    + split; [|split].
      * exists []. cbn [fst]. rewrite app_nil_r. repeat split. cbn. lia.
      * intros _ Hle. apply Z.ltb_lt in Hu. lia.
      * discriminate.
    + destruct (classify QUERY_TYPE_API (next_reply w)) as [[r|]|e] eqn:Hc.
      * split; [|split; [intros _ _ [=]|discriminate]].
        exists [request_of QUERY_TYPE_API "loginByEmail"
                  (LoginByEmail (username (self w)) (password (self w)))
                  (with_self logged_out w)].
        split; [|split; [reflexivity|cbn; lia]].
        destruct (j_uid r); [destruct (j_safeToken r)|]; reflexivity.
      * split; [|split; [|discriminate]].
        -- eexists. split; [rewrite Hl2, <- app_assoc; reflexivity|].
           split; [cbn [app forallb]; rewrite Hlog2; reflexivity|].
           rewrite length_app. cbn [length]. lia.
        -- intros _ _ _. erewrite issued_app by (rewrite Hl2, <- app_assoc; reflexivity).
           split; [rewrite length_app; cbn [length]; lia|]. exact Hfalse2.
      * split; [|split; [intros _ _ [=]|discriminate]].
        exists [request_of QUERY_TYPE_API "loginByEmail"
                  (LoginByEmail (username (self w)) (password (self w)))
                  (with_self logged_out w)].
        split; [reflexivity|]. split; [reflexivity|cbn; lia].
Qed.

(** ** The device cache *)

Lemma update_devices_body_eq retry force w :
  update_devices_body retry force w =
  match connect false w with
  | (w0, Raised e) => (w0, Raised e)
  | (w0, Returned false) => (w0, Returned None)
  | (w0, Returned true) =>
      if negb force && negb (bool_decide (devices (self w0) = ∅))
      then (w0, Returned (Some (devices (self w0))))
      else
        match classify QUERY_TYPE_API (next_reply w0) with
        | Raised e => (devices_asked w0, Raised e)
        | Returned None =>
            if negb force then retry (devices_asked w0)
            else (devices_asked w0, Returned None)
        | Returned (Some r) =>
            match j_deviceInfoBodyList r with
            | None => (devices_asked w0, Raised (KeyError in_response))
            | Some l =>
                let w' := with_self
                            (refreshed (Num.trunc (wall_clock w0 * 1000)) l)
                            (devices_asked w0) in
                (w', Returned (Some (devices (self w'))))
            end
        end
  end.
Proof.
  unfold update_devices_body. unfold bind at 1.
  destruct (connect false w) as [w0 [[|]|e]]; [|reflexivity|reflexivity].
  cbn [negb]. unfold bind at 1. unfold gets at 1.
  destruct (negb force && negb (bool_decide (devices (self w0) = ∅))); [reflexivity|].
  unfold bind at 1. rewrite _query_eq. fold (devices_asked w0).
  destruct (classify QUERY_TYPE_API (next_reply w0)) as [[r|]|e];
    [|destruct force; reflexivity|reflexivity].
  unfold bind, now, lift, modify, gets, ret. cbn [fst snd].
  destruct (j_deviceInfoBodyList r) as [l|]; cbn [lookup_or]; reflexivity.
Qed.

Lemma store_devices_cons tstamp dev l devs :
  store_devices tstamp (dev :: l) devs =
  store_devices tstamp l (<[deviceid dev := stamped tstamp dev]> devs).
Proof. reflexivity. Qed.

(** An id that the fresh list does not name keeps its cached entry. *)
Lemma store_devices_other tstamp l : forall devs id,
  (forall dev, dev ∈ l -> deviceid dev <> id) ->
  store_devices tstamp l devs !! id = devs !! id.
Proof.
  induction l as [|d l IH]; intros devs id Hl; [reflexivity|].
  rewrite store_devices_cons, IH.
  - apply lookup_insert_ne. apply Hl. left.
  - intros dev Hdev. apply Hl. right. exact Hdev.
Qed.

(** An entry of the cache after the refresh is a stamped entry of the
    fresh list, or a cached entry that the fresh list does not name. *)
Lemma store_devices_lookup tstamp l : forall devs id dev',
  store_devices tstamp l devs !! id = Some dev' ->
  (exists dev, dev ∈ l /\ deviceid dev = id /\ dev' = stamped tstamp dev)
  \/ ((forall dev, dev ∈ l -> deviceid dev <> id) /\ devs !! id = Some dev').
Proof.
  induction l as [|d l IH]; intros devs id dev' H.
  - right. split; [intros dev Hdev; inversion Hdev|exact H].
  - rewrite store_devices_cons in H. apply IH in H as [(dev & Hin & Hid & ->)|[Hl H]].
    + left. exists dev. split; [right; exact Hin|]. split; [exact Hid|reflexivity].
    + destruct (decide (deviceid d = id)) as [Heq|Hne].
      * left. exists d. rewrite <- Heq, lookup_insert_eq in H. injection H as <-.
        split; [left|]. split; [exact Heq|reflexivity].
      * right. rewrite lookup_insert_ne in H by exact Hne. split; [|exact H].
        intros dev Hdev. apply elem_of_cons in Hdev as [->|Hdev]; [exact Hne|].
        apply Hl, Hdev.
Qed.

(** Every id of the fresh list is in the cache, stamped. *)
Lemma store_devices_fresh tstamp l : forall devs dev,
  dev ∈ l ->
  exists dev2, dev2 ∈ l /\ deviceid dev2 = deviceid dev
    /\ store_devices tstamp l devs !! deviceid dev = Some (stamped tstamp dev2).
Proof.
  induction l as [|d l IH]; intros devs dev Hdev; [inversion Hdev|].
  rewrite store_devices_cons.
  destruct (decide (Exists (fun dev2 => deviceid dev2 = deviceid dev) l))
    as [(dev2 & Hin2 & Hid2)%Exists_exists|Hnone%(not_iff_compat (Exists_exists _ _))].
  - destruct (IH (<[deviceid d := stamped tstamp d]> devs) dev2 Hin2)
      as (dev3 & Hin3 & Hid3 & Hlook).
    exists dev3. split; [right; exact Hin3|]. split; [congruence|].
    rewrite <- Hid2. exact Hlook.
  - assert (dev = d) as ->.
    { apply elem_of_cons in Hdev as [->|Hdev]; [reflexivity|].
      exfalso. apply Hnone. exists dev. split; [exact Hdev|reflexivity]. }
    exists d. split; [left|]. split; [reflexivity|].
    rewrite store_devices_other; [apply lookup_insert_eq|].
    intros dev2 Hin2 Heq. apply Hnone. exists dev2. split; assumption.
Qed.

Lemma connect_connected w :
  0 < uid (self w) -> connect false w = (w, Returned true).
Proof.
  intros Hu. unfold connect. rewrite connect_body_eq.
  apply Z.ltb_lt in Hu. rewrite Hu. reflexivity.
Qed.

Lemma connect_logs_in w w0 :
  uid (self w) <= 0 -> connect false w = (w0, Returned true) ->
  devices (self w0) = ∅.
Proof.
  intros Hu. unfold connect. rewrite connect_body_eq.
  assert (Hf : (0 <? uid (self w)) = false) by (apply Z.ltb_ge; exact Hu).
  rewrite Hf. cbn [negb andb].
  assert (Hin : forall w1 w2,
            connect_body (ret false) true w1 = (w2, Returned true) ->
            devices (self w2) = ∅).
  { intros w1 w2. rewrite connect_body_eq. cbn [negb andb].
    destruct (classify _ _) as [[r|]|e]; [| |discriminate].
    - destruct (j_uid r); [|discriminate].
      destruct (j_safeToken r); [|discriminate]. intros [= <-]. reflexivity.
    - intros [=]. }
  destruct (classify _ _) as [[r|]|e]; [|apply Hin|discriminate].
  destruct (j_uid r); [|discriminate].
  destruct (j_safeToken r); [|discriminate]. intros [= <-]. reflexivity.
Qed.

(** C6, as the code has it.  When the device-list query of
    [update_devices] succeeds, every entry of the fresh list goes into the
    cached map, stamped with the refresh timestamp, over the map as it was
    after [connect]: empty when the call was not forced or a login came
    first, the prior cache on a forced call over a live session.  An id
    that the fresh list does not name keeps its cached entry.  Every id
    of the cache then has a history, and no history is touched.
    [update_devices force] is [update_devices_body retry force] with its
    inner, forced call for [retry], and that inner call is
    [update_devices_body (ret None) true]: the statement covers the query
    of either. *)
Theorem update_devices_stores_fresh_list retry force w w0 response l :
  connect false w = (w0, Returned true) ->
  force = true \/ devices (self w0) = ∅ ->
  classify QUERY_TYPE_API (next_reply w0) = Returned (Some response) ->
  j_deviceInfoBodyList response = Some l ->
  let tstamp := Num.trunc (wall_clock w0 * 1000) in
  let after := update_devices_body retry force w in
  let cached := devices (self after.1) in
  after.2 = Returned (Some cached)
  /\ cached = store_devices tstamp l (devices (self w0))
  /\ devices (self w0) = (if 0 <? uid (self w) then devices (self w) else ∅)
  /\ (forall dev, dev ∈ l ->
        exists dev2, dev2 ∈ l /\ deviceid dev2 = deviceid dev
          /\ cached !! deviceid dev = Some (stamped tstamp dev2))
  /\ (forall id, (forall dev, dev ∈ l -> deviceid dev <> id) ->
        cached !! id = devices (self w0) !! id)
  /\ (devices (self w0) = ∅ ->
      forall id dev', cached !! id = Some dev' ->
        exists dev, dev ∈ l /\ deviceid dev = id /\ dev' = stamped tstamp dev)
  /\ (forall id, id ∈ dom cached -> is_Some (sensors (self after.1) !! id))
  /\ (forall id h, sensors (self w0) !! id = Some h ->
        sensors (self after.1) !! id = Some h).
Proof.
  intros Hconnect Hforce Hreply Hlist tstamp after cached.
  assert (Hafter : after =
            (with_self (refreshed tstamp l) (devices_asked w0),
             Returned (Some (store_devices tstamp l (devices (self w0)))))).
  { subst after. rewrite update_devices_body_eq, Hconnect.
    assert (Hgo : negb force && negb (bool_decide (devices (self w0) = ∅)) = false).
    { destruct Hforce as [-> | ->]; [reflexivity|].
      rewrite bool_decide_eq_true_2 by reflexivity. apply andb_false_r. }
    rewrite Hgo, Hreply, Hlist. reflexivity. }
  assert (Hcached : cached = store_devices tstamp l (devices (self w0)))
    by (subst cached; rewrite Hafter; reflexivity).
  assert (Hsensors : sensors (self after.1) =
            setdefault_histories cached (sensors (self w0)))
    by (rewrite Hcached, Hafter; reflexivity).
  split; [rewrite Hcached, Hafter; reflexivity|].
  split; [exact Hcached|].
  split.
  { destruct (0 <? uid (self w)) eqn:Hu.
    - apply Z.ltb_lt in Hu. rewrite (connect_connected w Hu) in Hconnect.
      injection Hconnect as <-. reflexivity.
    - apply Z.ltb_ge in Hu. eapply connect_logs_in; eassumption. }
  split; [intros dev Hdev; rewrite Hcached; apply store_devices_fresh, Hdev|].
  split; [intros id Hid; rewrite Hcached; apply store_devices_other, Hid|].
  split.
  { intros Hempty id dev' Hlook. rewrite Hcached, Hempty in Hlook.
    apply store_devices_lookup in Hlook as [H|[_ H]]; [exact H|].
    rewrite lookup_empty in H. discriminate. }
  split.
  { intros id [dev Hdev]%elem_of_dom. rewrite Hsensors. unfold setdefault_histories.
    rewrite lookup_union, lookup_fmap, Hdev.
    destruct (sensors (self w0) !! id); cbn; eauto. }
  intros id h Hh. rewrite Hsensors. unfold setdefault_histories.
  apply lookup_union_Some_l, Hh.
Qed.

Lemma update_devices_stores_fresh_list_witness :
  let after := update_devices true Example.w_cached in
  after.2 = Returned (Some (devices (self after.1)))
  /\ devices (self after.1)
     = {[ "A" := Example.dev_a; "B" := stamped 40000 Example.dev_b ]}.
Proof.
  destruct (update_devices_stores_fresh_list
              (update_devices_body (ret None) true) true
              Example.w_cached Example.w_cached
              (Example.api_body [Example.dev_b]) [Example.dev_b])
    as (Hret & Hcached & _).
  - reflexivity.
  - left. reflexivity.
  - reflexivity.
  - reflexivity.
  - split; [exact Hret|]. unfold update_devices. rewrite Hcached.
    vm_compute. reflexivity.
Defined.

(** C6 as stated fails: on a forced refresh over a live session the cached
    device "A" survives although the fresh list names "B" only, so the
    cache is not the fresh list. *)
Lemma update_devices_keeps_stale_device :
  let after := update_devices true Example.w_cached in
  after.2 = Returned (Some (devices (self after.1)))
  /\ devices (self after.1) !! "A" = Some Example.dev_a
  /\ (forall dev, dev ∈ [Example.dev_b] -> deviceid dev <> "A")
  /\ devices (self after.1) <> store_devices 40000 [Example.dev_b] ∅.
Proof.
  split; [vm_compute; reflexivity|].
  split; [vm_compute; reflexivity|].
  split.
  - intros dev Hdev. apply list_elem_of_singleton in Hdev as ->. discriminate.
  - intros H.
    assert (Hl : devices (self (update_devices true Example.w_cached).1) !! "A"
                 = store_devices 40000 [Example.dev_b] ∅ !! "A")
      by (rewrite H; reflexivity).
    vm_compute in Hl. discriminate.
Qed.

Lemma connect_retries_once_witness :
  length (issued Example.w_down (connect false Example.w_down).1) = 2%nat
  /\ (connect false Example.w_down).2 = Returned false.
Proof.
  destruct (connect_retries_once false Example.w_down) as (_ & Hunforced & _).
  destruct Hunforced as [Htwo Hfalse].
  - reflexivity.
  - vm_compute. discriminate.
  - reflexivity.
  - split; [exact Htwo|]. apply Hfalse. reflexivity.
Defined.

Lemma device_rejection_drops_session_witness :
  let after :=
    _query QUERY_TYPE_DEVICE "list" (SensorList "token-a" 40) Example.w_rejected in
  after.2 = Returned None
  /\ uid (self after.1) = -1000
  /\ is_connected (self after.1) = false.
Proof.
  apply (proj2 device_rejection_drops_session Example.w_rejected "list"
           (SensorList "token-a" 40) 200 (Example.device_body 5 []) 5).
  - reflexivity.
  - left. reflexivity.
  - reflexivity.
  - discriminate.
Defined.

(** A reading of 0.123 mg/m3 of TVOC is 53.6 ppb: stored as 53, not 54;
    a negative value goes up, toward zero. *)
Example tvoc_is_truncated_not_rounded :
  read_values (Example.K 300) Example.ppb_account ∅
    [ {| seq := 8; content := Number (123 # 1000) |};
      {| seq := 7; content := Number (- (5 # 100)) |};
      {| seq := 4; content := Number (217 # 10) |} ]
  = Returned {[ 8 := PInt 53; 7 := PInt (-40); 4 := PInt 21 ]}.
Proof. vm_compute. reflexivity. Qed.

(** ** The raw snapshot backs the history: an invariant *)

Lemma preserves_ret {A} (a : A) : preserves (ret a).
Proof. intros w H. exact H. Qed.

Lemma preserves_raise {A} e : preserves (@raise A e).
Proof. intros w H. exact H. Qed.

Lemma preserves_lift {A} (o : Outcome A) : preserves (lift o).
Proof. intros w H. exact H. Qed.

Lemma preserves_gets {A} (f : JqAccount -> A) : preserves (gets f).
Proof. intros w H. exact H. Qed.

Lemma preserves_now : preserves now.
Proof. intros w H. exact H. Qed.

Lemma preserves_bind {A B} (m : M A) (k : A -> M B) :
  preserves m -> (forall a, preserves (k a)) -> preserves (bind m k).
Proof.
  intros Hm Hk w H. unfold bind. specialize (Hm w H).
  destruct (m w) as [w' [a|e]]; cbn [fst] in *; [apply Hk, Hm|exact Hm].
Qed.

Lemma preserves_modify f : keeps_samples f -> preserves (modify f).
Proof.
  intros Hf w [H1 H2]. destruct (Hf (self w)) as [Hs Hr].
  split; cbn; rewrite ?Hs, ?Hr; assumption.
Qed.

Lemma preserves_session_get query_type function extra_params :
  preserves (session_get query_type function extra_params).
Proof. intros w H. exact H. Qed.

Lemma preserves_for_each {A} (l : list A) (body : A -> M unit) :
  (forall x, preserves (body x)) -> preserves (for_each l body).
Proof.
  intros Hbody. induction l as [|x l IH]; cbn [for_each].
  - apply preserves_ret.
  - apply preserves_bind; [apply Hbody|intros _; exact IH].
Qed.

Lemma keeps_samples_set_uid v : keeps_samples (set_uid v).
Proof. intros a. split; reflexivity. Qed.

Lemma keeps_samples_set_safeToken v : keeps_samples (set_safeToken v).
Proof. intros a. split; reflexivity. Qed.

Lemma keeps_samples_set_devices v : keeps_samples (set_devices v).
Proof. intros a. split; reflexivity. Qed.

Lemma keeps_samples_set_active_devices v : keeps_samples (set_active_devices v).
Proof. intros a. split; reflexivity. Qed.

Create HintDb preserve.
#[local] Hint Resolve preserves_ret preserves_raise preserves_lift preserves_gets
  preserves_now preserves_session_get keeps_samples_set_uid
  keeps_samples_set_safeToken keeps_samples_set_devices
  keeps_samples_set_active_devices : preserve.

(** Walk down a method: binds, branches and the primitive steps. *)
Ltac preserve :=
  repeat first
    [ solve [auto with preserve]
    | apply preserves_modify; solve [auto with preserve]
    | apply preserves_bind; [|intros ?]
    | match goal with
      | |- preserves (if ?b then _ else _) => destruct b
      | |- preserves (match ?x with _ => _ end) => destruct x
      end ].

Lemma preserves_query query_type function extra_params :
  preserves (_query query_type function extra_params).
Proof. unfold _query. preserve. Qed.

Lemma preserves_connect_body retry force :
  preserves retry -> preserves (connect_body retry force).
Proof. intros Hretry. unfold connect_body. pose proof preserves_query. preserve. Qed.

Lemma preserves_connect force : preserves (connect force).
Proof. unfold connect. do 2 apply preserves_connect_body. apply preserves_ret. Qed.

(** New histories start empty. *)
Lemma preserves_setdefault_histories :
  preserves (modify (fun a =>
    set_sensors (setdefault_histories (devices a) (sensors a)) a)).
Proof.
  intros w [H1 H2]. split; [exact H1|]. cbn. intros device_id h Hh Hne.
  unfold setdefault_histories in Hh. rewrite lookup_union in Hh.
  destruct (sensors (self w) !! device_id) as [h0|] eqn:E.
  - rewrite lookup_fmap in Hh. destruct (devices (self w) !! device_id);
      cbn in Hh; injection Hh as <-; eapply H2; eassumption.
  - rewrite lookup_fmap in Hh. destruct (devices (self w) !! device_id);
      cbn in Hh; [|discriminate]. injection Hh as <-. congruence.
Qed.

Lemma preserves_update_devices_body retry force :
  preserves retry -> preserves (update_devices_body retry force).
Proof.
  intros Hretry. unfold update_devices_body.
  pose proof preserves_query. pose proof preserves_connect.
  pose proof preserves_setdefault_histories.
  repeat first
    [ assumption
    | solve [auto with preserve]
    | apply preserves_bind; [|intros ?]
    | match goal with
      | |- preserves (if ?b then _ else _) => destruct b
      | |- preserves (match ?x with _ => _ end) => destruct x
      end ].
Qed.

Lemma preserves_update_devices force : preserves (update_devices force).
Proof.
  unfold update_devices. do 2 apply preserves_update_devices_body. apply preserves_ret.
Qed.

(** An ingest stores the history entry, the raw snapshot and the log
    entry together. *)
Lemma preserves_store_samples device_id ts_now res :
  preserves (store_samples device_id ts_now res).
Proof.
  intros w [H1 H2]. unfold store_samples, bind, gets, lift, modify.
  cbn [fst snd]. destruct (sensors (self w) !! device_id) as [h|];
    cbn [lookup_or fst snd]; [|split; assumption].
  split; cbn.
  - intros d. destruct (String.eqb_spec device_id d) as [->|Hne].
    + apply lookup_insert_eq.
    + rewrite lookup_insert_ne by exact Hne. apply H1.
  - intros d h' Hh Hne. destruct (decide (device_id = d)) as [->|Hd].
    + rewrite lookup_insert_eq. eauto.
    + rewrite lookup_insert_ne in Hh by exact Hd.
      rewrite lookup_insert_ne by exact Hd. eapply H2; eassumption.
Qed.

Lemma preserves_fetch_sensors_body K retry device_id ts_now force :
  preserves retry -> preserves (_fetch_sensors_body K retry device_id ts_now force).
Proof.
  intros Hretry. unfold _fetch_sensors_body.
  pose proof preserves_query. pose proof preserves_update_devices.
  pose proof preserves_store_samples.
  repeat first
    [ assumption
    | solve [auto with preserve]
    | apply preserves_bind; [|intros ?]
    | match goal with
      | |- preserves (if ?b then _ else _) => destruct b
      | |- preserves (match ?x with _ => _ end) => destruct x
      end ].
Qed.

Lemma preserves_fetch_sensors K device_id ts_now force :
  preserves (_fetch_sensors K device_id ts_now force).
Proof.
  unfold _fetch_sensors. do 2 apply preserves_fetch_sensors_body. apply preserves_ret.
Qed.

Lemma preserves_update_sensors K : preserves (update_sensors K).
Proof.
  unfold update_sensors. pose proof (preserves_fetch_sensors K).
  apply preserves_bind; [apply preserves_now|intros t].
  apply preserves_bind; [apply preserves_gets|intros active].
  apply preserves_for_each. intros device_id. preserve.
Qed.

Lemma preserves_set_active devs : preserves (set_active devs).
Proof.
  unfold set_active. apply preserves_bind; [preserve|intros _].
  apply preserves_for_each. intros device_id w [H1 H2]. split; [exact H1|].
  cbn. intros d h Hh Hne. destruct (sensors (self w) !! device_id) eqn:E.
  - eapply H2; eassumption.
  - destruct (decide (device_id = d)) as [->|Hd].
    + rewrite lookup_insert_eq in Hh. congruence.
    + rewrite lookup_insert_ne in Hh by exact Hd. eapply H2; eassumption.
Qed.

Lemma prune_empty ts_min : prune ts_min [] = [].
Proof. reflexivity. Qed.

Lemma preserves_get_sensors K device_id : preserves (get_sensors K device_id).
Proof.
  intros w [H1 H2]. rewrite get_sensors_eq. cbn [fst]. split; [exact H1|].
  unfold pruned. cbn. intros d h Hh Hne.
  destruct (decide (device_id = d)) as [->|Hd].
  - rewrite lookup_insert_eq in Hh. injection Hh as <-.
    unfold history_of in Hne. destruct (sensors (self w) !! d) as [h0|] eqn:E;
      cbn [default] in Hne; [|rewrite prune_empty in Hne; congruence].
    apply (H2 d h0 E). intros ->. rewrite prune_empty in Hne. congruence.
  - rewrite lookup_insert_ne in Hh by exact Hd. eapply H2; eassumption.
Qed.

Lemma preserves_get_sensors_raw device_id : preserves (get_sensors_raw device_id).
Proof. unfold get_sensors_raw. preserve. Qed.

Lemma reachable_raw_backs_history K allowed w :
  reachable_by K allowed w -> raw_backs_history w.
Proof.
  induction 1 as [username password tvoc hcho cloud0 t0|op w _ _ IH|cloud' t w _ IH].
  - split.
    + intros d. cbn. apply lookup_empty.
    + intros d h Hh. cbn in Hh. rewrite lookup_empty in Hh. discriminate.
  - destruct op; cbn [call].
    + apply preserves_connect, IH.
    + apply preserves_update_devices, IH.
    + apply preserves_fetch_sensors, IH.
    + apply preserves_update_sensors, IH.
    + apply preserves_get_sensors, IH.
    + apply preserves_get_sensors_raw, IH.
    + apply preserves_set_active, IH.
    + exact IH.
  - exact IH.
Qed.

(** ** Which lookups of [get_sensors] can fail *)

Lemma add_weighted_raises res last_data val_t e :
  add_weighted res last_data val_t = Raised e -> e = KeyError in_res.
Proof.
  intros E. pose proof (add_weighted_spec res last_data val_t) as H.
  rewrite E in H. apply H.
Qed.

Lemma sum_values_raises ts_overdue h : forall st e,
  sum_values ts_overdue st h = Raised e -> e = KeyError in_res.
Proof.
  induction h as [|item h IH]; intros st e; cbn [sum_values]; [discriminate|].
  unfold sum_step.
  destruct (Num.ltb _ _).
  - destruct (add_weighted _ _ _) as [res|e'] eqn:E; cbn [obind].
    + apply IH.
    + intros [= <-]. eapply add_weighted_raises, E.
  - cbn [obind]. apply IH.
Qed.

Lemma weighted_sums_raises ts_now ts_overdue raw h e :
  weighted_sums ts_now ts_overdue raw h = Raised e -> e = KeyError in_res.
Proof.
  unfold weighted_sums.
  destruct (sum_values _ _ _) as [st|e'] eqn:E; cbn [obind].
  - apply add_weighted_raises.
  - intros [= <-]. eapply sum_values_raises, E.
Qed.

Lemma finish_raw_lookup units_ raw length s total :
  finish units_ raw length s total = Raised (KeyError in_sensors_raw) ->
  s = 1 /\ raw !! 1 = None.
Proof.
  unfold finish. destruct (s =? 1) eqn:E.
  - apply Z.eqb_eq in E. destruct (raw !! 1); [discriminate|]. intros _. split; [exact E|reflexivity].
  - destruct (units_ !! s); cbn [lookup_or obind]; [|discriminate].
    destruct (Num.truediv _ _); cbn [lookup_or obind]; discriminate.
Qed.

(** With a raw snapshot at hand, the averaging pass raises no KeyError on
    the raw snapshot: sensor id 1 is finished only if the snapshot has it. *)
Lemma averaged_raw_lookup_safe ts_now ts_overdue units_ raw kept :
  averaged ts_now ts_overdue units_ (Some raw) kept
  <> Raised (KeyError in_sensors_raw).
Proof.
  unfold averaged. destruct kept as [|item kept]; [discriminate|].
  cbn [lookup_or obind]. set (h := item :: kept).
  destruct (weighted_sums ts_now ts_overdue raw h) as [res|e] eqn:Hres; cbn [obind].
  - destruct (window_length ts_now ts_overdue h) as [length|e] eqn:Hlen; cbn [obind].
    + pose proof (average_and_round_spec units_ raw length res) as Hspec.
      destruct (average_and_round units_ raw length res) as [out|e]; cbn [obind];
        [discriminate|].
      intros [= ->]. destruct Hspec as (s & total & Hs & Hf).
      apply finish_raw_lookup in Hf as [-> Hnone].
      apply weighted_sums_dom in Hres.
      assert (1 ∈ dom raw) as [v Hv]%elem_of_dom
        by (rewrite <- Hres; apply elem_of_dom; eauto).
      congruence.
    + unfold window_length in Hlen.
      destruct (min_list (keys h)); cbn [lookup_or obind] in Hlen; [discriminate|].
      injection Hlen as <-. discriminate.
  - apply weighted_sums_raises in Hres as ->. discriminate.
Qed.

(** C10. In every reachable state, a device whose history is not empty
    has a raw snapshot, and that snapshot is the sample set stored by the
    latest ingest for the device; hence [get_sensors] raises no KeyError
    on the raw snapshot. *)
Theorem raw_snapshot_backs_history K w device_id h :
  reachable K w ->
  sensors (self w) !! device_id = Some h ->
  h <> [] ->
  (exists raw,
     sensors_raw (self w) !! device_id = Some raw
     /\ last_ingest device_id (ingests w) = Some raw)
  /\ (get_sensors K device_id w).2 <> Raised (KeyError in_sensors_raw).
Proof.
  intros Hreach Hh Hne. apply reachable_raw_backs_history in Hreach as [H1 H2].
  destruct (H2 device_id h Hh Hne) as [raw Hraw]. split.
  - exists raw. split; [exact Hraw|]. rewrite <- H1. exact Hraw.
  - rewrite get_sensors_eq. cbn [snd]. cbv zeta. rewrite Hraw.
    apply averaged_raw_lookup_safe.
Qed.

Lemma raw_snapshot_backs_history_witness :
  (exists raw,
     sensors_raw (self Example.w_fetched) !! "A" = Some raw
     /\ last_ingest "A" (ingests Example.w_fetched) = Some raw)
  /\ (get_sensors (Example.K 300) "A" Example.w_fetched).2
     <> Raised (KeyError in_sensors_raw).
Proof.
  apply (raw_snapshot_backs_history (Example.K 300) Example.w_fetched "A"
           [(40, {[ 1 := PInt 0; 4 := PInt 21; 8 := PFloat (123 # 1000) ]})]).
  - apply reachable_call; [exact I|apply reachable_start].
  - vm_compute. reflexivity.
  - discriminate.
Defined.

(** ** Invariants of ingest *)

Lemma same_config_refl w : same_config w w.
Proof. split; [|split]; reflexivity. Qed.

Lemma same_config_trans w1 w2 w3 :
  same_config w1 w2 -> same_config w2 w3 -> same_config w1 w3.
Proof. intros (A1 & B1 & C1) (A2 & B2 & C2). split; [|split]; congruence. Qed.

Lemma quiet_refl w : quiet w w.
Proof.
  split; [apply same_config_refl|]. split; [reflexivity|].
  intros d h H. left. exact H.
Qed.

Lemma quiet_trans w1 w2 w3 : quiet w1 w2 -> quiet w2 w3 -> quiet w1 w3.
Proof.
  intros (Hu1 & Hr1 & Hs1) (Hu2 & Hr2 & Hs2).
  split; [eapply same_config_trans; eassumption|]. split; [congruence|].
  intros d h H. apply Hs2 in H as [H|H]; [apply Hs1, H|right; exact H].
Qed.

Lemma keeps_quiet_bind {A B} (m : M A) (k : A -> M B) :
  keeps_quiet m -> (forall a, keeps_quiet (k a)) -> keeps_quiet (bind m k).
Proof.
  intros Hm Hk w. unfold bind. specialize (Hm w).
  destruct (m w) as [w' [a|e]]; cbn [fst] in *; [|exact Hm].
  eapply quiet_trans; [exact Hm|apply Hk].
Qed.

Lemma keeps_quiet_for_each {A} (l : list A) (body : A -> M unit) :
  (forall x, keeps_quiet (body x)) -> keeps_quiet (for_each l body).
Proof.
  intros Hbody. induction l as [|x l IH]; cbn [for_each].
  - intros w. apply quiet_refl.
  - apply keeps_quiet_bind; [apply Hbody|intros _; exact IH].
Qed.

(** A step that leaves units, preferences, raw snapshots and histories
    as they are. *)
Lemma keeps_quiet_still {A} (m : M A) :
  (forall w, same_config w (m w).1
             /\ sensors_raw (self (m w).1) = sensors_raw (self w)
             /\ sensors (self (m w).1) = sensors (self w)) ->
  keeps_quiet m.
Proof.
  intros H w. destruct (H w) as (Hu & Hr & Hs).
  split; [exact Hu|]. split; [exact Hr|]. intros d h Hh. left. rewrite <- Hs. exact Hh.
Qed.

Ltac still :=
  apply keeps_quiet_still; intros ?;
  split; [split; [|split]; reflexivity|split; reflexivity].

Ltac quiet_step :=
  first
    [ assumption
    | apply keeps_quiet_bind; [|intros ?]
    | still
    | match goal with
      | |- keeps_quiet (if ?b then _ else _) => destruct b
      | |- keeps_quiet (match ?x with _ => _ end) => destruct x
      end ].

Lemma keeps_quiet_query query_type function extra_params :
  keeps_quiet (_query query_type function extra_params).
Proof. unfold _query. repeat quiet_step. Qed.

Lemma keeps_quiet_connect_body retry force :
  keeps_quiet retry -> keeps_quiet (connect_body retry force).
Proof.
  intros Hretry. unfold connect_body. pose proof keeps_quiet_query.
  repeat quiet_step.
Qed.

Lemma keeps_quiet_connect force : keeps_quiet (connect force).
Proof. unfold connect. do 2 apply keeps_quiet_connect_body. still. Qed.

Lemma keeps_quiet_setdefault_histories :
  keeps_quiet (modify (fun a =>
    set_sensors (setdefault_histories (devices a) (sensors a)) a)).
Proof.
  intros w. split; [split; [|split]; reflexivity|]. split; [reflexivity|]. cbn.
  intros d h Hh. unfold setdefault_histories in Hh.
  rewrite lookup_union, lookup_fmap in Hh.
  destruct (sensors (self w) !! d) as [h0|].
  - left. destruct (devices (self w) !! d); cbn in Hh; exact Hh.
  - right. destruct (devices (self w) !! d); cbn in Hh; [|discriminate]. congruence.
Qed.

Lemma keeps_quiet_update_devices_body retry force :
  keeps_quiet retry -> keeps_quiet (update_devices_body retry force).
Proof.
  intros Hretry. unfold update_devices_body.
  pose proof keeps_quiet_query. pose proof keeps_quiet_connect.
  pose proof keeps_quiet_setdefault_histories.
  repeat quiet_step.
Qed.

Lemma keeps_quiet_update_devices force : keeps_quiet (update_devices force).
Proof. unfold update_devices. do 2 apply keeps_quiet_update_devices_body. still. Qed.

Lemma keeps_quiet_set_active devs : keeps_quiet (set_active devs).
Proof.
  unfold set_active. apply keeps_quiet_bind; [repeat quiet_step|intros _].
  apply keeps_quiet_for_each. intros device_id w.
  split; [split; [|split]; reflexivity|]. split; [reflexivity|]. cbn. intros d h Hh.
  destruct (sensors (self w) !! device_id) eqn:E; [left; exact Hh|].
  destruct (decide (device_id = d)) as [->|Hd].
  - rewrite lookup_insert_eq in Hh. right. congruence.
  - rewrite lookup_insert_ne in Hh by exact Hd. left. exact Hh.
Qed.

(** What [_fetch_sensors] maintains: [P] before the ingest, [Q] after it,
    when the quiet steps keep [P], the store turns [P] into [Q] and the
    inner call does so too. *)
Lemma fetch_sensors_body_maintains K retry device_id ts_now force
    (P Q : World -> Prop) :
  (forall w w', quiet w w' -> P w -> P w') ->
  (forall w, P w -> Q w) ->
  (forall w vos res,
     P w -> read_values K (self w) ∅ vos = Returned res ->
     Q (store_samples device_id ts_now res w).1) ->
  (forall w, P w -> Q (retry w).1) ->
  forall w, P w -> Q (_fetch_sensors_body K retry device_id ts_now force w).1.
Proof.
  intros Hquiet HPQ Hstore Hretry w Hw. unfold _fetch_sensors_body. unfold bind at 1.
  pose proof (keeps_quiet_update_devices false w) as Hq.
  destruct (update_devices false w) as [w1 [devs|e]]; cbn [fst] in Hq |- *;
    [|eapply HPQ, Hquiet; eassumption].
  pose proof (Hquiet _ _ Hq Hw) as Hw1.
  destruct devs as [devs|]; [|apply HPQ, Hw1].
  destruct (bool_decide (devs = ∅)); [apply HPQ, Hw1|].
  unfold bind at 1. unfold lift at 1.
  destruct (devs !! device_id) as [dev|]; cbn [lookup_or]; [|apply HPQ, Hw1].
  unfold bind at 1.
  pose proof (keeps_quiet_query QUERY_TYPE_DEVICE "list"
                (SensorList (deviceToken dev) ts_now) w1) as Hq2.
  destruct (_query _ _ _ w1) as [w2 [r|e]]; cbn [fst] in Hq2 |- *;
    [|eapply HPQ, Hquiet; eassumption].
  pose proof (Hquiet _ _ Hq2 Hw1) as Hw2.
  destruct r as [r|];
    [|destruct force; cbn [negb]; [apply HPQ, Hw2|apply Hretry, Hw2]].
  unfold bind at 1. unfold lift at 1.
  destruct (j_deviceValueVos r) as [vos|]; cbn [lookup_or]; [|apply HPQ, Hw2].
  unfold bind at 1. unfold gets at 1. unfold bind at 1. unfold lift at 1.
  destruct (read_values K (id (self w2)) ∅ vos) as [res|e] eqn:Hres;
    [|apply HPQ, Hw2].
  unfold bind at 1.
  pose proof (Hstore w2 vos res Hw2 Hres) as Hs.
  destruct (store_samples device_id ts_now res w2) as [w3 [[]|e]]; exact Hs.
Qed.

Lemma fetch_sensors_maintains K device_id ts_now force (P Q : World -> Prop) :
  (forall w w', quiet w w' -> P w -> P w') ->
  (forall w, P w -> Q w) ->
  (forall w vos res,
     P w -> read_values K (self w) ∅ vos = Returned res ->
     Q (store_samples device_id ts_now res w).1) ->
  forall w, P w -> Q (_fetch_sensors K device_id ts_now force w).1.
Proof.
  intros Hquiet HPQ Hstore. unfold _fetch_sensors.
  apply fetch_sensors_body_maintains; try assumption.
  apply fetch_sensors_body_maintains; try assumption.
Qed.

(** What [update_sensors] maintains: [Q], when a fetch that the poll
    asks for maintains it. *)
Lemma update_sensors_maintains K (Q : World -> Prop) :
  (forall device_id ts_now w h,
     Q w -> sensors (self w) !! device_id = Some h ->
     needs_fetch K ts_now h = true ->
     Q (_fetch_sensors K device_id ts_now false w).1) ->
  forall w, Q w -> Q (update_sensors K w).1.
Proof.
  intros Hfetch w. unfold update_sensors. unfold bind at 1. unfold now at 1.
  unfold bind at 1. unfold gets at 1. cbn [fst snd].
  generalize (ts_of (wall_clock w)) as ts_now.
  generalize (active_devices (self w)) as active. intros active ts_now. revert w.
  induction active as [|device_id active IH]; intros w Hw; cbn [for_each]; [exact Hw|].
  unfold bind at 1.
  assert (Hone : Q
            ((do s <- gets sensors;
              do h <- lift (lookup_or (KeyError in_sensors) (s !! device_id));
              if needs_fetch K ts_now h
              then (do _r <- _fetch_sensors K device_id ts_now false; ret tt)
              else ret tt) w).1).
  { unfold bind at 1. unfold gets at 1. unfold bind at 1. unfold lift at 1.
    destruct (sensors (self w) !! device_id) as [h|] eqn:Hh; cbn [lookup_or]; [|exact Hw].
    destruct (needs_fetch K ts_now h) eqn:Hneeds; [|exact Hw].
    unfold bind.
    pose proof (Hfetch device_id ts_now w h Hw Hh Hneeds) as Hf.
    destruct (_fetch_sensors K device_id ts_now false w) as [w1 [b|e]]; exact Hf. }
  destruct ((do s <- gets sensors; _) w) as [w1 [[]|e]]; cbn [fst] in Hone |- *;
    [apply IH, Hone|exact Hone].
Qed.

(** ** Histories stay in ascending order *)







Lemma typed_by_unit_empty a : typed_by_unit a ∅.
Proof. intros s v Hv. rewrite lookup_empty in Hv. discriminate. Qed.








(** ** Stored values are typed by their unit *)

Lemma typed_by_unit_units a a' res :
  units a' = units a -> typed_by_unit a res -> typed_by_unit a' res.
Proof. intros Hu H s v Hv. rewrite Hu. apply H, Hv. Qed.

Lemma typed_store_quiet K w w' : quiet w w' -> typed_store K w -> typed_store K w'.
Proof.
  intros ((Hu & Ht & Hh) & Hr & Hs) (H0 & H1 & H2). split; [|split].
  - rewrite Hu, Ht, Hh. exact H0.
  - intros d raw. rewrite Hr. intros Hraw.
    eapply typed_by_unit_units; [exact Hu|]. eapply H1, Hraw.
  - intros d h item Hh' Hin. eapply typed_by_unit_units; [exact Hu|].
    apply Hs in Hh' as [Hh'| ->]; [eapply H2; eassumption|inversion Hin].
Qed.

Lemma elem_of_dict_set {V} k (v : V) d item :
  item ∈ dict_set k v d -> item = (k, v) \/ item ∈ d.
Proof.
  induction d as [|[k' v'] d IH]; cbn [dict_set].
  - intros ->%list_elem_of_singleton. left. reflexivity.
  - destruct (k' =? k).
    + intros [->|H]%elem_of_cons; [left; reflexivity|right; right; exact H].
    + intros [->|H]%elem_of_cons; [right; left|].
      apply IH in H as [->|H]; [left; reflexivity|right; right; exact H].
Qed.

Lemma store_samples_typed K device_id ts_now res w :
  typed_store K w -> typed_by_unit (self w) res ->
  typed_store K (store_samples device_id ts_now res w).1.
Proof.
  intros (H0 & H1 & H2) Hres. unfold store_samples, bind, gets, lift, modify.
  cbn [fst snd]. destruct (sensors (self w) !! device_id) as [h|] eqn:Hh;
    cbn [lookup_or fst snd]; [|split; [|split]; assumption].
  split; [exact H0|]. split; cbn.
  - intros d raw. destruct (decide (device_id = d)) as [->|Hd].
    + rewrite lookup_insert_eq. intros [= <-]. exact Hres.
    + rewrite lookup_insert_ne by exact Hd. apply H1.
  - intros d h' item. destruct (decide (device_id = d)) as [->|Hd].
    + rewrite lookup_insert_eq. intros [= <-] Hin.
      apply elem_of_dict_set in Hin as [->|Hin]; [exact Hres|eapply H2; eassumption].
    + rewrite lookup_insert_ne by exact Hd. apply H2.
Qed.

Lemma fetch_sensors_typed K device_id ts_now force w :
  typed_store K w -> typed_store K (_fetch_sensors K device_id ts_now force w).1.
Proof.
  apply (fetch_sensors_maintains K device_id ts_now force (typed_store K) (typed_store K)).
  - intros w1 w2. apply typed_store_quiet.
  - intros w1 H. exact H.
  - intros w1 vos res Hw Hres. apply store_samples_typed; [exact Hw|].
    eapply read_values_typed; [|exact Hres]. apply typed_by_unit_empty.
Qed.

Lemma get_sensors_typed K device_id w :
  typed_store K w -> typed_store K (get_sensors K device_id w).1.
Proof.
  intros (H0 & H1 & H2). rewrite get_sensors_eq. cbn [fst].
  split; [exact H0|]. split; [exact H1|].
  unfold pruned. cbn. intros d h item.
  destruct (decide (device_id = d)) as [->|Hd].
  - rewrite lookup_insert_eq. intros [= <-] Hin.
    apply elem_of_filter_bool in Hin as [Hin _]. unfold history_of in Hin.
    destruct (sensors (self w) !! d) as [h0|] eqn:E; cbn [default] in Hin;
      [eapply H2; eassumption|inversion Hin].
  - rewrite lookup_insert_ne by exact Hd. apply H2.
Qed.

(** In every reachable state the units are those of [__init__] and every
    stored value is typed by its unit. *)
Lemma reachable_typed_store K allowed w : reachable_by K allowed w -> typed_store K w.
Proof.
  induction 1 as [username password tvoc hcho cloud0 t0|op w Hop _ IH|cloud' t w _ IH].
  - split; [reflexivity|].
    split; intros d x; cbn; rewrite lookup_empty; discriminate.
  - destruct op; cbn [call].
    + eapply typed_store_quiet; [apply keeps_quiet_connect|exact IH].
    + eapply typed_store_quiet; [apply keeps_quiet_update_devices|exact IH].
    + apply fetch_sensors_typed, IH.
    + apply update_sensors_maintains; [|exact IH].
      intros device_id ts_now w1 h Hw _ _. apply fetch_sensors_typed, Hw.
    + apply get_sensors_typed, IH.
    + exact IH.
    + eapply typed_store_quiet; [apply keeps_quiet_set_active|exact IH].
    + exact IH.
  - exact IH.
Qed.

(** ** Ingest, as a whole *)



(** ** The time-weighted average *)








(** * Further properties of the controller *)

(** ** The request parameters and the JSONP wrapper *)

Lemma substring_app_length s t :
  String.substring 0 (String.length s) (s +:+ t) = s.
Proof. induction s as [|c s IH]; [destruct t; reflexivity|]. simpl. f_equal. exact IH. Qed.

Lemma string_length_app s t :
  String.length (s +:+ t) = (String.length s + String.length t)%nat.
Proof. induction s as [|c s IH]; [reflexivity|]. simpl. f_equal. exact IH. Qed.

(** X2. The text that [_query] parses: a body of the form
    [jsoncallback(] payload [)] is cut down to the payload; the last
    character is dropped whatever it is; the bare prefix gives the empty
    text; a body that does not start with the prefix is parsed as it is. *)
Theorem jsonp_payload_unwraps :
  (forall s, jsonp_payload ("jsoncallback(" +:+ s +:+ ")") = s)
  /\ (forall s c, jsonp_payload ("jsoncallback(" +:+ s +:+ String c "") = s)
  /\ jsonp_payload "jsoncallback(" = ""
  /\ (forall s, String.prefix "jsoncallback(" s = false -> jsonp_payload s = s).
Proof.
  assert (H : forall s c, jsonp_payload ("jsoncallback(" +:+ s +:+ String c "") = s).
  { intros s c. unfold jsonp_payload.
    change (String.prefix "jsoncallback(" ("jsoncallback(" +:+ s +:+ String c ""))
      with (String.prefix "" (s +:+ String c "")).
    replace (String.prefix "" (s +:+ String c "")) with true by (destruct s; reflexivity).
    change (String.length ("jsoncallback(" +:+ s +:+ String c ""))
      with (13 + String.length (s +:+ String c ""))%nat.
    rewrite string_length_app. cbn [String.length].
    replace (13 + (String.length s + 1) - 13 - 1)%nat with (String.length s) by lia.
    change (String.substring 13 (String.length s) ("jsoncallback(" +:+ s +:+ String c ""))
      with (String.substring 0 (String.length s) (s +:+ String c "")).
    apply substring_app_length. }
  split; [intros s; apply H|]. split; [exact H|]. split; [reflexivity|].
  intros s Hs. unfold jsonp_payload. rewrite Hs. reflexivity.
Qed.

(** X3. Every request carries the session uid under [uid] and the session
    token under [safeToken] on the API surface and under [saveToken] on
    the device surface, never under the other name; and it carries the
    caller's extra parameters, none of which overrides the session. *)
Theorem params_sent_keys (r : Request) :
  params_sent r !! "uid" = Some (VInt (sent_uid r))
  /\ match query_type r with
     | QUERY_TYPE_API =>
         params_sent r !! "safeToken" = Some (VStr (sent_token r))
         /\ params_sent r !! "saveToken" = None
     | QUERY_TYPE_DEVICE =>
         params_sent r !! "saveToken" = Some (VStr (sent_token r))
         /\ params_sent r !! "safeToken" = None
     end
  /\ extra_dict (extra_params r) ⊆ params_sent r.
Proof.
  destruct r as [qt fn u t e]. unfold params_sent, query_params.
  cbn [query_type sent_uid sent_token extra_params].
  assert (He : bool_decide (extra_dict e = ∅) = false).
  { apply bool_decide_eq_false.
    destruct e; intros H;
      [ apply (f_equal (fun m => m !! "chr")) in H
      | apply (f_equal (fun m => m !! "action")) in H
      | apply (f_equal (fun m => m !! "callback")) in H ];
      vm_compute in H; discriminate. }
  rewrite He.
  split; [|split].
  - destruct qt, e; vm_compute; reflexivity.
  - destruct qt, e; split; vm_compute; reflexivity.
  - apply map_union_subseteq_l.
Qed.

(** ** [_query] *)

Lemma classify_result query_type reply r :
  classify query_type reply = Returned (Some r) <->
  exists status_code,
    reply = Http status_code (Some r)
    /\ (status_code = 200 \/ status_code = 204)
    /\ match query_type with
       | QUERY_TYPE_API => j_code r = Some 2000
       | QUERY_TYPE_DEVICE => j_returnCode r = Some 0
       end.
Proof.
  split.
  - destruct reply as [|status_code [response|]]; cbn; [discriminate| |].
    + destruct (status_code =? 200) eqn:E1; [|destruct (status_code =? 204) eqn:E2];
        cbn; try discriminate.
      all: assert (Hs : status_code = 200 \/ status_code = 204)
             by (first [left; apply Z.eqb_eq; assumption
                       |right; apply Z.eqb_eq; assumption]).
      all: destruct query_type;
        [ destruct (j_code response) as [code|] eqn:Ec; cbn; [|discriminate];
          destruct (code =? 102); [discriminate|];
          destruct (code =? 9999); [discriminate|];
          destruct (code =? 2000) eqn:E; cbn; [|discriminate];
          intros [= <-]; exists status_code; apply Z.eqb_eq in E; subst code;
          split; [reflexivity|split; [exact Hs|exact Ec]]
        | destruct (j_returnCode response) as [rc|] eqn:Ec; cbn; [|discriminate];
          destruct (rc =? 0) eqn:E; cbn; [|discriminate];
          intros [= <-]; exists status_code; apply Z.eqb_eq in E; subst rc;
          split; [reflexivity|split; [exact Hs|exact Ec]] ].
    + destruct ((status_code =? 200) || (status_code =? 204)); discriminate.
  - intros (status_code & -> & Hs & Hcode).
    assert (E : (status_code =? 200) || (status_code =? 204) = true)
      by (destruct Hs as [-> | ->]; reflexivity).
    cbn. rewrite E. cbn. destruct query_type; rewrite Hcode; reflexivity.
Qed.

(** X1. One call of [_query] sends exactly one request, which carries the
    session as it is.  On the API surface it leaves the account as it
    was, whatever the answer (a refused login, code 102, included); on
    the device surface it changes at most the uid, to -1000, and then it
    gives no result.  It gives a result exactly when the answer has HTTP
    status 200 or 204 and result code 2000 (API), resp. 0 (device). *)
Theorem query_effects query_type function extra_params w :
  let after := _query query_type function extra_params w in
  requests after.1 = requests w ++ [request_of query_type function extra_params w]
  /\ (query_type = QUERY_TYPE_API -> self after.1 = self w)
  /\ (self after.1 = self w
      \/ (query_type = QUERY_TYPE_DEVICE /\ after.2 = Returned None
          /\ self after.1 = set_uid (-1000) (self w)))
  /\ (forall r,
        after.2 = Returned (Some r) <->
        exists status_code,
          next_reply w = Http status_code (Some r)
          /\ (status_code = 200 \/ status_code = 204)
          /\ match query_type with
             | QUERY_TYPE_API => j_code r = Some 2000
             | QUERY_TYPE_DEVICE => j_returnCode r = Some 0
             end).
Proof.
  cbv zeta. rewrite _query_eq. cbn [fst snd].
  split; [|split; [|split]].
  - unfold after_query. destruct query_type; [reflexivity|].
    destruct (device_rejects _); reflexivity.
  - intros ->. reflexivity.
  - unfold after_query. destruct query_type; [left; reflexivity|].
    destruct (device_rejects (next_reply w)) eqn:Hrej; [|left; reflexivity].
    right. split; [reflexivity|]. split; [|reflexivity].
    unfold device_rejects in Hrej. unfold classify.
    destruct (next_reply w) as [|status_code [response|]]; try discriminate.
    destruct ((status_code =? 200) || (status_code =? 204)); [|discriminate].
    cbn in Hrej |- *. destruct (j_returnCode response) as [rc|]; [|discriminate].
    cbn. rewrite Hrej. reflexivity.
  - intros r. apply classify_result.
Qed.

(** ** [connect] *)

Lemma same_stores_refl w : same_stores w w.
Proof. repeat split. Qed.

Lemma same_stores_trans w1 w2 w3 :
  same_stores w1 w2 -> same_stores w2 w3 -> same_stores w1 w3.
Proof.
  unfold same_stores. intros H1 H2.
  destruct H1 as (?&?&?&?&?&?&?&?&?&?&?&?), H2 as (?&?&?&?&?&?&?&?&?&?&?&?).
  repeat split; congruence.
Qed.

Lemma same_stores_login_sent w : same_stores w (login_sent w).
Proof. repeat split. Qed.

Lemma same_stores_after_query query_type function extra_params w :
  same_stores w (after_query query_type function extra_params w).
Proof.
  unfold after_query. destruct query_type; [repeat split|].
  destruct (device_rejects _); repeat split.
Qed.

Lemma same_stores_set_uid u w : same_stores w (with_self (set_uid u) w).
Proof. repeat split. Qed.

Lemma requests_after_query query_type function extra_params w :
  requests (after_query query_type function extra_params w)
  = requests w ++ [request_of query_type function extra_params w].
Proof.
  unfold after_query. destruct query_type; [reflexivity|].
  destruct (device_rejects _); reflexivity.
Qed.

Lemma requests_login_request w :
  requests (login_sent w) = requests w ++ [login_request (self w)].
Proof. reflexivity. Qed.

(** One run of the body of [connect], forced. *)
Lemma connect_once w w' b :
  connect_body (ret false) true w = (w', Returned b) ->
  if b
  then exists r,
         classify QUERY_TYPE_API (next_reply w) = Returned (Some r)
         /\ j_uid r = Some (uid (self w'))
         /\ j_safeToken r = Some (safeToken (self w'))
         /\ w' = with_self (logged_in (uid (self w')) (safeToken (self w')))
                   (login_sent w)
  else classify QUERY_TYPE_API (next_reply w) = Returned None /\ w' = login_sent w.
Proof.
  rewrite connect_body_eq. cbn [negb andb].
  destruct (classify QUERY_TYPE_API (next_reply w)) as [[r|]|e] eqn:Hc.
  - destruct (j_uid r) as [u|] eqn:Hu; [|discriminate].
    destruct (j_safeToken r) as [t|] eqn:Ht; [|discriminate].
    intros [= <- <-]. exists r. split; [reflexivity|].
    split; [exact Hu|]. split; [exact Ht|reflexivity].
  - intros [= <- <-]. split; reflexivity.
  - discriminate.
Qed.

Lemma connect_once_requests w :
  requests (connect_body (ret false) true w).1
  = requests w ++ [login_request (self w)].
Proof.
  rewrite connect_body_eq. cbn [negb andb].
  destruct (classify _ _) as [[r|]|e];
    [destruct (j_uid r); [destruct (j_safeToken r)|]| |]; reflexivity.
Qed.

(** What [connect] leaves behind when it returns, seen from the state
    [w0] in which its last login request went out. *)
Lemma connect_once_outcome w w' b :
  connect_body (ret false) true w = (w', Returned b) ->
  sensors (self w') = sensors (self w)
  /\ sensors_raw (self w') = sensors_raw (self w)
  /\ active_devices (self w') = active_devices (self w)
  /\ if b
     then devices (self w') = ∅
          /\ exists r,
               classify QUERY_TYPE_API (cloud w (length (requests w)))
               = Returned (Some r)
               /\ j_uid r = Some (uid (self w'))
               /\ j_safeToken r = Some (safeToken (self w'))
     else uid (self w') = -1000 /\ safeToken (self w') = "anonymous"
          /\ devices (self w') = devices (self w)
          /\ is_connected (self w') = false.
Proof.
  intros H. apply connect_once in H. destruct b.
  - destruct H as (r & Hc & Hu & Ht & Hw). rewrite Hw at 1 2 3 4.
    split; [reflexivity|]. split; [reflexivity|]. split; [reflexivity|].
    split; [reflexivity|]. exists r. split; [exact Hc|]. split; assumption.
  - destruct H as [Hc ->]. repeat split.
Qed.

(** X4. What [connect] leaves behind when it returns.  It never touches
    the histories, the raw snapshots or the list of active devices.  If
    it returns True, either the call was unforced on a live session and
    nothing changed, or the device cache is empty and the session holds
    the uid and the token of the answer to the last login request.  If it
    returns False, the session is the anonymous one (uid -1000), the
    controller is disconnected and the device cache is as it was. *)
Theorem connect_outcome force w w' b :
  connect force w = (w', Returned b) ->
  sensors (self w') = sensors (self w)
  /\ sensors_raw (self w') = sensors_raw (self w)
  /\ active_devices (self w') = active_devices (self w)
  /\ if b
     then (force = false /\ 0 < uid (self w) /\ w' = w)
          \/ (devices (self w') = ∅
              /\ exists r,
                   classify QUERY_TYPE_API (cloud w (pred (length (requests w'))))
                   = Returned (Some r)
                   /\ j_uid r = Some (uid (self w'))
                   /\ j_safeToken r = Some (safeToken (self w')))
     else uid (self w') = -1000 /\ safeToken (self w') = "anonymous"
          /\ devices (self w') = devices (self w)
          /\ is_connected (self w') = false.
Proof.
  assert (Hone : forall w0 w1 c,
            connect_body (ret false) true w0 = (w1, Returned c) ->
            pred (length (requests w1)) = length (requests w0)).
  { intros w0 w1 c H. pose proof (connect_once_requests w0) as Hr.
    rewrite H in Hr. cbn [fst] in Hr. rewrite Hr, length_app. cbn. lia. }
  unfold connect. destruct force.
  - rewrite connect_forced_no_retry. intros H.
    pose proof (Hone _ _ _ H) as Hn.
    apply connect_once_outcome in H as (Hs & Hr & Ha & Hb).
    split; [exact Hs|]. split; [exact Hr|]. split; [exact Ha|].
    destruct b; [|exact Hb]. right. rewrite Hn. exact Hb.
  - intros H.
    destruct (0 <? uid (self w)) eqn:Hu.
    + rewrite connect_body_eq, Hu in H. cbn [negb andb] in H.
      injection H as <- <-. split; [reflexivity|]. split; [reflexivity|].
      split; [reflexivity|]. left. apply Z.ltb_lt in Hu. repeat split. exact Hu.
    + destruct (classify QUERY_TYPE_API (next_reply w)) as [[r|]|e] eqn:Hc.
      * assert (H1 : connect_body (ret false) true w = (w', Returned b)).
        { rewrite connect_body_eq in H |- *. rewrite Hu, Hc in H.
          cbn [negb andb] in H |- *. rewrite Hc. exact H. }
        pose proof (Hone _ _ _ H1) as Hn.
        apply connect_once_outcome in H1 as (Hs & Hr & Ha & Hb).
        split; [exact Hs|]. split; [exact Hr|]. split; [exact Ha|].
        destruct b; [|exact Hb]. right. rewrite Hn. exact Hb.
      * rewrite connect_body_eq, Hu, Hc in H. cbn [negb andb] in H.
        pose proof (Hone _ _ _ H) as Hn.
        apply connect_once_outcome in H as (Hs & Hr & Ha & Hb).
        split; [exact Hs|]. split; [exact Hr|]. split; [exact Ha|].
        destruct b; [|exact Hb]. right. rewrite Hn. exact Hb.
      * rewrite connect_body_eq, Hu, Hc in H. discriminate.
Qed.

Lemma connect_outcome_witness :
  uid (self (connect false Example.w_down).1) = -1000
  /\ is_connected (self (connect false Example.w_down).1) = false.
Proof.
  destruct (connect_outcome false Example.w_down
              (connect false Example.w_down).1 false)
    as (_ & _ & _ & Hu & _ & _ & Hc).
  - vm_compute. reflexivity.
  - split; [exact Hu|exact Hc].
Defined.

Lemma connect_issued force w :
  exists n, (n <= 2)%nat
    /\ requests (connect force w).1
       = requests w ++ replicate n (login_request (self w))
    /\ (force = false -> 0 < uid (self w) -> n = 0%nat)
    /\ (force = true -> n = 1%nat)
    /\ (uid (self w) <= 0 -> (1 <= n)%nat).
Proof.
  unfold connect. destruct force.
  - exists 1%nat. rewrite connect_forced_no_retry, connect_once_requests.
    split; [lia|]. split; [reflexivity|]. split; [discriminate|].
    split; [reflexivity|lia].
  - rewrite connect_body_eq. cbn [negb andb].
    destruct (0 <? uid (self w)) eqn:Hu.
    + exists 0%nat. cbn [fst replicate]. rewrite app_nil_r.
      split; [lia|]. split; [reflexivity|]. split; [reflexivity|].
      split; [discriminate|]. apply Z.ltb_lt in Hu. lia.
    + assert (Hle : forall n : nat, 0 < uid (self w) -> n = 0%nat)
        by (intros n Hpos; apply Z.ltb_ge in Hu; lia).
      destruct (classify QUERY_TYPE_API (next_reply w)) as [[r|]|e].
      * exists 1%nat. split; [lia|].
        split; [|split; [intros _; apply Hle|split; [discriminate|lia]]].
        destruct (j_uid r); [destruct (j_safeToken r)|]; reflexivity.
      * exists 2%nat. split; [lia|].
        split; [|split; [intros _; apply Hle|split; [discriminate|lia]]].
        rewrite connect_once_requests, requests_login_request, <- app_assoc.
        reflexivity.
      * exists 1%nat. split; [lia|].
        split; [|split; [intros _; apply Hle|split; [discriminate|lia]]].
        reflexivity.
Qed.

(** X5. Every request that [connect] sends is the same login request: it
    carries the account's e-mail address and password and the anonymous
    session (uid -1000, token "anonymous"), never the session that was
    live before.  There are at most two of them, none on an unforced call
    over a live session, and exactly one on a forced call. *)
Theorem connect_sends_fresh_logins force w :
  exists n, (n <= 2)%nat
    /\ issued w (connect force w).1 = replicate n (login_request (self w))
    /\ (force = false -> 0 < uid (self w) -> n = 0%nat)
    /\ (force = true -> n = 1%nat).
Proof.
  destruct (connect_issued force w) as (n & Hn & Hr & H0 & H1 & _).
  exists n. split; [exact Hn|]. split; [|split; assumption].
  apply issued_app. exact Hr.
Qed.

(** ** What the session steps maintain *)

Section Maintained.

Variable I : World -> Prop.
Hypothesis I_session : forall w w', same_stores w w' -> I w -> I w'.
Hypothesis I_logged_in : forall u t w, I w -> I (with_self (logged_in u t) w).

Lemma connect_body_maintains retry force :
  (forall w, I w -> I (retry w).1) ->
  forall w, I w -> I (connect_body retry force w).1.
Proof.
  intros Hretry w Hw. rewrite connect_body_eq.
  assert (Hs : I (login_sent w))
    by (eapply I_session; [apply same_stores_login_sent|exact Hw]).
  destruct (negb force && (0 <? uid (self w))); [exact Hw|].
  destruct (classify _ _) as [[r|]|e]; [| |exact Hs].
  - destruct (j_uid r) as [u|]; [|exact Hs].
    destruct (j_safeToken r) as [t|]; cbn [fst].
    + apply I_logged_in, Hs.
    + eapply I_session; [apply same_stores_set_uid|exact Hs].
  - destruct force; cbn [negb]; [exact Hs|apply Hretry, Hs].
Qed.

Lemma connect_maintains force w : I w -> I (connect force w).1.
Proof.
  unfold connect. apply connect_body_maintains.
  apply connect_body_maintains. intros w0 Hw0. exact Hw0.
Qed.

Hypothesis I_refreshed :
  forall tstamp l w, I w -> I (with_self (refreshed tstamp l) w).

Lemma update_devices_body_maintains retry force :
  (forall w, I w -> I (retry w).1) ->
  forall w, I w -> I (update_devices_body retry force w).1.
Proof.
  intros Hretry w Hw. rewrite update_devices_body_eq.
  pose proof (connect_maintains false w Hw) as H0.
  destruct (connect false w) as [w0 [[|]|e]]; cbn [fst] in H0; [|exact H0|exact H0].
  assert (Hs : I (devices_asked w0))
    by (eapply I_session; [apply same_stores_after_query|exact H0]).
  destruct (negb force && negb (bool_decide (devices (self w0) = ∅))); [exact H0|].
  destruct (classify _ _) as [[r|]|e]; [| |exact Hs].
  - destruct (j_deviceInfoBodyList r) as [l|]; [|exact Hs].
    cbn [fst]. apply I_refreshed, Hs.
  - destruct force; cbn [negb]; [exact Hs|apply Hretry, Hs].
Qed.

Lemma update_devices_maintains force w : I w -> I (update_devices force w).1.
Proof.
  unfold update_devices. apply update_devices_body_maintains.
  apply update_devices_body_maintains. intros w0 Hw0. exact Hw0.
Qed.

End Maintained.

(** ** [update_devices] *)

Lemma update_devices_cached w :
  0 < uid (self w) -> devices (self w) <> ∅ ->
  update_devices false w = (w, Returned (Some (devices (self w)))).
Proof.
  intros Hu Hne. unfold update_devices.
  rewrite update_devices_body_eq, (connect_connected w Hu). cbn [negb andb].
  rewrite bool_decide_eq_false_2 by exact Hne. reflexivity.
Qed.

(** X6. On a live session, an unforced [update_devices] over a cache that
    is not empty answers with the cache and sends nothing and changes
    nothing; a forced one sends exactly one request, the device-list
    query with the live session, whatever the answer is. *)
Theorem update_devices_uses_cache w :
  0 < uid (self w) ->
  (devices (self w) <> ∅ ->
   update_devices false w = (w, Returned (Some (devices (self w)))))
  /\ issued w (update_devices true w).1 = [devices_request (self w)].
Proof.
  intros Hu. split.
  - apply update_devices_cached, Hu.
  - apply issued_app. unfold update_devices.
    rewrite update_devices_body_eq, (connect_connected w Hu). cbn [negb andb].
    destruct (classify _ _) as [[r|]|e];
      [destruct (j_deviceInfoBodyList r)| |];
      cbn [fst]; unfold devices_asked; rewrite ?requests_after_query; reflexivity.
Qed.

Lemma update_devices_uses_cache_witness :
  update_devices false Example.w_cached
  = (Example.w_cached, Returned (Some {[ "A" := Example.dev_a ]}))
  /\ issued Example.w_cached (update_devices true Example.w_cached).1
     = [devices_request (self Example.w_cached)].
Proof.
  destruct (update_devices_uses_cache Example.w_cached) as [Hcache Hforced].
  - vm_compute. reflexivity.
  - split; [|exact Hforced]. apply Hcache.
    intros H. apply (f_equal (fun m => m !! "A")) in H. vm_compute in H.
    discriminate.
Defined.

(** ** Counting requests *)

Lemma count_asks_app f l1 l2 :
  count_asks f (l1 ++ l2) = (count_asks f l1 + count_asks f l2)%nat.
Proof. unfold count_asks. rewrite List.filter_app, length_app. reflexivity. Qed.

Lemma within_nil a b c : within a b c [].
Proof. unfold within, count_asks. cbn. repeat split; lia. Qed.

Lemma within_app a b c a' b' c' l l' :
  within a b c l -> within a' b' c' l' ->
  within (a + a') (b + b') (c + c') (l ++ l').
Proof.
  unfold within. intros (H0 & H1 & H2 & H3) (H0' & H1' & H2' & H3').
  rewrite length_app, !count_asks_app. repeat split; lia.
Qed.

Lemma within_weaken a b c a' b' c' l :
  (a <= a')%nat -> (b <= b')%nat -> (c <= c')%nat ->
  within a b c l -> within a' b' c' l.
Proof. unfold within. intros ? ? ? (H0 & H1 & H2 & H3). repeat split; lia. Qed.

Lemma within_login a : within 1 0 0 [login_request a].
Proof. unfold within, count_asks. cbn. repeat split; lia. Qed.

Lemma within_devices a : within 0 1 0 [devices_request a].
Proof. unfold within, count_asks. cbn. repeat split; lia. Qed.

Lemma within_sensors a dev ts_now : within 0 0 1 [sensors_request a dev ts_now].
Proof. unfold within, count_asks. cbn. repeat split; lia. Qed.

Lemma within_replicate_login n a : within n 0 0 (replicate n (login_request a)).
Proof.
  induction n as [|n IH]; [apply within_nil|].
  change (replicate (S n) (login_request a))
    with ([login_request a] ++ replicate n (login_request a)).
  apply (within_app 1 0 0 n 0 0); [apply within_login|exact IH].
Qed.

(** Two stretches of requests in a row. *)
Lemma sent_then a b c a' b' c' (w w1 w2 : World) l :
  requests w1 = requests w ++ l -> within a b c l ->
  (exists l', requests w2 = requests w1 ++ l' /\ within a' b' c' l') ->
  exists l2, requests w2 = requests w ++ l2
    /\ within (a + a') (b + b') (c + c') l2.
Proof.
  intros H1 Hl (l' & H2 & Hl'). exists (l ++ l').
  split; [rewrite H2, H1, app_assoc; reflexivity|].
  apply within_app; assumption.
Qed.

Lemma sent_nothing a b c (w : World) :
  exists l, requests w = requests w ++ l /\ within a b c l.
Proof.
  exists []. split; [rewrite app_nil_r; reflexivity|].
  apply (within_weaken 0 0 0); [lia|lia|lia|apply within_nil].
Qed.

Lemma sends_at_most_weaken {A} a b c a' b' c' (m : M A) :
  (a <= a')%nat -> (b <= b')%nat -> (c <= c')%nat ->
  sends_at_most a b c m -> sends_at_most a' b' c' m.
Proof.
  intros ? ? ? H w. destruct (H w) as (l & Hl & Hw). exists l.
  split; [exact Hl|]. eapply within_weaken; eassumption.
Qed.

Lemma connect_sends force : sends_at_most 2 0 0 (connect force).
Proof.
  intros w. destruct (connect_issued force w) as (n & Hn & Hr & _).
  exists (replicate n (login_request (self w))). split; [exact Hr|].
  eapply within_weaken; [exact Hn| | |apply within_replicate_login]; lia.
Qed.

(** What [update_devices] sends once [connect] is through. *)
Lemma update_devices_body_after_connect retry force a b :
  sends_at_most a b 0 retry ->
  forall w, exists l,
    requests (update_devices_body retry force w).1
    = requests (connect false w).1 ++ l
    /\ within a (1 + b) 0 l.
Proof.
  intros Hretry w. rewrite update_devices_body_eq.
  destruct (connect false w) as [w0 [[|]|e]]; cbn [fst];
    [|apply sent_nothing|apply sent_nothing].
  assert (Hasked : requests (devices_asked w0)
                   = requests w0 ++ [devices_request (self w0)])
    by (unfold devices_asked; apply requests_after_query).
  assert (Hone : exists l, requests (devices_asked w0) = requests w0 ++ l
                           /\ within a (1 + b) 0 l).
  { exists [devices_request (self w0)]. split; [exact Hasked|].
    eapply within_weaken; [| | |apply within_devices]; lia. }
  destruct (negb force && negb (bool_decide (devices (self w0) = ∅)));
    [apply sent_nothing|].
  destruct (classify _ _) as [[r|]|e]; [| |exact Hone].
  - destruct (j_deviceInfoBodyList r) as [l|]; exact Hone.
  - destruct force; cbn [negb]; [exact Hone|].
    destruct (Hretry (devices_asked w0)) as (l2 & Hl2 & Hw2).
    exists ([devices_request (self w0)] ++ l2).
    split; [rewrite Hl2, Hasked, <- app_assoc; reflexivity|].
    apply (within_app 0 1 0 a b 0); [apply within_devices|exact Hw2].
Qed.

Lemma update_devices_body_sends retry force a b :
  sends_at_most a b 0 retry ->
  sends_at_most (2 + a) (1 + b) 0 (update_devices_body retry force).
Proof.
  intros Hretry w.
  destruct (connect_sends false w) as (l0 & Hl0 & Hw0).
  apply (sent_then 2 0 0 a (1 + b) 0 w _ _ l0 Hl0 Hw0).
  apply update_devices_body_after_connect, Hretry.
Qed.

Lemma update_devices_retry_sends : sends_at_most 2 1 0 (update_devices_body (ret None) true).
Proof.
  apply (update_devices_body_sends _ true 0 0). intros w. apply sent_nothing.
Qed.


(** ** [_fetch_sensors], step by step *)

Lemma store_samples_eq device_id ts_now res w :
  store_samples device_id ts_now res w =
  match sensors (self w) !! device_id with
  | Some h => (stored device_id ts_now res h w, Returned tt)
  | None => (w, Raised (KeyError in_sensors))
  end.
Proof.
  unfold store_samples, bind, gets, lift, modify.
  destruct (sensors (self w) !! device_id) as [h|]; reflexivity.
Qed.

Lemma fetch_sensors_body_eq K retry device_id ts_now force w :
  _fetch_sensors_body K retry device_id ts_now force w =
  match update_devices false w with
  | (w1, Raised e) => (w1, Raised e)
  | (w1, Returned None) => (w1, Returned false)
  | (w1, Returned (Some devs)) =>
      if bool_decide (devs = ∅) then (w1, Returned false)
      else
        match devs !! device_id with
        | None => (w1, Raised (KeyError in_devices))
        | Some dev =>
            let w2 := polled dev ts_now w1 in
            match classify QUERY_TYPE_DEVICE (next_reply w1) with
            | Raised e => (w2, Raised e)
            | Returned None =>
                if negb force then retry w2 else (w2, Returned false)
            | Returned (Some r) =>
                match j_deviceValueVos r with
                | None => (w2, Raised (KeyError in_response))
                | Some vos =>
                    match read_values K (self w2) ∅ vos with
                    | Raised e => (w2, Raised e)
                    | Returned res =>
                        match sensors (self w2) !! device_id with
                        | None => (w2, Raised (KeyError in_sensors))
                        | Some h =>
                            (stored device_id ts_now res h w2, Returned true)
                        end
                    end
                end
            end
        end
  end.
Proof.
  unfold _fetch_sensors_body. unfold bind at 1.
  destruct (update_devices false w) as [w1 [[devs|]|e]]; [|reflexivity|reflexivity].
  destruct (bool_decide (devs = ∅)); [reflexivity|].
  unfold bind at 1. unfold lift at 1.
  destruct (devs !! device_id) as [dev|]; cbn [lookup_or]; [|reflexivity].
  unfold bind at 1. rewrite _query_eq. fold (polled dev ts_now w1). cbv zeta.
  destruct (classify QUERY_TYPE_DEVICE (next_reply w1)) as [[r|]|e];
    [|destruct force; reflexivity|reflexivity].
  unfold bind at 1. unfold lift at 1.
  destruct (j_deviceValueVos r) as [vos|]; cbn [lookup_or]; [|reflexivity].
  unfold bind at 1. unfold gets at 1. unfold bind at 1. unfold lift at 1.
  change (id (self (polled dev ts_now w1))) with (self (polled dev ts_now w1)).
  destruct (read_values K _ ∅ vos) as [res|e]; [|reflexivity].
  unfold bind at 1. rewrite store_samples_eq.
  destruct (sensors (self (polled dev ts_now w1)) !! device_id); reflexivity.
Qed.

Lemma requests_polled dev ts_now w :
  requests (polled dev ts_now w) = requests w ++ [sensors_request (self w) dev ts_now].
Proof. unfold polled. apply requests_after_query. Qed.

(** What [_fetch_sensors] sends once [update_devices] is through. *)
Lemma fetch_sensors_body_after_devices K retry device_id ts_now force a b c :
  sends_at_most a b c retry ->
  forall w, exists l,
    requests (_fetch_sensors_body K retry device_id ts_now force w).1
    = requests (update_devices false w).1 ++ l
    /\ within a b (1 + c) l.
Proof.
  intros Hretry w. rewrite fetch_sensors_body_eq.
  destruct (update_devices false w) as [w1 [[devs|]|e]]; cbn [fst];
    [|apply sent_nothing|apply sent_nothing].
  destruct (bool_decide (devs = ∅)); [apply sent_nothing|].
  destruct (devs !! device_id) as [dev|]; [|apply sent_nothing]. cbv zeta.
  assert (Hone : exists l, requests (polled dev ts_now w1) = requests w1 ++ l
                           /\ within a b (1 + c) l).
  { exists [sensors_request (self w1) dev ts_now].
    split; [apply requests_polled|].
    eapply within_weaken; [| | |apply within_sensors]; lia. }
  destruct (classify _ _) as [[r|]|e]; [| |exact Hone].
  - destruct (j_deviceValueVos r) as [vos|]; [|exact Hone].
    destruct (read_values _ _ _ _) as [res|e]; [|exact Hone].
    destruct (sensors _ !! device_id); exact Hone.
  - destruct force; cbn [negb]; [exact Hone|].
    destruct (Hretry (polled dev ts_now w1)) as (l2 & Hl2 & Hw2).
    exists ([sensors_request (self w1) dev ts_now] ++ l2).
    split; [rewrite Hl2, requests_polled, <- app_assoc; reflexivity|].
    apply (within_app 0 0 1 a b c); [apply within_sensors|exact Hw2].
Qed.






(** ** What a fetch does to the stored samples *)

Lemma samples_untouched_refl w : samples_untouched w w.
Proof. repeat split. left. reflexivity. Qed.

Lemma samples_untouched_trans w1 w2 w3 :
  samples_untouched w1 w2 -> samples_untouched w2 w3 -> samples_untouched w1 w3.
Proof.
  intros (?&?&?&?&?&?&?&?&H12) (?&?&?&?&?&?&?&?&H23).
  repeat (split; [congruence|]). intros d.
  destruct (H12 d) as [E1|[E1 E1']], (H23 d) as [E2|[E2 E2']].
  - left. congruence.
  - right. split; congruence.
  - right. split; congruence.
  - congruence.
Qed.

Lemma samples_untouched_session w w' : same_stores w w' -> samples_untouched w w'.
Proof.
  intros (?&?&?&?&?&?&Hs&?&?&?&?&?). repeat (split; [assumption|]).
  intros d. left. rewrite Hs. reflexivity.
Qed.

Lemma samples_untouched_logged_in u t w :
  samples_untouched w (with_self (logged_in u t) w).
Proof. repeat split. left. reflexivity. Qed.

Lemma samples_untouched_refreshed tstamp l w :
  samples_untouched w (with_self (refreshed tstamp l) w).
Proof.
  repeat (split; [reflexivity|]). intros d. cbn.
  unfold setdefault_histories. rewrite lookup_union, lookup_fmap.
  destruct (sensors (self w) !! d) as [h|] eqn:Hh.
  - left. destruct (store_devices _ _ _ !! d); reflexivity.
  - destruct (store_devices _ _ _ !! d); cbn; [right; split; reflexivity|left; reflexivity].
Qed.


Lemma update_devices_untouched force w :
  samples_untouched w (update_devices force w).1.
Proof.
  apply (update_devices_maintains (samples_untouched w)).
  - intros w1 w2 H12 H1. eapply samples_untouched_trans; [exact H1|].
    apply samples_untouched_session, H12.
  - intros u t w1 H1. eapply samples_untouched_trans; [exact H1|].
    apply samples_untouched_logged_in.
  - intros tstamp l w1 H1. eapply samples_untouched_trans; [exact H1|].
    apply samples_untouched_refreshed.
  - apply samples_untouched_refl.
Qed.

Lemma connect_untouched force w : samples_untouched w (connect force w).1.
Proof.
  apply (connect_maintains (samples_untouched w)).
  - intros w1 w2 H12 H1. eapply samples_untouched_trans; [exact H1|].
    apply samples_untouched_session, H12.
  - intros u t w1 H1. eapply samples_untouched_trans; [exact H1|].
    apply samples_untouched_logged_in.
  - apply samples_untouched_refl.
Qed.

Lemma samples_untouched_polled dev ts_now w :
  samples_untouched w (polled dev ts_now w).
Proof. apply samples_untouched_session, same_stores_after_query. Qed.

Lemma fetched_after K device_id ts_now w w1 res :
  samples_untouched w w1 -> fetched K device_id ts_now w1 res ->
  fetched K device_id ts_now w res.
Proof.
  intros H1. unfold fetched. destruct res.2 as [[|]|e].
  - intros (w2 & vos & r & h & H2 & Hrest). exists w2, vos, r, h.
    split; [eapply samples_untouched_trans; eassumption|exact Hrest].
  - intros H2. eapply samples_untouched_trans; eassumption.
  - intros H2. eapply samples_untouched_trans; eassumption.
Qed.

Lemma fetch_sensors_body_fetched K retry device_id ts_now force :
  (forall w, fetched K device_id ts_now w (retry w)) ->
  forall w,
    fetched K device_id ts_now w
      (_fetch_sensors_body K retry device_id ts_now force w).
Proof.
  intros Hretry w. rewrite fetch_sensors_body_eq.
  pose proof (update_devices_untouched false w) as H1.
  destruct (update_devices false w) as [w1 [[devs|]|e]]; cbn [fst] in H1;
    [|exact H1|exact H1].
  destruct (bool_decide (devs = ∅)); [exact H1|].
  destruct (devs !! device_id) as [dev|]; [|exact H1]. cbv zeta.
  assert (H2 : samples_untouched w (polled dev ts_now w1)).
  { eapply samples_untouched_trans; [exact H1|apply samples_untouched_polled]. }
  destruct (classify _ _) as [[r|]|e]; [| |exact H2].
  - destruct (j_deviceValueVos r) as [vos|]; [|exact H2].
    destruct (read_values _ _ _ _) as [res|e] eqn:Hres; [|exact H2].
    destruct (sensors _ !! device_id) as [h|] eqn:Hh; [|exact H2].
    exists (polled dev ts_now w1), vos, res, h.
    split; [exact H2|]. split; [exact Hres|]. split; [exact Hh|reflexivity].
  - destruct force; cbn [negb]; [exact H2|].
    eapply fetched_after; [exact H2|apply Hretry].
Qed.

Lemma fetch_sensors_fetched K device_id ts_now force w :
  fetched K device_id ts_now w (_fetch_sensors K device_id ts_now force w).
Proof.
  unfold _fetch_sensors. apply fetch_sensors_body_fetched.
  apply fetch_sensors_body_fetched. intros w0. apply samples_untouched_refl.
Qed.

(** ** The ingest loop *)

Lemma read_value_dom K a res sensor res' :
  read_value K a res sensor = Returned res' ->
  dom res' = (if accepted K sensor then {[ seq sensor ]} else ∅) ∪ dom res.
Proof.
  unfold read_value, accepted.
  destruct (is_null (content sensor)); cbn [orb negb andb].
  { intros [= <-]. symmetry. apply (left_id_L ∅ (∪)). }
  destruct (bool_decide (seq sensor ∈ dom (SENSORS K)));
    destruct (bool_decide (seq sensor ∈ dom (BINARY_SENSORS K)));
    cbn [orb negb andb].
  4: { intros [= <-]. symmetry. apply (left_id_L ∅ (∪)). }
  all: destruct (float_of_content _) as [x|]; cbn [obind]; [|discriminate].
  all: destruct (if (seq sensor =? 8) && _ then _ else _) as [y|];
         cbn [obind]; [|discriminate].
  all: destruct (units a !! seq sensor); cbn [lookup_or obind]; [|discriminate].
  all: intros [= <-]; rewrite dom_insert_L; reflexivity.
Qed.

Lemma read_values_dom K a l : forall res res',
  read_values K a res l = Returned res' ->
  dom res' = list_to_set (seq <$> List.filter (accepted K) l) ∪ dom res.
Proof.
  induction l as [|sensor l IH]; intros res res' H; cbn [read_values] in H.
  - injection H as <-. cbn. symmetry. apply (left_id_L ∅ (∪)).
  - destruct (read_value K a res sensor) as [res1|] eqn:H1; [|discriminate].
    cbn [obind] in H. apply IH in H. apply read_value_dom in H1.
    rewrite H, H1. cbn [List.filter].
    destruct (accepted K sensor); cbn [fmap list_fmap list_to_set].
    + rewrite (assoc_L (∪)), (comm_L (∪) (list_to_set _) {[ seq sensor ]}).
      reflexivity.
    + rewrite (left_id_L ∅ (∪)). reflexivity.
Qed.

Lemma accepted_known K sensor :
  accepted K sensor = true ->
  seq sensor ∈ dom (SENSORS K) ∪ dom (BINARY_SENSORS K).
Proof.
  unfold accepted. intros [_ H]%andb_true_iff.
  apply orb_true_iff in H as [H|H]; apply bool_decide_eq_true in H;
    [apply elem_of_union_l|apply elem_of_union_r]; exact H.
Qed.

(** X13. The sample set that the ingest loop builds reports exactly the
    ids of the readings it does not skip: those whose content is not null
    and whose id has a row in [SENSORS] or in [BINARY_SENSORS].  So every
    id of an ingested sample set is an id of one of the two tables. *)
Theorem read_values_keeps_known_ids K a vos res :
  read_values K a ∅ vos = Returned res ->
  dom res = list_to_set (seq <$> List.filter (accepted K) vos)
  /\ dom res ⊆ dom (SENSORS K) ∪ dom (BINARY_SENSORS K).
Proof.
  intros H. apply read_values_dom in H.
  rewrite dom_empty_L, (right_id_L ∅ (∪)) in H. split; [exact H|].
  rewrite H. intros sensor_id Hin.
  apply elem_of_list_to_set, list_elem_of_fmap in Hin as (sensor & -> & Hs).
  apply elem_of_filter_bool in Hs as [_ Hacc].
  apply accepted_known, Hacc.
Qed.

Lemma read_values_keeps_known_ids_witness :
  dom ({[ 1 := PInt 0; 4 := PInt 21 ]} : SampleSet) = {[ 1; 4 ]}.
Proof.
  destruct (read_values_keeps_known_ids (Example.K 300) Example.ppb_account
              [ {| seq := 1; content := Number 0 |};
                {| seq := 2; content := Number 5 |};
                {| seq := 4; content := Number (217 # 10) |};
                {| seq := 5; content := Null |} ]
              {[ 1 := PInt 0; 4 := PInt 21 ]}) as [Hdom _].
  - vm_compute. reflexivity.
  - rewrite Hdom. vm_compute. reflexivity.
Defined.

(** ** A fetch that stores, a fetch that fails *)

Lemma dict_get_set {V} k (v : V) d : dict_get k (dict_set k v d) = Some v.
Proof.
  induction d as [|[k' v'] d IH]; cbn.
  - rewrite Z.eqb_refl. reflexivity.
  - destruct (k' =? k) eqn:E; cbn; [rewrite Z.eqb_refl; reflexivity|].
    rewrite E. exact IH.
Qed.

Lemma dict_get_set_ne {V} k k' (v : V) d :
  k' <> k -> dict_get k' (dict_set k v d) = dict_get k' d.
Proof.
  intros Hne. induction d as [|[k0 v0] d IH]; cbn.
  - apply Z.eqb_neq in Hne. rewrite Z.eqb_sym, Hne. reflexivity.
  - destruct (k0 =? k) eqn:E; cbn.
    + apply Z.eqb_eq in E. subst k0.
      assert (E : (k =? k') = false) by (apply Z.eqb_neq; congruence).
      rewrite E. reflexivity.
    + destruct (k0 =? k'); [reflexivity|exact IH].
Qed.

Lemma history_of_untouched w w' device_id :
  samples_untouched w w' -> history_of device_id w' = history_of device_id w.
Proof.
  intros (_&_&_&_&_&_&_&_&Hs). unfold history_of.
  destruct (Hs device_id) as [->|[-> ->]]; reflexivity.
Qed.

(** X9. When [_fetch_sensors] returns True it has stored one sample set:
    it is the raw snapshot of the device (what [get_sensors_raw] answers
    from then on), it is the history entry at [ts_now] of the history as
    it was, it is logged as the latest ingest, and its ids are ids of the
    tables [SENSORS] and [BINARY_SENSORS].  The raw snapshots and the
    histories of the other devices are as they were. *)
Theorem fetch_sensors_stores K device_id ts_now force w w' :
  _fetch_sensors K device_id ts_now force w = (w', Returned true) ->
  exists res,
    get_sensors_raw device_id w' = (w', Returned (Some res))
    /\ sensors_raw (self w') = <[device_id := res]> (sensors_raw (self w))
    /\ history_of device_id w' = dict_set ts_now res (history_of device_id w)
    /\ dict_get ts_now (history_of device_id w') = Some res
    /\ ingests w' = (device_id, ts_now, res) :: ingests w
    /\ (forall other, other <> device_id ->
          history_of other w' = history_of other w)
    /\ dom res ⊆ dom (SENSORS K) ∪ dom (BINARY_SENSORS K).
Proof.
  intros H. pose proof (fetch_sensors_fetched K device_id ts_now force w) as Hf.
  rewrite H in Hf. unfold fetched in Hf. cbn [fst snd] in Hf.
  destruct Hf as (w2 & vos & res & h & Hsu & Hread & Hh & ->).
  assert (Hhist : history_of device_id w2 = h)
    by (unfold history_of; rewrite Hh; reflexivity).
  rewrite (history_of_untouched _ _ device_id Hsu) in Hhist.
  assert (Hnew : history_of device_id (stored device_id ts_now res h w2)
                 = dict_set ts_now res h).
  { unfold history_of, stored. cbn. rewrite lookup_insert_eq. reflexivity. }
  exists res. split; [|split; [|split; [|split; [|split; [|split]]]]].
  - unfold get_sensors_raw, bind, gets, ret. cbn. rewrite lookup_insert_eq.
    reflexivity.
  - destruct Hsu as (_&_&_&_&Hr&_). cbn. rewrite Hr. reflexivity.
  - rewrite Hnew, Hhist. reflexivity.
  - rewrite Hnew. apply dict_get_set.
  - destruct Hsu as (_&_&_&_&_&Hi&_). cbn. rewrite Hi. reflexivity.
  - intros other Hne. rewrite <- (history_of_untouched _ _ other Hsu).
    unfold history_of, stored. cbn. rewrite lookup_insert_ne by congruence.
    reflexivity.
  - pose proof (read_values_dom K _ _ _ _ Hread) as Hdom.
    rewrite dom_empty_L, (right_id_L ∅ (∪)) in Hdom. rewrite Hdom.
    intros sensor_id Hin.
    apply elem_of_list_to_set, list_elem_of_fmap in Hin as (sensor & -> & Hs).
    apply elem_of_filter_bool in Hs as [_ Hacc]. apply accepted_known, Hacc.
Qed.

Lemma fetch_sensors_stores_witness :
  exists res,
    get_sensors_raw "A" Example.w_fetched = (Example.w_fetched, Returned (Some res))
    /\ dict_get 40 (history_of "A" Example.w_fetched) = Some res
    /\ ingests Example.w_fetched = [("A", 40, res)].
Proof.
  destruct (fetch_sensors_stores (Example.K 300) "A" 40 false
              (start (Example.K 300) "user@example.org" "secret" false false
                 Example.serving 40)
              Example.w_fetched)
    as (res & Hraw & _ & _ & Hget & Hing & _).
  - vm_compute. reflexivity.
  - exists res. split; [exact Hraw|]. split; [exact Hget|exact Hing].
Defined.

(** X10. Unless [_fetch_sensors] returns True it leaves every stored
    sample alone, whether it returns False or raises: the raw snapshots,
    the log of ingests, the units and the list of active devices are as
    they were, and every history is as it was or is new and empty. *)
Theorem fetch_sensors_fails_cleanly K device_id ts_now force w w' o :
  _fetch_sensors K device_id ts_now force w = (w', o) ->
  o <> Returned true ->
  samples_untouched w w'.
Proof.
  intros H Ho. pose proof (fetch_sensors_fetched K device_id ts_now force w) as Hf.
  rewrite H in Hf. unfold fetched in Hf. cbn [fst snd] in Hf.
  destruct o as [[|]|e]; [contradiction|exact Hf|exact Hf].
Qed.

Lemma fetch_sensors_fails_cleanly_witness :
  samples_untouched Example.w_down
    (_fetch_sensors (Example.K 25) "dev" 40 false Example.w_down).1.
Proof.
  apply (fetch_sensors_fails_cleanly (Example.K 25) "dev" 40 false Example.w_down
           _ (Returned false)).
  - vm_compute. reflexivity.
  - discriminate.
Defined.

(** ** A rejected sensor query is followed by a login *)

Lemma classify_rejected reply :
  device_rejects reply = true ->
  classify QUERY_TYPE_DEVICE reply = Returned None.
Proof.
  unfold device_rejects, classify.
  destruct reply as [|status_code [response|]]; try discriminate.
  destruct ((status_code =? 200) || (status_code =? 204)); [|discriminate].
  cbn. destruct (j_returnCode response) as [rc|]; [|discriminate].
  cbn. intros ->. reflexivity.
Qed.

Lemma connect_logs_in_first w :
  uid (self w) <= 0 ->
  exists l, requests (connect false w).1
            = requests w ++ login_request (self w) :: l.
Proof.
  intros Hu. destruct (connect_issued false w) as (n & _ & Hr & _ & _ & Hn).
  specialize (Hn Hu). destruct n as [|n]; [lia|].
  exists (replicate n (login_request (self w))). exact Hr.
Qed.

Lemma update_devices_after_connect force w :
  exists l, requests (update_devices force w).1 = requests (connect false w).1 ++ l.
Proof.
  unfold update_devices.
  destruct (update_devices_body_after_connect _ force 2 1
              update_devices_retry_sends w) as (l & Hl & _).
  exists l. exact Hl.
Qed.

(** X11. The session does not outlive a rejection.  On a live session
    with the device cached, when the device surface rejects the sensor
    query (a non-zero [returnCode]), an unforced [_fetch_sensors] goes on
    with a login: the request right after the sensor query is the login
    request. *)
Theorem fetch_sensors_logs_in_again K device_id ts_now w dev :
  0 < uid (self w) ->
  devices (self w) !! device_id = Some dev ->
  device_rejects (next_reply w) = true ->
  exists l,
    issued w (_fetch_sensors K device_id ts_now false w).1
    = sensors_request (self w) dev ts_now :: login_request (self w) :: l.
Proof.
  intros Hu Hdev Hrej.
  assert (Hne : devices (self w) <> ∅).
  { intros H. rewrite H, lookup_empty in Hdev. discriminate. }
  unfold _fetch_sensors.
  rewrite fetch_sensors_body_eq, (update_devices_cached w Hu Hne).
  rewrite bool_decide_eq_false_2 by exact Hne. rewrite Hdev. cbv zeta.
  rewrite (classify_rejected _ Hrej). cbn [negb].
  set (w2 := polled dev ts_now w).
  assert (Hw2 : requests w2 = requests w ++ [sensors_request (self w) dev ts_now])
    by apply requests_polled.
  assert (Hout : uid (self w2) <= 0
                 /\ login_request (self w2) = login_request (self w)).
  { unfold w2, polled, after_query. rewrite Hrej. split; [cbn; lia|reflexivity]. }
  destruct Hout as [Hout Hlogin].
  destruct (fetch_sensors_body_after_devices K (ret false) device_id ts_now true
              0 0 0 (fun w0 => sent_nothing 0 0 0 w0) w2) as (l3 & Hl3 & _).
  destruct (update_devices_after_connect false w2) as (l2 & Hl2).
  destruct (connect_logs_in_first w2 Hout) as (l1 & Hl1).
  exists (l1 ++ l2 ++ l3). apply issued_app.
  rewrite Hl3, Hl2, Hl1, Hw2, Hlogin, <- !app_assoc. reflexivity.
Qed.

Lemma fetch_sensors_logs_in_again_witness :
  exists l,
    issued Cases.w_stale
      (_fetch_sensors (Example.K 25) "A" 40 false Cases.w_stale).1
    = sensors_request (self Cases.w_stale) Example.dev_a 40
      :: login_request (self Cases.w_stale) :: l.
Proof.
  apply (fetch_sensors_logs_in_again (Example.K 25) "A" 40 Cases.w_stale
           Example.dev_a).
  - vm_compute. reflexivity.
  - vm_compute. reflexivity.
  - vm_compute. reflexivity.
Defined.

(** ** What a fetch maintains *)

Section Kept.

Variable K : Const.
Variable I : World -> Prop.
Hypothesis I_session : forall w w', same_stores w w' -> I w -> I w'.
Hypothesis I_logged_in : forall u t w, I w -> I (with_self (logged_in u t) w).
Hypothesis I_refreshed :
  forall tstamp l w, I w -> I (with_self (refreshed tstamp l) w).
Hypothesis I_stored :
  forall device_id ts_now res h w,
    I w -> sensors (self w) !! device_id = Some h ->
    I (stored device_id ts_now res h w).

Lemma fetch_sensors_body_keeps retry device_id ts_now force :
  (forall w, I w -> I (retry w).1) ->
  forall w, I w -> I (_fetch_sensors_body K retry device_id ts_now force w).1.
Proof.
  intros Hretry w Hw. rewrite fetch_sensors_body_eq.
  pose proof (update_devices_maintains I I_session I_logged_in I_refreshed
                false w Hw) as H1.
  destruct (update_devices false w) as [w1 [[devs|]|e]]; cbn [fst] in H1;
    [|exact H1|exact H1].
  destruct (bool_decide (devs = ∅)); [exact H1|].
  destruct (devs !! device_id) as [dev|]; [|exact H1]. cbv zeta.
  assert (H2 : I (polled dev ts_now w1))
    by (eapply I_session; [apply same_stores_after_query|exact H1]).
  destruct (classify _ _) as [[r|]|e]; [| |exact H2].
  - destruct (j_deviceValueVos r) as [vos|]; [|exact H2].
    destruct (read_values _ _ _ _) as [res|e]; [|exact H2].
    destruct (sensors _ !! device_id) as [h|] eqn:Hh; [|exact H2].
    cbn [fst]. apply I_stored; assumption.
  - destruct force; cbn [negb]; [exact H2|apply Hretry, H2].
Qed.

Lemma fetch_sensors_keeps device_id ts_now force w :
  I w -> I (_fetch_sensors K device_id ts_now force w).1.
Proof.
  unfold _fetch_sensors. apply fetch_sensors_body_keeps.
  apply fetch_sensors_body_keeps. intros w0 Hw0. exact Hw0.
Qed.

Lemma update_sensors_keeps w : I w -> I (update_sensors K w).1.
Proof.
  apply update_sensors_maintains. intros device_id ts_now w0 h Hw0 _ _.
  apply fetch_sensors_keeps, Hw0.
Qed.

End Kept.

(** ** The setter of [active_devices] *)

Lemma set_active_loop devs : forall w w' o,
  for_each devs (fun device_id =>
    modify (fun a =>
      set_sensors (match sensors a !! device_id with
                   | Some _ => sensors a
                   | None => <[device_id := []]> (sensors a)
                   end) a)) w = (w', o) ->
  o = Returned tt
  /\ w' = with_self (set_sensors (sensors (self w'))) w
  /\ (forall device_id, device_id ∈ devs ->
        is_Some (sensors (self w') !! device_id))
  /\ (forall device_id,
        sensors (self w') !! device_id = sensors (self w) !! device_id
        \/ (device_id ∈ devs /\ sensors (self w) !! device_id = None
            /\ sensors (self w') !! device_id = Some [])).
Proof.
  induction devs as [|d devs IH]; intros w w' o; cbn [for_each].
  - intros [= <- <-]. split; [reflexivity|].
    split; [destruct w as [[] ? ? ? ?]; reflexivity|].
    split; [intros x Hx; inversion Hx|]. intros x. left. reflexivity.
  - unfold bind at 1. unfold modify at 1.
    set (w1 := with_self _ w). intros H.
    destruct (IH w1 w' o H) as (Hret & Hframe & Hsome & Hrest).
    assert (Hd : is_Some (sensors (self w1) !! d)).
    { unfold w1. cbn. destruct (sensors (self w) !! d) eqn:E; [rewrite E; eauto|].
      rewrite lookup_insert_eq. eauto. }
    assert (H1 : forall x,
              sensors (self w1) !! x = sensors (self w) !! x
              \/ (x = d /\ sensors (self w) !! x = None
                  /\ sensors (self w1) !! x = Some [])).
    { intros x. unfold w1. cbn. destruct (sensors (self w) !! d) eqn:E;
        [left; reflexivity|].
      destruct (decide (x = d)) as [->|Hne].
      - right. rewrite lookup_insert_eq. repeat split. exact E.
      - left. apply lookup_insert_ne. congruence. }
    split; [exact Hret|]. split; [rewrite Hframe at 1; reflexivity|]. split.
    + intros x Hx. apply elem_of_cons in Hx as [->|Hx]; [|apply Hsome, Hx].
      destruct (Hrest d) as [E|(_ & E & _)]; [rewrite E; exact Hd|].
      rewrite E in Hd. destruct Hd as [? [=]].
    + intros x. destruct (Hrest x) as [E|(Hin & E1 & E2)].
      * destruct (H1 x) as [E'|(-> & E1 & E2)].
        -- left. congruence.
        -- right. split; [left|]. split; [exact E1|]. congruence.
      * destruct (H1 x) as [E'|(-> & E1' & E2')].
        -- right. split; [right; exact Hin|]. split; [congruence|exact E2].
        -- congruence.
Qed.

Lemma set_active_spec devs w w' o :
  set_active devs w = (w', o) ->
  o = Returned tt
  /\ w' = with_self
            (fun a => set_sensors (sensors (self w')) (set_active_devices devs a)) w
  /\ (forall device_id, device_id ∈ devs ->
        is_Some (sensors (self w') !! device_id))
  /\ (forall device_id,
        sensors (self w') !! device_id = sensors (self w) !! device_id
        \/ (device_id ∈ devs /\ sensors (self w) !! device_id = None
            /\ sensors (self w') !! device_id = Some [])).
Proof.
  unfold set_active. unfold bind at 1. unfold modify at 1. intros H.
  destruct (set_active_loop devs _ w' o H) as (Hret & Hframe & Hsome & Hrest).
  split; [exact Hret|]. split; [rewrite Hframe at 1; reflexivity|].
  split; [exact Hsome|exact Hrest].
Qed.

(** X17. Assigning [active_devices] makes the list the active one and
    gives every device of the list a history: the histories that were
    there are kept as they are, a listed device that had none gets an
    empty one, and nothing else of the state changes. *)
Theorem set_active_gives_histories devs w :
  let after := set_active devs w in
  after.2 = Returned tt
  /\ after.1
     = with_self
         (fun a => set_sensors (sensors (self after.1)) (set_active_devices devs a)) w
  /\ (forall device_id, device_id ∈ devs ->
        is_Some (sensors (self after.1) !! device_id))
  /\ (forall device_id,
        sensors (self after.1) !! device_id = sensors (self w) !! device_id
        \/ (device_id ∈ devs /\ sensors (self w) !! device_id = None
            /\ sensors (self after.1) !! device_id = Some [])).
Proof.
  cbv zeta. apply set_active_spec. apply surjective_pairing.
Qed.

(** ** The device cache in the reachable states *)

(** The cache stays consistent when the devices stay and no history goes. *)
Lemma cache_consistent_kept w w' :
  devices (self w') = devices (self w) ->
  (forall device_id, is_Some (sensors (self w) !! device_id) ->
                     is_Some (sensors (self w') !! device_id)) ->
  cache_consistent w -> cache_consistent w'.
Proof.
  intros Hd Hs Hc device_id dev Hdev. rewrite Hd in Hdev.
  destruct (Hc device_id dev Hdev) as (Hid & Hstamp & Hh).
  split; [exact Hid|]. split; [exact Hstamp|apply Hs, Hh].
Qed.

Lemma cache_consistent_session w w' :
  same_stores w w' -> cache_consistent w -> cache_consistent w'.
Proof.
  intros (_&_&_&_&_&Hd&Hs&_). apply cache_consistent_kept; [exact Hd|].
  intros device_id. rewrite Hs. trivial.
Qed.

Lemma cache_consistent_logged_in u t w :
  cache_consistent w -> cache_consistent (with_self (logged_in u t) w).
Proof. intros _ device_id dev H. cbn in H. rewrite lookup_empty in H. discriminate. Qed.

Lemma cache_consistent_refreshed tstamp l w :
  cache_consistent w -> cache_consistent (with_self (refreshed tstamp l) w).
Proof.
  intros Hc device_id dev' H. cbn in H |- *.
  assert (Hh : is_Some (setdefault_histories
                          (store_devices tstamp l (devices (self w)))
                          (sensors (self w)) !! device_id)).
  { unfold setdefault_histories. rewrite lookup_union, lookup_fmap, H.
    destruct (sensors (self w) !! device_id); cbn; eauto. }
  apply store_devices_lookup in H as [(dev & _ & Hid & ->)|[_ H]].
  - split; [exact Hid|]. split; [cbn; eauto|exact Hh].
  - destruct (Hc device_id dev' H) as (Hid & Hstamp & _).
    split; [exact Hid|]. split; [exact Hstamp|exact Hh].
Qed.

Lemma cache_consistent_stored device_id ts_now res h w :
  cache_consistent w -> cache_consistent (stored device_id ts_now res h w).
Proof.
  apply cache_consistent_kept; [reflexivity|]. intros d Hd. cbn.
  destruct (decide (device_id = d)) as [->|Hne].
  - rewrite lookup_insert_eq. eauto.
  - rewrite lookup_insert_ne by exact Hne. exact Hd.
Qed.

Lemma cache_consistent_pruned K device_id w :
  cache_consistent w -> cache_consistent (pruned K device_id w).
Proof.
  apply cache_consistent_kept; [reflexivity|]. intros d Hd. cbn.
  destruct (decide (device_id = d)) as [->|Hne].
  - rewrite lookup_insert_eq. eauto.
  - rewrite lookup_insert_ne by exact Hne. exact Hd.
Qed.

Lemma cache_consistent_set_active devs w :
  cache_consistent w -> cache_consistent (set_active devs w).1.
Proof.
  destruct (set_active_spec devs w _ _ (surjective_pairing _))
    as (_ & Hframe & _ & Hrest).
  apply cache_consistent_kept; [rewrite Hframe; reflexivity|].
  intros d Hd. destruct (Hrest d) as [E|(_ & _ & E)]; rewrite E; [exact Hd|eauto].
Qed.

Lemma reachable_cache_consistent K w : reachable K w -> cache_consistent w.
Proof.
  induction 1 as [username password tvoc hcho cloud0 t0|op w _ _ IH|cloud' t w _ IH].
  - intros device_id dev H. cbn in H. rewrite lookup_empty in H. discriminate.
  - destruct op; cbn [call].
    + apply connect_maintains;
        [apply cache_consistent_session|apply cache_consistent_logged_in|exact IH].
    + apply update_devices_maintains;
        [apply cache_consistent_session|apply cache_consistent_logged_in
        |apply cache_consistent_refreshed|exact IH].
    + apply fetch_sensors_keeps;
        [apply cache_consistent_session|apply cache_consistent_logged_in
        |apply cache_consistent_refreshed
        |intros; apply cache_consistent_stored; assumption|exact IH].
    + apply update_sensors_keeps;
        [apply cache_consistent_session|apply cache_consistent_logged_in
        |apply cache_consistent_refreshed
        |intros; apply cache_consistent_stored; assumption|exact IH].
    + rewrite get_sensors_eq. cbn [fst]. apply cache_consistent_pruned, IH.
    + exact IH.
    + apply cache_consistent_set_active, IH.
    + exact IH.
  - exact IH.
Qed.



(** ** The exceptions of the session, the cache and the fetch *)

Lemma classify_raises query_type reply e :
  classify query_type reply = Raised e ->
  e = JSONDecodeError \/ e = KeyError in_response.
Proof.
  unfold classify. destruct reply as [|status_code json]; [discriminate|].
  destruct ((status_code =? 200) || (status_code =? 204)); [|discriminate].
  destruct json as [response|]; cbn; [|intros [= <-]; left; reflexivity].
  destruct query_type.
  - destruct (j_code response) as [code|]; cbn; [|intros [= <-]; right; reflexivity].
    destruct (code =? 102); [discriminate|].
    destruct (code =? 9999); [discriminate|].
    destruct (code =? 2000); discriminate.
  - destruct (j_returnCode response) as [rc|]; cbn;
      [|intros [= <-]; right; reflexivity].
    destruct (rc =? 0); discriminate.
Qed.

Lemma connect_body_raises retry force :
  (forall w w' e, retry w = (w', Raised e) ->
                  e = JSONDecodeError \/ e = KeyError in_response) ->
  forall w w' e, connect_body retry force w = (w', Raised e) ->
                 e = JSONDecodeError \/ e = KeyError in_response.
Proof.
  intros Hretry w w' e. rewrite connect_body_eq.
  destruct (negb force && (0 <? uid (self w))); [discriminate|].
  destruct (classify _ _) as [[r|]|e0] eqn:Hc.
  - destruct (j_uid r); [|intros [= _ <-]; right; reflexivity].
    destruct (j_safeToken r); [discriminate|intros [= _ <-]; right; reflexivity].
  - destruct force; cbn [negb]; [discriminate|apply Hretry].
  - intros [= _ <-]. eapply classify_raises, Hc.
Qed.

Lemma connect_raises force w w' e :
  connect force w = (w', Raised e) ->
  e = JSONDecodeError \/ e = KeyError in_response.
Proof.
  unfold connect. apply connect_body_raises. apply connect_body_raises.
  discriminate.
Qed.

Lemma update_devices_body_raises retry force :
  (forall w w' e, retry w = (w', Raised e) ->
                  e = JSONDecodeError \/ e = KeyError in_response) ->
  forall w w' e, update_devices_body retry force w = (w', Raised e) ->
                 e = JSONDecodeError \/ e = KeyError in_response.
Proof.
  intros Hretry w w' e. rewrite update_devices_body_eq.
  destruct (connect false w) as [w0 [[|]|e0]] eqn:Hconn.
  - destruct (negb force && negb (bool_decide (devices (self w0) = ∅)));
      [discriminate|].
    destruct (classify _ _) as [[r|]|e1] eqn:Hc.
    + destruct (j_deviceInfoBodyList r); [discriminate|].
      intros [= _ <-]. right. reflexivity.
    + destruct force; cbn [negb]; [discriminate|apply Hretry].
    + intros [= _ <-]. eapply classify_raises, Hc.
  - discriminate.
  - intros [= _ <-]. eapply connect_raises, Hconn.
Qed.

Lemma update_devices_raises force w w' e :
  update_devices force w = (w', Raised e) ->
  e = JSONDecodeError \/ e = KeyError in_response.
Proof.
  unfold update_devices. apply update_devices_body_raises.
  apply update_devices_body_raises. discriminate.
Qed.

(** [update_devices] answers with the cache itself. *)
Lemma update_devices_body_result retry force :
  (forall w w' devs, retry w = (w', Returned (Some devs)) ->
                     devs = devices (self w')) ->
  forall w w' devs, update_devices_body retry force w = (w', Returned (Some devs)) ->
                    devs = devices (self w').
Proof.
  intros Hretry w w' devs. rewrite update_devices_body_eq.
  destruct (connect false w) as [w0 [[|]|e0]]; [|discriminate|discriminate].
  destruct (negb force && negb (bool_decide (devices (self w0) = ∅))).
  { intros [= <- <-]. reflexivity. }
  destruct (classify _ _) as [[r|]|e1]; [| |discriminate].
  - destruct (j_deviceInfoBodyList r); [|discriminate].
    cbv zeta. intros [= <- <-]. reflexivity.
  - destruct force; cbn [negb]; [discriminate|apply Hretry].
Qed.

Lemma update_devices_result force w w' devs :
  update_devices force w = (w', Returned (Some devs)) ->
  devs = devices (self w').
Proof.
  unfold update_devices. apply update_devices_body_result.
  apply update_devices_body_result. discriminate.
Qed.

Lemma read_value_raises K a res sensor e :
  dom (SENSORS K) ∪ dom (BINARY_SENSORS K) ⊆ dom (units a) ->
  read_value K a res sensor = Raised e ->
  e = ValueError \/ e = ZeroDivisionError.
Proof.
  intros Hunits. unfold read_value.
  destruct (is_null (content sensor)); cbn [orb]; [discriminate|].
  destruct (bool_decide (seq sensor ∈ dom (SENSORS K))) eqn:E1;
    destruct (bool_decide (seq sensor ∈ dom (BINARY_SENSORS K))) eqn:E2;
    cbn [negb andb]; [| | |discriminate].
  all: assert (seq sensor ∈ dom (units a)) as [u Hu]%elem_of_dom
         by (apply Hunits;
             first [apply bool_decide_eq_true in E1; apply elem_of_union_l, E1
                   |apply bool_decide_eq_true in E2; apply elem_of_union_r, E2]).
  all: destruct (content sensor); cbn [float_of_content obind];
         try (intros [= <-]; left; reflexivity).
  all: rewrite Hu; unfold to_parts.
  all: destruct ((seq sensor =? 8) && _);
         [destruct (Num.truediv _ (MWEIGTH_TVOC K)); cbn;
            [discriminate|intros [= <-]; right; reflexivity]|].
  all: destruct ((seq sensor =? 7) && _);
         [destruct (Num.truediv _ (MWEIGTH_HCHO K)); cbn;
            [discriminate|intros [= <-]; right; reflexivity]|].
  all: discriminate.
Qed.

Lemma read_values_raises K a l : forall res e,
  dom (SENSORS K) ∪ dom (BINARY_SENSORS K) ⊆ dom (units a) ->
  read_values K a res l = Raised e ->
  e = ValueError \/ e = ZeroDivisionError.
Proof.
  induction l as [|sensor l IH]; intros res e Hunits; cbn [read_values];
    [discriminate|].
  destruct (read_value K a res sensor) as [res1|e1] eqn:H1; cbn [obind].
  - apply IH, Hunits.
  - intros [= <-]. eapply read_value_raises; eassumption.
Qed.

Lemma stores_polled dev ts_now w :
  sensors (self (polled dev ts_now w)) = sensors (self w)
  /\ units (self (polled dev ts_now w)) = units (self w).
Proof.
  destruct (same_stores_after_query QUERY_TYPE_DEVICE "list"
              (SensorList (deviceToken dev) ts_now) w)
    as (_&_&_&_&_&_&Hs&_&Hu&_).
  split; assumption.
Qed.

(** The state in which the fetch is safe: a consistent cache, and a unit
    for every id of the two tables. *)
Lemma fetch_sensors_body_safe K retry device_id ts_now force :
  (forall w w' e,
     cache_consistent w ->
     dom (SENSORS K) ∪ dom (BINARY_SENSORS K) ⊆ dom (units (self w)) ->
     retry w = (w', Raised e) -> own_table_error e = false) ->
  forall w w' e,
    cache_consistent w ->
    dom (SENSORS K) ∪ dom (BINARY_SENSORS K) ⊆ dom (units (self w)) ->
    _fetch_sensors_body K retry device_id ts_now force w = (w', Raised e) ->
    own_table_error e = false.
Proof.
  intros Hretry w w' e Hc Hu. rewrite fetch_sensors_body_eq.
  pose proof (update_devices_maintains cache_consistent cache_consistent_session
                cache_consistent_logged_in cache_consistent_refreshed
                false w Hc) as Hc1.
  pose proof (update_devices_untouched false w) as (Hu1 & _).
  destruct (update_devices false w) as [w1 [[devs|]|e0]] eqn:Hupd;
    cbn [fst] in Hc1, Hu1.
  - apply update_devices_result in Hupd. subst devs.
    destruct (bool_decide (devices (self w1) = ∅)); [discriminate|].
    destruct (devices (self w1) !! device_id) as [dev|] eqn:Hdev;
      [|intros [= _ <-]; reflexivity].
    cbv zeta.
    destruct (classify _ _) as [[r|]|e1] eqn:Hcl.
    + destruct (j_deviceValueVos r) as [vos|]; [|intros [= _ <-]; reflexivity].
      destruct (read_values _ _ _ _) as [res|e2] eqn:Hread.
      * destruct (Hc1 device_id dev Hdev) as (_ & _ & [h Hh]).
        rewrite (proj1 (stores_polled dev ts_now w1)), Hh. discriminate.
      * intros [= _ <-].
        apply read_values_raises in Hread as [-> | ->]; [reflexivity|reflexivity|].
        rewrite (proj2 (stores_polled dev ts_now w1)), Hu1. exact Hu.
    + destruct force; cbn [negb]; [discriminate|].
      apply Hretry.
      * eapply cache_consistent_session; [apply same_stores_after_query|exact Hc1].
      * rewrite (proj2 (stores_polled dev ts_now w1)), Hu1. exact Hu.
    + intros [= _ <-]. apply classify_raises in Hcl as [-> | ->]; reflexivity.
  - discriminate.
  - intros [= _ <-]. apply update_devices_raises in Hupd as [-> | ->]; reflexivity.
Qed.



(** ** [update_sensors] *)

Lemma needs_fetch_recent K ts_now h newest :
  newest ∈ keys h ->
  (inject_Z ts_now - UPDATE_MIN_INTERVAL K <= inject_Z newest)%Q ->
  needs_fetch K ts_now h = false.
Proof.
  intros Hin Hle. unfold needs_fetch.
  destruct (max_list (keys h)) as [m|] eqn:Hm.
  - apply max_list_Some in Hm as [_ Hmax].
    apply not_true_iff_false. rewrite ltb_Qlt. cbn. rewrite Qred_correct.
    apply Qle_not_lt. eapply Qle_trans; [exact Hle|].
    rewrite <- Zle_Qle. apply Hmax, Hin.
  - apply max_list_None in Hm. rewrite Hm in Hin. inversion Hin.
Qed.

(** The loop of [update_sensors] over devices that need no fetch. *)
Lemma update_sensors_loop_idle K ts_now active : forall w,
  (forall device_id, device_id ∈ active ->
     exists h, sensors (self w) !! device_id = Some h
               /\ needs_fetch K ts_now h = false) ->
  for_each active (fun device_id =>
    do s <- gets sensors;
    do h <- lift (lookup_or (KeyError in_sensors) (s !! device_id));
    if needs_fetch K ts_now h
    then (do _r <- _fetch_sensors K device_id ts_now false; ret tt)
    else ret tt) w = (w, Returned tt).
Proof.
  induction active as [|d active IH]; intros w Hall; cbn [for_each]; [reflexivity|].
  destruct (Hall d) as (h & Hh & Hn); [left|].
  unfold bind at 1. unfold bind at 1. unfold gets at 1. unfold bind at 1.
  unfold lift at 1. rewrite Hh. cbn [lookup_or]. rewrite Hn. unfold ret at 1.
  apply IH. intros x Hx. apply Hall. right. exact Hx.
Qed.

Lemma update_sensors_unfold K w :
  update_sensors K w =
  for_each (active_devices (self w)) (fun device_id =>
    do s <- gets sensors;
    do h <- lift (lookup_or (KeyError in_sensors) (s !! device_id));
    if needs_fetch K (ts_of (wall_clock w)) h
    then (do _r <- _fetch_sensors K device_id (ts_of (wall_clock w)) false; ret tt)
    else ret tt) w.
Proof. reflexivity. Qed.

(** X14. The poll is throttled: when every active device has a stored
    sample that is at most [UPDATE_MIN_INTERVAL] seconds old,
    [update_sensors] sends no request and changes nothing. *)
Theorem update_sensors_throttles K w :
  (forall device_id, device_id ∈ active_devices (self w) ->
     exists h newest,
       sensors (self w) !! device_id = Some h
       /\ newest ∈ keys h
       /\ (inject_Z (ts_of (wall_clock w)) - UPDATE_MIN_INTERVAL K
           <= inject_Z newest)%Q) ->
  update_sensors K w = (w, Returned tt).
Proof.
  intros Hall. rewrite update_sensors_unfold. apply update_sensors_loop_idle.
  intros d Hd. destruct (Hall d Hd) as (h & newest & Hh & Hin & Hle).
  exists h. split; [exact Hh|]. eapply needs_fetch_recent; eassumption.
Qed.

Lemma update_sensors_throttles_witness :
  update_sensors (Example.K 300) (elapse Example.serving 45 Example.w_polled)
  = (elapse Example.serving 45 Example.w_polled, Returned tt).
Proof.
  apply update_sensors_throttles. intros device_id Hd.
  vm_compute in Hd. apply list_elem_of_singleton in Hd. subst device_id.
  exists [(40, {[ 1 := PInt 0; 4 := PInt 21; 8 := PFloat (123 # 1000) ]})], 40.
  split; [vm_compute; reflexivity|]. split; [left|]. vm_compute. discriminate.
Defined.

(** X15. [update_sensors] looks up the history of an active device
    without a guard: when the devices before it need no fetch and it has
    no history (its id was appended to the list, not assigned with it),
    the poll raises [KeyError] there, having sent nothing and changed
    nothing, and the devices after it are not polled. *)
Theorem update_sensors_needs_histories K w recent device_id rest :
  active_devices (self w) = recent ++ device_id :: rest ->
  (forall d, d ∈ recent ->
     exists h, sensors (self w) !! d = Some h
               /\ needs_fetch K (ts_of (wall_clock w)) h = false) ->
  sensors (self w) !! device_id = None ->
  update_sensors K w = (w, Raised (KeyError in_sensors)).
Proof.
  intros Hact Hrecent Hnone. rewrite update_sensors_unfold, Hact.
  generalize (ts_of (wall_clock w)) as ts_now, Hrecent. clear Hact Hrecent.
  intros ts_now Hrecent.
  induction recent as [|d recent IH]; cbn [app for_each].
  - unfold bind at 1. unfold bind at 1. unfold gets at 1. unfold bind at 1.
    unfold lift at 1. rewrite Hnone. reflexivity.
  - destruct (Hrecent d) as (h & Hh & Hn); [left|].
    unfold bind at 1. unfold bind at 1. unfold gets at 1. unfold bind at 1.
    unfold lift at 1. rewrite Hh. cbn [lookup_or]. rewrite Hn. unfold ret at 1.
    apply IH. intros x Hx. apply Hrecent. right. exact Hx.
Qed.

Lemma update_sensors_needs_histories_witness :
  update_sensors (Example.K 300) (call (Example.K 300) (AppendActiveDevice "A")
                                    (start (Example.K 300) "user@example.org" "secret"
                                       false false Example.serving 40))
  = (call (Example.K 300) (AppendActiveDevice "A")
       (start (Example.K 300) "user@example.org" "secret"
          false false Example.serving 40),
     Raised (KeyError in_sensors)).
Proof.
  apply (update_sensors_needs_histories (Example.K 300) _ [] "A" []).
  - reflexivity.
  - intros d Hd. inversion Hd.
  - reflexivity.
Defined.

(** One turn of the loop of [update_sensors]: at most one ingest, stamped
    with the time of the poll. *)
Lemma update_sensors_turn K ts_now device_id w w' o :
  (do s <- gets sensors;
   do h <- lift (lookup_or (KeyError in_sensors) (s !! device_id));
   if needs_fetch K ts_now h
   then (do _r <- _fetch_sensors K device_id ts_now false; ret tt)
   else ret tt) w = (w', o) ->
  active_devices (self w') = active_devices (self w)
  /\ (ingests w' = ingests w
      \/ exists res, ingests w' = (device_id, ts_now, res) :: ingests w).
Proof.
  unfold bind at 1. unfold gets at 1. unfold bind at 1. unfold lift at 1.
  destruct (sensors (self w) !! device_id) as [h|]; cbn [lookup_or];
    [|intros [= <- <-]; split; [reflexivity|left; reflexivity]].
  destruct (needs_fetch K ts_now h);
    [|intros [= <- <-]; split; [reflexivity|left; reflexivity]].
  unfold bind.
  pose proof (fetch_sensors_fetched K device_id ts_now false w) as Hf.
  unfold fetched in Hf.
  destruct (_fetch_sensors K device_id ts_now false w) as [w1 [[|]|e]];
    cbn [fst snd] in Hf; intros [= <- <-].
  - destruct Hf as (w2 & vos & r & h2 & (_&_&_&Ha&_&Hi&_) & _ & _ & ->).
    split; [exact Ha|]. right. exists r. cbn. rewrite Hi. reflexivity.
  - destruct Hf as (_&_&_&Ha&_&Hi&_). split; [exact Ha|left; exact Hi].
  - destruct Hf as (_&_&_&Ha&_&Hi&_). split; [exact Ha|left; exact Hi].
Qed.

Lemma update_sensors_loop_stamps K ts_now active : forall w,
  exists new,
    ingests
      (for_each active (fun device_id =>
         do s <- gets sensors;
         do h <- lift (lookup_or (KeyError in_sensors) (s !! device_id));
         if needs_fetch K ts_now h
         then (do _r <- _fetch_sensors K device_id ts_now false; ret tt)
         else ret tt) w).1 = new ++ ingests w
    /\ Forall (fun i : string * Z * SampleSet => i.1.1 ∈ active /\ i.1.2 = ts_now) new
    /\ (length new <= length active)%nat.
Proof.
  induction active as [|d active IH]; intros w; cbn [for_each].
  - exists []. split; [reflexivity|]. split; [constructor|cbn; lia].
  - unfold bind at 1.
    destruct ((do s <- gets sensors; _) w) as [w1 o] eqn:Hturn.
    apply update_sensors_turn in Hturn as [_ Hone].
    destruct o as [[]|e]; cbn [fst].
    + destruct (IH w1) as (new & Hnew & Hall & Hlen). rewrite Hnew.
      assert (Hall' : Forall (fun i : string * Z * SampleSet =>
                                i.1.1 ∈ d :: active /\ i.1.2 = ts_now) new).
      { eapply Forall_impl; [exact Hall|]. intros i [Hi Ht].
        split; [right; exact Hi|exact Ht]. }
      destruct Hone as [->|[res ->]].
      * exists new. split; [reflexivity|]. split; [exact Hall'|cbn; lia].
      * exists (new ++ [(d, ts_now, res)]).
        split; [rewrite <- app_assoc; reflexivity|]. split.
        -- apply Forall_app. split; [exact Hall'|].
           constructor; [|constructor]. split; [left|reflexivity].
        -- rewrite length_app. cbn. lia.
    + destruct Hone as [->|[res ->]].
      * exists []. split; [reflexivity|]. split; [constructor|cbn; lia].
      * exists [(d, ts_now, res)]. split; [reflexivity|]. split.
        -- constructor; [|constructor]. split; [left|reflexivity].
        -- cbn. lia.
Qed.

(** X16. One poll takes the time once: every sample set that
    [update_sensors] stores is stored for an active device under the
    timestamp [int(now)] of the start of the poll, and there is at most
    one of them for each entry of the list of active devices. *)
Theorem update_sensors_stamps_with_poll_time K w :
  exists new,
    ingests (update_sensors K w).1 = new ++ ingests w
    /\ Forall (fun i : string * Z * SampleSet =>
                 i.1.1 ∈ active_devices (self w)
                 /\ i.1.2 = ts_of (wall_clock w)) new
    /\ (length new <= length (active_devices (self w)))%nat.
Proof. rewrite update_sensors_unfold. apply update_sensors_loop_stamps. Qed.

(** ** [get_sensors] at the edges *)

(** X18. For a device without samples (no history, or an empty one)
    [get_sensors] answers None, and does not raise; it leaves the device
    an empty history and changes nothing else. *)
Theorem get_sensors_without_history K device_id w :
  history_of device_id w = [] ->
  get_sensors K device_id w
  = (with_self (fun a => set_sensors (<[device_id := []]> (sensors a)) a) w,
     Returned None).
Proof.
  intros Hh. rewrite get_sensors_eq. unfold pruned. cbv zeta. rewrite Hh.
  reflexivity.
Qed.

Lemma get_sensors_without_history_witness :
  get_sensors (Example.K 25) "unknown" Example.w_prune
  = (with_self (fun a => set_sensors (<["unknown" := []]> (sensors a)) a)
       Example.w_prune,
     Returned None).
Proof. apply get_sensors_without_history. reflexivity. Defined.

Lemma sublist_filter_bool {A} (f : A -> bool) (l : list A) :
  sublist (List.filter f l) l.
Proof.
  induction l as [|x l IH]; cbn; [constructor|].
  destruct (f x); [apply sublist_skip|apply sublist_cons]; exact IH.
Qed.

(** The entry with the greatest timestamp passes the pruning test. *)
Lemma prune_keeps_newest ts_overdue h item :
  item ∈ h -> (forall k, k ∈ keys h -> k <= item.1) ->
  item ∈ prune (ts_min_of ts_overdue h) h.
Proof.
  intros Hin Hmax. apply elem_of_filter_bool. split; [exact Hin|].
  destruct (ts_min_of_cases ts_overdue h) as [(g & Hg & Hgin & _)|[Hg Hall]].
  - rewrite Hg. cbn. apply Z.leb_le, Hmax, Hgin.
  - rewrite Hg. apply leb_Qle, Qlt_le_weak, leb_false_Qlt, Hall.
    apply elem_of_keys. exists item.2. destruct item. exact Hin.
Qed.

(** X19. [get_sensors] only prunes: whatever it answers, and also when it
    raises, the state it leaves differs from the one it found in the
    history of the device asked for, and in nothing else (no request is
    sent, no raw snapshot touched); that history is a sub-list of what it
    was, in the same order; and the entry with the greatest timestamp is
    never pruned. *)
Theorem get_sensors_only_prunes K device_id w :
  let after := (get_sensors K device_id w).1 in
  after = with_self
            (fun a => set_sensors (<[device_id := history_of device_id after]>
                                     (sensors a)) a) w
  /\ sublist (history_of device_id after) (history_of device_id w)
  /\ (forall item, item ∈ history_of device_id w ->
        (forall k, k ∈ keys (history_of device_id w) -> k <= item.1) ->
        item ∈ history_of device_id after).
Proof.
  cbv zeta. rewrite history_of_get_sensors, get_sensors_eq. cbn [fst].
  split; [reflexivity|]. split; [apply sublist_filter_bool|].
  intros item Hin Hmax. apply prune_keeps_newest; assumption.
Qed.

(** ** The shape of an answer of [get_sensors] *)

Lemma rounded_type u total average :
  if is_parts_unit u
  then exists z, rounded u total average = PInt z
  else exists q, rounded u total average = PFloat q.
Proof.
  unfold rounded. destruct (is_parts_unit u).
  - destruct average; cbn; eauto.
  - unfold Num.round. eauto.
Qed.

(** X20. An answer of [get_sensors] reports exactly the sensor ids of the
    raw snapshot of the device, whatever ids the history holds; and the
    value of every id other than 1 is an [int] when the unit of the
    sensor is ppm or ppb and a [float] otherwise. *)
Theorem get_sensors_answer_shape K device_id w w' out :
  get_sensors K device_id w = (w', Returned (Some out)) ->
  exists raw,
    sensors_raw (self w) !! device_id = Some raw
    /\ dom out = dom raw
    /\ forall sensor_id v,
         out !! sensor_id = Some v -> sensor_id <> 1 ->
         exists u, units (self w) !! sensor_id = Some u
           /\ if is_parts_unit u then exists z, v = PInt z
              else exists q, v = PFloat q.
Proof.
  rewrite get_sensors_eq. cbv zeta. intros [= _ H]. revert H.
  unfold averaged. destruct (prune _ _) as [|item kept]; [discriminate|].
  destruct (sensors_raw (self w) !! device_id) as [raw|]; cbn [lookup_or obind];
    [|discriminate].
  destruct (weighted_sums _ _ raw _) as [sums|] eqn:Hsums; cbn [obind];
    [|discriminate].
  destruct (window_length _ _ _) as [length|]; cbn [obind]; [|discriminate].
  pose proof (average_and_round_spec (units (self w)) raw length sums) as Hspec.
  destruct (average_and_round _ _ _ _) as [out'|]; cbn [obind]; [|discriminate].
  intros [= ->]. destruct Hspec as [Hout Hfin].
  apply weighted_sums_dom in Hsums.
  exists raw. split; [reflexivity|]. split.
  - rewrite <- Hsums. apply set_eq. intros s. rewrite !elem_of_dom, Hout.
    destruct (sums !! s) as [total|] eqn:Hs; cbn.
    + destruct (Hfin s total Hs) as [v ->]. cbn. split; eauto.
    + split; intros [? [=]].
  - intros s v Hv Hs1. rewrite Hout in Hv.
    destruct (sums !! s) as [total|] eqn:Hs; cbn in Hv; [|discriminate].
    destruct (finish _ _ _ s total) as [v'|] eqn:Hf; cbn in Hv; [|discriminate].
    injection Hv as ->.
    destruct (finish_average _ _ _ _ _ _ Hs1 Hf) as (u & average & Hu & _ & ->).
    exists u. split; [exact Hu|apply rounded_type].
Qed.

Lemma get_sensors_answer_shape_witness :
  exists raw,
    sensors_raw (self Example.w_alert) !! "dev" = Some raw
    /\ dom ({[ 1 := PInt 1; 4 := PFloat (22423 # 1000) ]} : SampleSet) = dom raw.
Proof.
  destruct (get_sensors_answer_shape (Example.K 25) "dev" Example.w_alert
              (get_sensors (Example.K 25) "dev" Example.w_alert).1
              {[ 1 := PInt 1; 4 := PFloat (22423 # 1000) ]})
    as (raw & Hraw & Hdom & _).
  - vm_compute. reflexivity.
  - exists raw. split; [exact Hraw|exact Hdom].
Defined.

(** ** One sample set for each timestamp *)














(** ** [__init__] *)

(** X23. A new account is disconnected, with the anonymous session and
    empty caches.  Its table of units has the ids of [SENSORS] and of
    [BINARY_SENSORS]; an id of [SENSORS] has the unit of its row there,
    also when [BINARY_SENSORS] has a row for it, except that sensor 8
    (resp. 7) has ppb when the TVOC (resp. HCHO) preference is set; an id
    that is in [BINARY_SENSORS] only has the entry of its row there. *)
Theorem init_builds_units K email pass tvoc hcho :
  let a := init K email pass tvoc hcho in
  is_connected a = false
  /\ dom (units a) = dom (SENSORS K) ∪ dom (BINARY_SENSORS K)
  /\ (forall sensor_id u,
        SENSORS K !! sensor_id = Some u ->
        units a !! sensor_id
        = Some (if (tvoc && (sensor_id =? 8)) || (hcho && (sensor_id =? 7))
                then CONCENTRATION_PARTS_PER_BILLION else u))
  /\ (forall sensor_id,
        SENSORS K !! sensor_id = None ->
        units a !! sensor_id = BINARY_SENSORS K !! sensor_id).
Proof.
  cbv zeta. split; [reflexivity|]. split; [apply initial_units_dom|].
  split; [intros sensor_id u; apply initial_units_sensor|].
  intros sensor_id Hnone. cbn. unfold initial_units.
  rewrite lookup_union, map_lookup_imap, Hnone. cbn.
  destruct (BINARY_SENSORS K !! sensor_id); reflexivity.
Qed.

(** ** A constant signal *)













(** ** What [update_devices] answers *)






(** ** A poll over a list of active devices given by assignment *)

Lemma active_have_histories_kept w w' :
  active_devices (self w') = active_devices (self w) ->
  (forall device_id, is_Some (sensors (self w) !! device_id) ->
                     is_Some (sensors (self w') !! device_id)) ->
  active_have_histories w -> active_have_histories w'.
Proof.
  intros Ha Hs H device_id Hd. rewrite Ha in Hd. apply Hs, H, Hd.
Qed.

Lemma active_have_histories_untouched w w' :
  samples_untouched w w' -> active_have_histories w -> active_have_histories w'.
Proof.
  intros (_&_&_&Ha&_&_&_&_&Hs). apply active_have_histories_kept; [exact Ha|].
  intros d Hd. destruct (Hs d) as [E|[_ E]]; rewrite E; [exact Hd|eauto].
Qed.

Lemma active_have_histories_stored device_id ts_now res h w :
  active_have_histories w ->
  active_have_histories (stored device_id ts_now res h w).
Proof.
  apply active_have_histories_kept; [reflexivity|]. intros d Hd. cbn.
  destruct (decide (device_id = d)) as [->|Hne].
  - rewrite lookup_insert_eq. eauto.
  - rewrite lookup_insert_ne by exact Hne. exact Hd.
Qed.

Lemma fetch_sensors_active K device_id ts_now force w :
  active_have_histories w ->
  active_have_histories (_fetch_sensors K device_id ts_now force w).1.
Proof.
  apply fetch_sensors_keeps.
  - intros w1 w2 H12. apply active_have_histories_untouched,
      samples_untouched_session, H12.
  - intros u t w1. apply active_have_histories_untouched,
      samples_untouched_logged_in.
  - intros tstamp l w1. apply active_have_histories_untouched,
      samples_untouched_refreshed.
  - intros d ts res h w1 H1 _. apply active_have_histories_stored, H1.
Qed.

Lemma reachable_active_have_histories K w :
  reachable_by K by_assignment w -> active_have_histories w.
Proof.
  induction 1 as [username password tvoc hcho cloud0 t0|op w Hop _ IH|cloud' t w _ IH].
  - intros device_id H. inversion H.
  - destruct op; cbn [call]; cbn [by_assignment] in Hop.
    + eapply active_have_histories_untouched; [apply connect_untouched|exact IH].
    + eapply active_have_histories_untouched; [apply update_devices_untouched|exact IH].
    + apply fetch_sensors_active, IH.
    + apply update_sensors_maintains; [|exact IH].
      intros device_id ts_now w1 h Hw1 _ _. apply fetch_sensors_active, Hw1.
    + rewrite get_sensors_eq. cbn [fst]. revert IH.
      apply active_have_histories_kept; [reflexivity|]. intros d Hd. cbn.
      destruct (decide (device_id = d)) as [->|Hne].
      * rewrite lookup_insert_eq. eauto.
      * rewrite lookup_insert_ne by exact Hne. exact Hd.
    + exact IH.
    + destruct (set_active_spec devs w _ _ (surjective_pairing _))
        as (_ & Hframe & Hsome & _).
      intros d Hd. rewrite Hframe in Hd. cbn in Hd. apply Hsome, Hd.
    + contradiction.
  - exact IH.
Qed.

Lemma reachable_by_any K allowed w : reachable_by K allowed w -> reachable K w.
Proof.
  induction 1 as [username password tvoc hcho cloud0 t0|op w _ _ IH|cloud' t w _ IH].
  - apply reachable_start.
  - apply reachable_call; [exact I|exact IH].
  - apply reachable_elapse, IH.
Qed.

Lemma update_sensors_loop_safe K ts_now active : forall w w' e,
  reachable_by K by_assignment w ->
  (forall device_id, device_id ∈ active -> device_id ∈ active_devices (self w)) ->
  for_each active (fun device_id =>
    do s <- gets sensors;
    do h <- lift (lookup_or (KeyError in_sensors) (s !! device_id));
    if needs_fetch K ts_now h
    then (do _r <- _fetch_sensors K device_id ts_now false; ret tt)
    else ret tt) w = (w', Raised e) ->
  own_table_error e = false.
Proof.
  induction active as [|d active IH]; intros w w' e Hw Hact; cbn [for_each];
    [discriminate|].
  unfold bind at 1. unfold bind at 1. unfold gets at 1. unfold bind at 1.
  unfold lift at 1.
  destruct (reachable_active_have_histories K w Hw d) as [h Hh];
    [apply Hact; left|].
  rewrite Hh. cbn [lookup_or].
  assert (Hrest : forall x, x ∈ active -> x ∈ active_devices (self w))
    by (intros x Hx; apply Hact; right; exact Hx).
  destruct (needs_fetch K ts_now h); [|apply IH; assumption].
  unfold bind at 1.
  pose proof (fetch_sensors_fetched K d ts_now false w) as Hf.
  assert (Hnext : reachable_by K by_assignment
                    (_fetch_sensors K d ts_now false w).1)
    by (apply (reachable_call K by_assignment (FetchSensors d ts_now false));
        [exact I|exact Hw]).
  destruct (_fetch_sensors K d ts_now false w) as [w1 [b|e1]] eqn:Hfetch;
    cbn [fst] in Hnext.
  - unfold ret at 1. apply IH; [exact Hnext|].
    intros x Hx. unfold fetched in Hf. cbn [fst snd] in Hf.
    destruct b.
    + destruct Hf as (w2 & vos & r & h2 & (_&_&_&Ha&_) & _ & _ & ->).
      cbn. rewrite Ha. apply Hrest, Hx.
    + destruct Hf as (_&_&_&Ha&_). rewrite Ha. apply Hrest, Hx.
  - intros [= _ <-].
    assert (Hsafe := fetch_sensors_body_safe K
              (_fetch_sensors_body K (ret false) d ts_now true) d ts_now false).
    unfold _fetch_sensors in Hfetch. eapply Hsafe; [| | |exact Hfetch].
    + apply fetch_sensors_body_safe. discriminate.
    + apply (reachable_cache_consistent K), (reachable_by_any K by_assignment), Hw.
    + destruct (reachable_typed_store K _ w Hw) as (-> & _).
      rewrite initial_units_dom. reflexivity.
Qed.

(** X25. When the list of active devices is only ever assigned (with the
    setter), never appended to, every active device has a history in
    every reachable state, and a poll by [update_sensors] never raises
    the [KeyError] of a lookup in the controller's own tables. *)
Theorem update_sensors_is_safe_after_assignment K w :
  reachable_by K by_assignment w ->
  (forall device_id, device_id ∈ active_devices (self w) ->
     is_Some (sensors (self w) !! device_id))
  /\ forall e, (update_sensors K w).2 = Raised e -> own_table_error e = false.
Proof.
  intros Hw. split; [apply (reachable_active_have_histories K w Hw)|].
  intros e He. destruct (update_sensors K w) as [w' o] eqn:E. cbn [snd] in He.
  subst o. rewrite update_sensors_unfold in E. revert E.
  apply update_sensors_loop_safe; [exact Hw|]. intros d Hd. exact Hd.
Qed.

Lemma update_sensors_is_safe_after_assignment_witness :
  is_Some (sensors (self Example.w_polled) !! "A").
Proof.
  apply (proj1 (update_sensors_is_safe_after_assignment (Example.K 300)
                  Example.w_polled
                  (reachable_call _ _ UpdateSensors _ I
                     (reachable_call _ _ (SetActiveDevices ["A"]) _ I
                        (reachable_start _ _ _ _ _ _ _ _))))).
  vm_compute. left.
Defined.
